(** * PerformanceUtils: the load-testing engine of the Swag-Labs test suite

    A shallow embedding of [PerformanceUtils] (the second document of
    [src/utils/logger.ts]): the virtual actor [simulateUser], the four
    controllers [loadTest], [stressTest], [spikeTest], [enduranceTest], and
    the reducers [generate*Result].

    Modelling conventions.
    - The source runs on the JavaScript event loop: code between two [await]s
      runs to completion, and everything the engine cannot decide itself (how
      time passes, when and how a call of [testFunction] settles, when a timer
      callback is run) is an input.  That input is a list of [event]s; a
      controller consumes the list while it is suspended at an [await].
    - An [async] function returns a [promise]: [Pending] when the events end
      before the function has returned, [Fulfilled] with its value, or
      [Rejected].
    - [Date.now()] is the field [clock] (milliseconds, an integer).  Latencies
      are differences of clock readings, hence integers.  Averages, rates and
      every other JavaScript number are exact rationals extended with
      [Infinity], [-Infinity] and [NaN]; rounding of doubles and the sign of
      zero are not modelled.
    - The clock never runs backwards.
    - Actor counts are integers.
    - [invoked] in the state and the [PhaseLog] records returned beside the
      results are ghost data: they count the calls of [testFunction] and keep
      the times of the phases, which the source does not store.
    - The logger writes to the console and to files and returns nothing; it
      is left out.  Limits of the runtime (the call stack, the largest timer
      delay apart) are not modelled. *)

From Stdlib Require Import ZArith QArith Lia Lqa String.
From stdpp Require Import base tactics option list gmap.

Open Scope Z_scope.

(** ** JavaScript numbers *)

Inductive num : Type :=
| Fin (q : Q)
| PosInf
| NegInf
| NaN.

Definition Qltb (x y : Q) : bool := negb (Qle_bool y x).

Definition ofZ (z : Z) : num := Fin (inject_Z z).

(** [a + b] *)
Definition nadd (a b : num) : num :=
  match a, b with
  | NaN, _ | _, NaN => NaN
  | Fin x, Fin y => Fin (x + y)
  | PosInf, NegInf | NegInf, PosInf => NaN
  | PosInf, _ | _, PosInf => PosInf
  | NegInf, _ | _, NegInf => NegInf
  end.

(** [a * b] *)
Definition nmul (a b : num) : num :=
  match a, b with
  | NaN, _ | _, NaN => NaN
  | Fin x, Fin y => Fin (x * y)
  | Fin x, PosInf | PosInf, Fin x =>
      if Qeq_bool x 0 then NaN else if Qltb 0 x then PosInf else NegInf
  | Fin x, NegInf | NegInf, Fin x =>
      if Qeq_bool x 0 then NaN else if Qltb 0 x then NegInf else PosInf
  | PosInf, PosInf | NegInf, NegInf => PosInf
  | PosInf, NegInf | NegInf, PosInf => NegInf
  end.

(** [a / b] *)
Definition ndiv (a b : num) : num :=
  match a, b with
  | NaN, _ | _, NaN => NaN
  | Fin x, Fin y =>
      if Qeq_bool y 0
      then (if Qeq_bool x 0 then NaN else if Qltb 0 x then PosInf else NegInf)
      else Fin (x / y)
  | Fin _, _ => Fin 0
  | PosInf, Fin y => if Qltb y 0 then NegInf else PosInf
  | NegInf, Fin y => if Qltb y 0 then PosInf else NegInf
  | _, _ => NaN
  end.

(** [a >= b]; every comparison with [NaN] is false *)
Definition nge (a b : num) : bool :=
  match a, b with
  | NaN, _ | _, NaN => false
  | Fin x, Fin y => Qle_bool y x
  | PosInf, _ => true
  | _, NegInf => true
  | _, _ => false
  end.

(** [Math.max] of two arguments *)
Definition nmax (a b : num) : num :=
  match a, b with
  | NaN, _ | _, NaN => NaN
  | PosInf, _ | _, PosInf => PosInf
  | NegInf, x | x, NegInf => x
  | Fin x, Fin y => if Qle_bool x y then Fin y else Fin x
  end.

(** [Math.max(...l)]: [-Infinity] for no argument *)
Definition Math_max (l : list num) : num := foldl nmax NegInf l.

(** [Math.min(...l)] and [Math.max(...l)] on a non-empty array of integers *)
Definition minZ (x : Z) (l : list Z) : Z := foldl Z.min x l.
Definition maxZ (x : Z) (l : list Z) : Z := foldl Z.max x l.

(** Equality of numbers: [Q] is compared by its value *)
Definition num_eq (a b : num) : Prop :=
  match a, b with
  | Fin x, Fin y => (x == y)%Q
  | PosInf, PosInf | NegInf, NegInf | NaN, NaN => True
  | _, _ => False
  end.

Infix "=n=" := num_eq (at level 70, no associativity).

(** [a || b || 0] on numbers that may be [undefined]: [undefined] and [0]
    are falsy *)
Definition or_else (a : option Z) (b : Z) : Z :=
  match a with
  | Some v => if v =? 0 then b else v
  | None => b
  end.

(** ** Promises *)

Inductive promise (A : Type) : Type :=
| Pending
| Fulfilled (a : A)
| Rejected (reason : string).

Arguments Pending {A}.
Arguments Fulfilled {A} a.
Arguments Rejected {A} reason.

Definition await {A B : Type} (k : A -> promise B) (p : promise A) : promise B :=
  match p with
  | Pending => Pending
  | Fulfilled a => k a
  | Rejected r => Rejected r
  end.

(** [x ← p; k] reads [const x = await p; k] *)
#[global] Instance promise_bind : MBind promise := @await.

(** ** Data model *)

Module Metrics.
Record t : Type := mk {
  responseTimes : list Z;
  throughput : list Z;
  errors : Z;
  startTime : Z;
  endTime : Z
}.
End Metrics.

(** [{ users, avgResponseTime, errorRate }]: an entry of the stress results
    and the value of [runPhase] *)
Module Sample.
Record t : Type := mk {
  users : Z;
  avgResponseTime : num;
  errorRate : num
}.
End Sample.

Module PhaseSample.
Record t : Type := mk {
  phase : string;
  users : Z;
  avgResponseTime : num;
  errorRate : num
}.
End PhaseSample.

Module Snapshot.
Record t : Type := mk {
  timestamp : Z;
  avgResponseTime : num;
  errorRate : num;
  activeUsers : Z
}.
End Snapshot.

Module LoadOptions.
Record t : Type := mk {
  duration : Q;             (* seconds *)
  users : Z;
  rampUpTime : option Q;    (* seconds *)
  thinkTime : option Z      (* milliseconds *)
}.
End LoadOptions.

Module StressOptions.
Record t : Type := mk {
  maxUsers : Z;
  stepSize : Z;
  stepDuration : Q;         (* seconds *)
  maxDuration : Q;          (* seconds *)
  errorThreshold : Q        (* percentage *)
}.
End StressOptions.

Module SpikeOptions.
Record t : Type := mk {
  baseUsers : Z;
  spikeUsers : Z;
  baseDuration : Q;
  spikeDuration : Q;
  recoveryDuration : Q
}.
End SpikeOptions.

Module EnduranceOptions.
Record t : Type := mk {
  users : Z;
  duration : Q;             (* hours *)
  monitoringInterval : Q    (* minutes *)
}.
End EnduranceOptions.

Module LoadTestResult.
Record t : Type := mk {
  testType : string;
  totalRequests : Z;
  successfulRequests : Z;
  failedRequests : Z;
  avgResponseTime : num;
  minResponseTime : Z;
  maxResponseTime : Z;
  errorRate : num;
  throughput : num;
  duration : num;
  timestamp : Z
}.
End LoadTestResult.

Module StressTestResult.
Record t : Type := mk {
  testType : string;
  breakingPoint : Z;
  results : list Sample.t;
  timestamp : Z
}.
End StressTestResult.

Module SpikeTestResult.
Record t : Type := mk {
  testType : string;
  results : list PhaseSample.t;
  timestamp : Z
}.
End SpikeTestResult.

Module EnduranceTestResult.
Record t : Type := mk {
  testType : string;
  monitoringData : list Snapshot.t;
  avgResponseTime : num;
  maxResponseTime : num;
  avgErrorRate : num;
  duration : num;
  timestamp : Z
}.
End EnduranceTestResult.

(** ** The environment *)

(** How the promise returned by one call of [testFunction] settles. *)
Inductive outcome : Type := Completes | Throws.

Inductive event : Type :=
| Tick (d : Z)                   (* [d] milliseconds pass *)
| Settle (i : nat) (o : outcome) (* the call awaited by actor [i] settles and
                                    the actor is resumed *)
| Wake (i : nat)                 (* the think-time timeout of actor [i] runs *)
| Fire                           (* the [setInterval] callback runs *)
| RampWake.                      (* the ramp-up timeout of [loadTest] runs *)

(** Where one call of [simulateUser] (or [simulateUserPhase]) is suspended. *)
Inductive actor : Type :=
| InFlight (startTime : Z)   (* at [await testFunction()] *)
| Thinking (wakeAt : Q)      (* at the think-time [setTimeout] *)
| Exited.                    (* returned *)

Definition exited (a : actor) : bool :=
  match a with Exited => true | _ => false end.

Definition inFlight (a : actor) : bool :=
  match a with InFlight _ => true | _ => false end.

(** The live [setInterval] timer of [enduranceTest]: its period, the time
    before which it cannot run again, and the [users] its callback closes
    over. *)
Record Interval : Type := mkInterval {
  repeat_ms : Q;
  due : Q;
  closure_users : Z
}.

(** [this], the clock, and the actors the running controller awaits.
    [invoked] is a ghost counter of the calls of [testFunction]. *)
Record Engine : Type := mkEngine {
  metrics : Metrics.t;
  clock : Z;
  invoked : Z;
  userPromises : list actor;
  monitoringData : list Snapshot.t;
  monitoringIntervalId : option Interval
}.

Definition setMetrics (m : Metrics.t) (s : Engine) : Engine :=
  mkEngine m (clock s) (invoked s) (userPromises s) (monitoringData s)
    (monitoringIntervalId s).
Definition setClock (c : Z) (s : Engine) : Engine :=
  mkEngine (metrics s) c (invoked s) (userPromises s) (monitoringData s)
    (monitoringIntervalId s).
Definition setInvoked (n : Z) (s : Engine) : Engine :=
  mkEngine (metrics s) (clock s) n (userPromises s) (monitoringData s)
    (monitoringIntervalId s).
Definition setUserPromises (l : list actor) (s : Engine) : Engine :=
  mkEngine (metrics s) (clock s) (invoked s) l (monitoringData s)
    (monitoringIntervalId s).
Definition setMonitoringData (l : list Snapshot.t) (s : Engine) : Engine :=
  mkEngine (metrics s) (clock s) (invoked s) (userPromises s) l
    (monitoringIntervalId s).
Definition setMonitoringIntervalId (t : option Interval) (s : Engine) : Engine :=
  mkEngine (metrics s) (clock s) (invoked s) (userPromises s)
    (monitoringData s) t.

(** [this.metrics.responseTimes.push(responseTime)] *)
Definition recordSuccess (responseTime : Z) (m : Metrics.t) : Metrics.t :=
  Metrics.mk (Metrics.responseTimes m ++ [responseTime]) (Metrics.throughput m)
    (Metrics.errors m) (Metrics.startTime m) (Metrics.endTime m).

(** [this.metrics.errors++] *)
Definition recordFailure (m : Metrics.t) : Metrics.t :=
  Metrics.mk (Metrics.responseTimes m) (Metrics.throughput m)
    (Metrics.errors m + 1) (Metrics.startTime m) (Metrics.endTime m).

Definition setStartTime (t : Z) (m : Metrics.t) : Metrics.t :=
  Metrics.mk (Metrics.responseTimes m) (Metrics.throughput m)
    (Metrics.errors m) t (Metrics.endTime m).

Definition setEndTime (t : Z) (m : Metrics.t) : Metrics.t :=
  Metrics.mk (Metrics.responseTimes m) (Metrics.throughput m)
    (Metrics.errors m) (Metrics.startTime m) t.

(** [this.metrics.responseTimes = []; this.metrics.errors = 0] *)
Definition resetStep (m : Metrics.t) : Metrics.t :=
  Metrics.mk [] (Metrics.throughput m) 0 (Metrics.startTime m)
    (Metrics.endTime m).

Definition resetMetrics (s : Engine) : Engine :=
  setMetrics (Metrics.mk [] [] 0 0 0) s.

(** Time passes; the clock never runs backwards. *)
Definition tick (d : Z) (s : Engine) : Engine :=
  if 0 <=? d then setClock (clock s + d) s else s.

(** A clock reading in the condition of a controller's loop: such loops can
    iterate without suspending, so the reading lets a pending [Tick] pass. *)
Definition passTime (tr : list event) (s : Engine) : list event * Engine :=
  match tr with
  | Tick d :: tr' => (tr', tick d s)
  | _ => (tr, s)
  end.

(** The delay a timer really waits: the runtime replaces a delay outside
    [1, 2^31 - 1] by 1. *)
Definition timerDelay (ms : Q) : Q :=
  if Qle_bool 1 ms && Qle_bool ms 2147483647 then ms else 1%Q.

(** ** simulateUser *)

(** The head of the loop: [while (Date.now() < endTime)], then
    [startTime = Date.now()] and the call of [testFunction]. *)
Definition simulateUser_enter (endTime : Q) (s : Engine) : actor * Engine :=
  if Qltb (inject_Z (clock s)) endTime
  then (InFlight (clock s), setInvoked (invoked s + 1) s)
  else (Exited, s).

Definition simulateUser_loop (endTime : Q) (i : nat) (s : Engine) : Engine :=
  let '(a, s) := simulateUser_enter endTime s in
  setUserPromises (<[i := a]> (userPromises s)) s.

(** The rest of the loop body once the awaited call has settled: the [try]
    branch or the [catch] branch, then the think time. *)
Definition simulateUser_settled (thinkTime : Z) (endTime : Q) (i : nat)
    (startTime : Z) (o : outcome) (s : Engine) : Engine :=
  let s :=
    match o with
    | Completes =>
        let responseTime := clock s - startTime in
        setMetrics (recordSuccess responseTime (metrics s)) s
    | Throws => setMetrics (recordFailure (metrics s)) s
    end in
  if 0 <? thinkTime
  then setUserPromises
         (<[i := Thinking (inject_Z (clock s) + timerDelay (inject_Z thinkTime))]>
            (userPromises s)) s
  else simulateUser_loop endTime i s.

(** The call [this.simulateUser(testFunction, thinkTime, endTime)]: it runs up
    to its first [await] and its promise is pushed on [userPromises]. *)
Definition simulateUser (endTime : Q) (s : Engine) : Engine :=
  let '(a, s) := simulateUser_enter endTime s in
  setUserPromises (userPromises s ++ [a]) s.

(** [avgResponseTime] as every controller computes it *)
Definition average (responseTimes : list Z) : num :=
  if 0 <? Z.of_nat (length responseTimes)
  then ndiv (ofZ (foldl Z.add 0 responseTimes)) (ofZ (Z.of_nat (length responseTimes)))
  else Fin 0.

(** [(errors / (responseTimes.length + errors)) * 100] *)
Definition errorPercentage (responseTimes : list Z) (errors : Z) : num :=
  nmul (ndiv (ofZ errors) (ofZ (Z.of_nat (length responseTimes) + errors))) (Fin 100).

(** The [setInterval] callback of [enduranceTest]. *)
Definition monitor (t : Interval) (s : Engine) : Engine :=
  let avgResponseTime := average (Metrics.responseTimes (metrics s)) in
  let errorRate :=
    errorPercentage (Metrics.responseTimes (metrics s)) (Metrics.errors (metrics s)) in
  let s := setMonitoringData
    (monitoringData s ++
       [Snapshot.mk (clock s) avgResponseTime errorRate (closure_users t)]) s in
  setMonitoringIntervalId
    (Some (mkInterval (repeat_ms t) (inject_Z (clock s) + repeat_ms t) (closure_users t))) s.

(** One turn of the event loop while a controller awaits actors started with
    [thinkTime] and [endTime].  An event that cannot happen in the current
    state (no such actor, a timer that is not due) changes nothing. *)
Definition handle (thinkTime : Z) (endTime : Q) (e : event) (s : Engine) : Engine :=
  match e with
  | Tick d => tick d s
  | Settle i o =>
      match userPromises s !! i with
      | Some (InFlight startTime) =>
          simulateUser_settled thinkTime endTime i startTime o s
      | _ => s
      end
  | Wake i =>
      match userPromises s !! i with
      | Some (Thinking wakeAt) =>
          if Qle_bool wakeAt (inject_Z (clock s))
          then simulateUser_loop endTime i s else s
      | _ => s
      end
  | Fire =>
      match monitoringIntervalId s with
      | Some t => if Qle_bool (due t) (inject_Z (clock s)) then monitor t s else s
      | None => s
      end
  | RampWake => s
  end.

Definition allExited (s : Engine) : bool := forallb exited (userPromises s).

Section EventLoop.
Context {St : Type}.
Variable step : event -> St -> St.
Variable joined : St -> bool.

(** [await Promise.all(userPromises)] *)
Fixpoint awaitAll (tr : list event) (s : St) : promise (list event * St) :=
  if joined s then Fulfilled (tr, s)
  else match tr with
       | [] => Pending
       | e :: tr' => awaitAll tr' (step e s)
       end.

(** The state after the events [tr], whether the actors have joined or not. *)
Fixpoint run (tr : list event) (s : St) : St :=
  match tr with
  | [] => s
  | e :: tr' => run tr' (step e s)
  end.
End EventLoop.

(** [for (let i = 0; i < users; i++) userPromises.push(this.simulateUser(...))]
    on a fresh [userPromises] *)
Definition launchAll (endTime : Q) (users : Z) (s : Engine) : Engine :=
  Nat.iter (Z.to_nat users) (simulateUser endTime) (setUserPromises [] s).

(** ** Reducers *)

Definition generateLoadTestResult (testType : string) (s : Engine) : LoadTestResult.t :=
  let m := metrics s in
  let n := Z.of_nat (length (Metrics.responseTimes m)) in
  let totalRequests := n + Metrics.errors m in
  let avgResponseTime := average (Metrics.responseTimes m) in
  let minResponseTime :=
    match Metrics.responseTimes m with x :: l => minZ x l | [] => 0 end in
  let maxResponseTime :=
    match Metrics.responseTimes m with x :: l => maxZ x l | [] => 0 end in
  let errorRate :=
    if 0 <? totalRequests
    then nmul (ndiv (ofZ (Metrics.errors m)) (ofZ totalRequests)) (Fin 100)
    else Fin 0 in
  let seconds := ndiv (ofZ (Metrics.endTime m - Metrics.startTime m)) (Fin 1000) in
  let throughput := ndiv (ofZ totalRequests) seconds in
  LoadTestResult.mk testType totalRequests n (Metrics.errors m)
    avgResponseTime minResponseTime maxResponseTime errorRate throughput
    seconds (clock s).

Definition generateStressTestResult (results : list Sample.t) (s : Engine)
  : StressTestResult.t :=
  let breakingPoint :=
    or_else (Sample.users <$> find (fun r => nge (Sample.errorRate r) (Fin 5)) results)
      (or_else (Sample.users <$> last results) 0) in
  StressTestResult.mk "Stress Test" breakingPoint results (clock s).

Definition generateSpikeTestResult (results : list PhaseSample.t) (s : Engine)
  : SpikeTestResult.t :=
  SpikeTestResult.mk "Spike Test" results (clock s).

Definition generateEnduranceTestResult (monitoringData : list Snapshot.t)
    (s : Engine) : EnduranceTestResult.t :=
  let n := ofZ (Z.of_nat (length monitoringData)) in
  let avgResponseTime :=
    ndiv (foldl (fun sum data => nadd sum (Snapshot.avgResponseTime data)) (Fin 0)
            monitoringData) n in
  let maxResponseTime := Math_max (Snapshot.avgResponseTime <$> monitoringData) in
  let avgErrorRate :=
    ndiv (foldl (fun sum data => nadd sum (Snapshot.errorRate data)) (Fin 0)
            monitoringData) n in
  EnduranceTestResult.mk "Endurance Test" monitoringData avgResponseTime
    maxResponseTime avgErrorRate
    (ndiv (ofZ (Metrics.endTime (metrics s) - Metrics.startTime (metrics s)))
       (Fin (1000 * 60 * 60)))
    (clock s).

(** ** Ghost record of one phase (a stress step or a spike phase) *)

Record PhaseLog : Type := mkPhaseLog {
  phaseStartTime : Z;     (* the clock when the phase starts *)
  phaseEndTime : Q;       (* the deadline given to its actors *)
  joinTime : Z;           (* the clock when [Promise.all] resolves *)
  launched : nat;         (* how many actors were started *)
  latencies : list Z;     (* the latencies recorded during the phase *)
  failures : Z;           (* how many calls threw during the phase *)
  calls : Z               (* how many calls of [testFunction] were made *)
}.

(** ** loadTest *)

Definition positive (a : num) : bool :=
  match a with
  | Fin x => Qltb 0 x
  | PosInf => true
  | _ => false
  end.

Definition delayOf (a : num) : Q :=
  match a with
  | Fin x => timerDelay x
  | _ => 1%Q
  end.

Section Suspended.
Variable step : event -> Engine -> Engine.

(** [await new Promise(resolve => setTimeout(resolve, ...))] in a
    controller: the actors go on until the timeout, due at [wakeAt], runs. *)
Fixpoint awaitTimer (wakeAt : Q) (tr : list event) (s : Engine)
  : promise (list event * Engine) :=
  match tr with
  | [] => Pending
  | RampWake :: tr' =>
      if Qle_bool wakeAt (inject_Z (clock s)) then Fulfilled (tr', s)
      else awaitTimer wakeAt tr' s
  | e :: tr' => awaitTimer wakeAt tr' (step e s)
  end.
End Suspended.

(** [while (Date.now() < endTime) { }] once every user is started: the loop
    never suspends, so no callback runs and only time passes. *)
Fixpoint spin (endTime : Q) (tr : list event) (s : Engine)
  : promise (list event * Engine) :=
  if Qltb (inject_Z (clock s)) endTime then
    match tr with
    | [] => Pending
    | Tick d :: tr' => spin endTime tr' (tick d s)
    | _ :: tr' => spin endTime tr' s
    end
  else Fulfilled (tr, s).

(** The [while] loop of [loadTest]; [waiting] is [users - activeUsers], so
    that [activeUsers < users] reads [waiting <> 0]. *)
Fixpoint loadLoop (thinkTime : Z) (endTime : Q) (rampUpInterval : num)
    (waiting : nat) (tr : list event) (s : Engine)
  : promise (list event * Engine) :=
  let '(tr, s) := passTime tr s in
  if Qltb (inject_Z (clock s)) endTime then
    match waiting with
    | O => spin endTime tr s
    | S waiting' =>
        let s := simulateUser endTime s in
        if positive rampUpInterval then
          '(tr, s) ← awaitTimer (handle thinkTime endTime)
                       (inject_Z (clock s) + delayOf rampUpInterval) tr s;
          loadLoop thinkTime endTime rampUpInterval waiting' tr s
        else loadLoop thinkTime endTime rampUpInterval waiting' tr s
    end
  else Fulfilled (tr, s).

Definition loadTest (options : LoadOptions.t) (tr : list event) (s : Engine)
  : promise (LoadTestResult.t * list event * Engine) :=
  let s := resetMetrics s in
  let s := setMetrics (setStartTime (clock s) (metrics s)) s in
  let duration := LoadOptions.duration options in
  let users := LoadOptions.users options in
  let rampUpTime := default 0%Q (LoadOptions.rampUpTime options) in
  let thinkTime := default 0 (LoadOptions.thinkTime options) in
  let endTime := (inject_Z (clock s) + duration * 1000)%Q in
  let rampUpInterval :=
    if Qltb 0 rampUpTime
    then ndiv (Fin (rampUpTime * 1000)) (ofZ users)
    else Fin 0 in
  let s := setUserPromises [] s in
  '(tr, s) ← loadLoop thinkTime endTime rampUpInterval (Z.to_nat users) tr s;
  '(tr, s) ← awaitAll (handle thinkTime endTime) allExited tr s;
  let s := setMetrics (setEndTime (clock s) (metrics s)) s in
  Fulfilled (generateLoadTestResult "Load Test" s, tr, s).

(** ** stressTest *)

(** The [for] loop of [stressTest], at most [fuel] iterations. *)
Fixpoint stressLoop (fuel : nat) (options : StressOptions.t) (endTime : Q)
    (users : Z) (results : list Sample.t) (log : list PhaseLog)
    (tr : list event) (s : Engine)
  : promise (list Sample.t * list PhaseLog * list event * Engine) :=
  match fuel with
  | O => Pending
  | S fuel' =>
      if users <=? StressOptions.maxUsers options then
        let '(tr, s) := passTime tr s in
        if Qltb (inject_Z (clock s)) endTime then
          let s := setMetrics (resetStep (metrics s)) s in
          let calls0 := invoked s in
          let stepStartTime := clock s in
          let stepEndTime :=
            (inject_Z stepStartTime + StressOptions.stepDuration options * 1000)%Q in
          let s := launchAll stepEndTime users s in
          '(tr, s) ← awaitAll (handle 0 stepEndTime) allExited tr s;
          let avgResponseTime := average (Metrics.responseTimes (metrics s)) in
          let errorRate :=
            errorPercentage (Metrics.responseTimes (metrics s))
              (Metrics.errors (metrics s)) in
          let results := results ++ [Sample.mk users avgResponseTime errorRate] in
          let log := log ++
            [mkPhaseLog stepStartTime stepEndTime (clock s)
               (length (userPromises s)) (Metrics.responseTimes (metrics s))
               (Metrics.errors (metrics s)) (invoked s - calls0)] in
          if nge errorRate (Fin (StressOptions.errorThreshold options))
          then Fulfilled (results, log, tr, s)
          else stressLoop fuel' options endTime
                 (users + StressOptions.stepSize options) results log tr s
        else Fulfilled (results, log, tr, s)
      else Fulfilled (results, log, tr, s)
  end.

Definition stressTest (fuel : nat) (options : StressOptions.t)
    (tr : list event) (s : Engine)
  : promise (StressTestResult.t * list PhaseLog * list event * Engine) :=
  let s := resetMetrics s in
  let s := setMetrics (setStartTime (clock s) (metrics s)) s in
  let endTime := (inject_Z (clock s) + StressOptions.maxDuration options * 1000)%Q in
  '(results, log, tr, s) ←
     stressLoop fuel options endTime (StressOptions.stepSize options) [] [] tr s;
  let s := setMetrics (setEndTime (clock s) (metrics s)) s in
  Fulfilled (generateStressTestResult results s, log, tr, s).

(** ** spikeTest *)

(** What [runPhase] and its actors share: the clock, the ghost call counter,
    the two locals [phaseResponseTimes] and [phaseErrors], and the actors,
    each with its own parameter [errors]. *)
Record Phase : Type := mkPhase {
  now : Z;
  testCalls : Z;
  phaseResponseTimes : list Z;
  phaseErrors : Z;
  phasePromises : list (actor * Z)
}.

Definition setPhasePromises (l : list (actor * Z)) (p : Phase) : Phase :=
  mkPhase (now p) (testCalls p) (phaseResponseTimes p) (phaseErrors p) l.

(** The head of the loop of [simulateUserPhase]. *)
Definition simulateUserPhase_enter (endTime : Q) (p : Phase) : actor * Phase :=
  if Qltb (inject_Z (now p)) endTime
  then (InFlight (now p),
        mkPhase (now p) (testCalls p + 1) (phaseResponseTimes p) (phaseErrors p)
          (phasePromises p))
  else (Exited, p).

(** The loop body after the awaited call has settled.  [responseTimes] is the
    array [phaseResponseTimes] itself; [errors] is the actor's own copy of the
    number it was called with. *)
Definition simulateUserPhase_settled (endTime : Q) (i : nat) (startTime : Z)
    (errors : Z) (o : outcome) (p : Phase) : Phase :=
  match o with
  | Completes =>
      let responseTime := now p - startTime in
      let p := mkPhase (now p) (testCalls p)
                 (phaseResponseTimes p ++ [responseTime]) (phaseErrors p)
                 (phasePromises p) in
      let '(a, p) := simulateUserPhase_enter endTime p in
      setPhasePromises (<[i := (a, errors)]> (phasePromises p)) p
  | Throws =>
      let errors := errors + 1 in
      let '(a, p) := simulateUserPhase_enter endTime p in
      setPhasePromises (<[i := (a, errors)]> (phasePromises p)) p
  end.

(** The call [this.simulateUserPhase(testFunction, phaseEndTime,
    phaseResponseTimes, phaseErrors)]. *)
Definition simulateUserPhase (endTime : Q) (p : Phase) : Phase :=
  let errors := phaseErrors p in
  let '(a, p) := simulateUserPhase_enter endTime p in
  setPhasePromises (phasePromises p ++ [(a, errors)]) p.

Definition handlePhase (endTime : Q) (e : event) (p : Phase) : Phase :=
  match e with
  | Tick d =>
      if 0 <=? d
      then mkPhase (now p + d) (testCalls p) (phaseResponseTimes p)
             (phaseErrors p) (phasePromises p)
      else p
  | Settle i o =>
      match phasePromises p !! i with
      | Some (InFlight startTime, errors) =>
          simulateUserPhase_settled endTime i startTime errors o p
      | _ => p
      end
  | _ => p
  end.

Definition allExitedPhase (p : Phase) : bool :=
  forallb (fun a => exited (fst a)) (phasePromises p).

Definition runPhase (users : Z) (duration : Q) (tr : list event) (s : Engine)
  : promise (Sample.t * PhaseLog * list event * Engine) :=
  let phaseStartTime := clock s in
  let phaseEndTime := (inject_Z phaseStartTime + duration * 1000)%Q in
  let p := mkPhase (clock s) (invoked s) [] 0 [] in
  let p := Nat.iter (Z.to_nat users) (simulateUserPhase phaseEndTime) p in
  '(tr, p) ← awaitAll (handlePhase phaseEndTime) allExitedPhase tr p;
  let avgResponseTime := average (phaseResponseTimes p) in
  let errorRate := errorPercentage (phaseResponseTimes p) (phaseErrors p) in
  Fulfilled
    (Sample.mk users avgResponseTime errorRate,
     mkPhaseLog phaseStartTime phaseEndTime (now p) (length (phasePromises p))
       (phaseResponseTimes p) (foldr Z.add 0 (snd <$> phasePromises p))
       (testCalls p - invoked s),
     tr, setInvoked (testCalls p) (setClock (now p) s)).

Definition labelled (phase : string) (r : Sample.t) : PhaseSample.t :=
  PhaseSample.mk phase (Sample.users r) (Sample.avgResponseTime r)
    (Sample.errorRate r).

Definition spikeTest (options : SpikeOptions.t) (tr : list event) (s : Engine)
  : promise (SpikeTestResult.t * list PhaseLog * list event * Engine) :=
  let s := resetMetrics s in
  let s := setMetrics (setStartTime (clock s) (metrics s)) s in
  let results := [] in
  '(baseResult, l1, tr, s) ←
     runPhase (SpikeOptions.baseUsers options) (SpikeOptions.baseDuration options) tr s;
  let results := results ++ [labelled "Base Load" baseResult] in
  '(spikeResult, l2, tr, s) ←
     runPhase (SpikeOptions.spikeUsers options) (SpikeOptions.spikeDuration options) tr s;
  let results := results ++ [labelled "Spike Load" spikeResult] in
  '(recoveryResult, l3, tr, s) ←
     runPhase (SpikeOptions.baseUsers options) (SpikeOptions.recoveryDuration options) tr s;
  let results := results ++ [labelled "Recovery" recoveryResult] in
  let s := setMetrics (setEndTime (clock s) (metrics s)) s in
  Fulfilled (generateSpikeTestResult results s, [l1; l2; l3], tr, s).

(** ** enduranceTest *)

Definition enduranceTest (options : EnduranceOptions.t) (tr : list event)
    (s : Engine) : promise (EnduranceTestResult.t * list event * Engine) :=
  let s := resetMetrics s in
  let s := setMetrics (setStartTime (clock s) (metrics s)) s in
  let users := EnduranceOptions.users options in
  let endTime :=
    (inject_Z (clock s) + EnduranceOptions.duration options * 60 * 60 * 1000)%Q in
  let intervalMs := (EnduranceOptions.monitoringInterval options * 60 * 1000)%Q in
  let s := setMonitoringData [] s in
  let s := launchAll endTime users s in
  let s := setMonitoringIntervalId
    (Some (mkInterval (timerDelay intervalMs)
             (inject_Z (clock s) + timerDelay intervalMs) users)) s in
  '(tr, s) ← awaitAll (handle 1000 endTime) allExited tr s;
  let s := setMonitoringIntervalId None s in
  let s := setMetrics (setEndTime (clock s) (metrics s)) s in
  Fulfilled (generateEnduranceTestResult (monitoringData s) s, tr, s).

(** A fresh [PerformanceUtils] at time [t]. *)
Definition newEngine (t : Z) : Engine :=
  mkEngine (Metrics.mk [] [] 0 0 0) t 0 [] [] None.

(** ** The shape of a stress run *)

Section StressSteps.
Variable options : StressOptions.t.
Variable endTime : Q.

(** What ties a sample and the ghost record of its step to the concurrency
    [users] of the step. *)
Definition stepOf (users : Z) (r : Sample.t) (p : PhaseLog) : Prop :=
  Sample.users r = users /\
  Sample.avgResponseTime r = average (latencies p) /\
  Sample.errorRate r = errorPercentage (latencies p) (failures p) /\
  launched p = Z.to_nat users /\
  phaseStartTime p <= joinTime p /\
  (inject_Z (phaseStartTime p) < endTime)%Q /\
  calls p = Z.of_nat (length (latencies p)) + failures p.

(** [Steps users results log s]: the loop, entered with concurrency [users],
    runs the steps [results] (with ghost records [log]) and leaves in state
    [s].  One constructor for each way out of the loop, one for going
    round. *)
Inductive Steps : Z -> list Sample.t -> list PhaseLog -> Engine -> Prop :=
| steps_maxUsers users s :
    StressOptions.maxUsers options < users ->
    Steps users [] [] s
| steps_maxDuration users s :
    users <= StressOptions.maxUsers options ->
    (endTime <= inject_Z (clock s))%Q ->
    Steps users [] [] s
| steps_threshold users r p s :
    users <= StressOptions.maxUsers options ->
    stepOf users r p ->
    nge (Sample.errorRate r) (Fin (StressOptions.errorThreshold options)) = true ->
    joinTime p = clock s ->
    Steps users [r] [p] s
| steps_next users r p results log s :
    users <= StressOptions.maxUsers options ->
    stepOf users r p ->
    nge (Sample.errorRate r) (Fin (StressOptions.errorThreshold options)) = false ->
    joinTime p <= clock s ->
    Steps (users + StressOptions.stepSize options) results log s ->
    Steps users (r :: results) (p :: log) s.
End StressSteps.

(** The step reached the fixed classification threshold of
    [generateStressTestResult]. *)
Definition broken (r : Sample.t) : bool := nge (Sample.errorRate r) (Fin 5).

(** ** Accounting of the calls *)

(** The calls that are in flight: made, not yet settled. *)
Definition pendingCalls (l : list actor) : Z :=
  foldr (fun a n => (if inFlight a then 1 else 0) + n) 0 l.

(** The calls that were made and are neither in flight nor recorded in
    [this.metrics]. *)
Definition unrecorded (s : Engine) : Z :=
  invoked s
  - (Z.of_nat (length (Metrics.responseTimes (metrics s)))
     + Metrics.errors (metrics s)
     + pendingCalls (userPromises s)).

(** The actor an event resumes. *)
Definition target (e : event) : option nat :=
  match e with
  | Settle i _ | Wake i => Some i
  | _ => None
  end.

(** ** Accounting of a phase *)

Definition pendingPhase (l : list (actor * Z)) : Z := pendingCalls (fst <$> l).

(** The failures the actors of a phase counted, each in its own [errors]. *)
Definition privateErrors (l : list (actor * Z)) : Z := foldr Z.add 0 (snd <$> l).

(** What holds of a phase started at [start], with [calls0] calls made
    before it, all the time its actors run. *)
Record PhaseInv (start calls0 : Z) (endTime : Q) (p : Phase) : Prop := {
  inv_now : start <= now p;
  inv_errors : phaseErrors p = 0;
  inv_actors :
    Forall (fun a =>
              match fst a with
              | InFlight st => start <= st <= now p
              | Thinking _ => False
              | Exited => (endTime <= inject_Z (now p))%Q
              end /\ 0 <= snd a) (phasePromises p);
  inv_latencies :
    Forall (fun x => 0 <= x <= now p - start) (phaseResponseTimes p);
  inv_calls :
    testCalls p - calls0
    = Z.of_nat (length (phaseResponseTimes p))
      + privateErrors (phasePromises p) + pendingPhase (phasePromises p)
}.

(** What [runPhase users duration], run from [s] to [s'], returns. *)
Definition phaseOf (users : Z) (duration : Q) (s s' : Engine)
    (r : Sample.t) (l : PhaseLog) : Prop :=
  Sample.users r = users /\
  Sample.avgResponseTime r = average (latencies l) /\
  Sample.errorRate r = errorPercentage (latencies l) 0 /\
  phaseStartTime l = clock s /\
  phaseEndTime l = (inject_Z (clock s) + duration * 1000)%Q /\
  joinTime l = clock s' /\
  clock s <= clock s' /\
  launched l = Z.to_nat users /\
  metrics s' = metrics s /\
  ((0 < launched l)%nat -> (phaseEndTime l <= inject_Z (joinTime l))%Q) /\
  Forall (fun x => 0 <= x <= joinTime l - phaseStartTime l) (latencies l) /\
  0 <= failures l /\
  calls l = Z.of_nat (length (latencies l)) + failures l.

(** ** The monitoring timer *)


(** Time stamps that are at least [period] apart, the first one at least
    [period] after [prev]. *)
Fixpoint spaced (period : Q) (prev : Z) (stamps : list Z) : Prop :=
  match stamps with
  | [] => True
  | t :: stamps' => (inject_Z prev + period <= inject_Z t)%Q /\ spaced period t stamps'
  end.


(** The state in which [enduranceTest] starts to await its actors. *)
Definition enduranceStart (options : EnduranceOptions.t) (s : Engine) : Engine :=
  let s := resetMetrics s in
  let s := setMetrics (setStartTime (clock s) (metrics s)) s in
  let endTime :=
    (inject_Z (clock s) + EnduranceOptions.duration options * 60 * 60 * 1000)%Q in
  let intervalMs := (EnduranceOptions.monitoringInterval options * 60 * 1000)%Q in
  let s := setMonitoringData [] s in
  let s := launchAll endTime (EnduranceOptions.users options) s in
  setMonitoringIntervalId
    (Some (mkInterval (timerDelay intervalMs)
             (inject_Z (clock s) + timerDelay intervalMs)
             (EnduranceOptions.users options))) s.


(** What a snapshot shows of a state. *)
Definition viewOf (s : Engine) (d : Snapshot.t) : Prop :=
  Snapshot.timestamp d = clock s /\
  Snapshot.avgResponseTime d = average (Metrics.responseTimes (metrics s)) /\
  Snapshot.errorRate d
  = errorPercentage (Metrics.responseTimes (metrics s)) (Metrics.errors (metrics s)).

(** The time of the last snapshot, or the start of the run when there is
    none yet. *)
Definition lastStamp (start : Z) (data : list Snapshot.t) : Z :=
  default start (last (Snapshot.timestamp <$> data)).

(** What holds of the timer and of the snapshots while [enduranceTest], begun
    at [start] with period [period], awaits its actors. *)
Record TimerInv (period : Q) (users start : Z) (endTime : Q) (s : Engine) : Prop := {
  timer_live :
    exists t, monitoringIntervalId s = Some t /\
              repeat_ms t = period /\ closure_users t = users /\
              due t = (inject_Z (lastStamp start (monitoringData s)) + period)%Q;
  timer_last : lastStamp start (monitoringData s) <= clock s;
  timer_spaced : spaced period start (Snapshot.timestamp <$> monitoringData s);
  timer_data :
    Forall (fun d => Snapshot.activeUsers d = users /\
                     Snapshot.timestamp d <= clock s /\
                     exists q, Snapshot.avgResponseTime d = Fin q)
      (monitoringData s);
  timer_exits :
    Forall (fun a => a = Exited -> (endTime <= inject_Z (clock s))%Q)
      (userPromises s)
}.


(** ** Relations between states *)

(** [frame s s']: from [s] to [s'] the clock has not run backwards, the two
    time stamps of [this.metrics] are the same, and no actor was added or
    removed. *)
Definition frame (s s' : Engine) : Prop :=
  clock s <= clock s' /\
  Metrics.startTime (metrics s') = Metrics.startTime (metrics s) /\
  Metrics.endTime (metrics s') = Metrics.endTime (metrics s) /\
  length (userPromises s') = length (userPromises s).

(** [progress s s']: the clock has not run backwards, the start of the run
    is the same, the failure counter has not decreased and every call made in
    between is in flight or recorded. *)
Definition progress (s s' : Engine) : Prop :=
  clock s <= clock s' /\
  Metrics.startTime (metrics s') = Metrics.startTime (metrics s) /\
  Metrics.errors (metrics s) <= Metrics.errors (metrics s') /\
  unrecorded s' = unrecorded s.


(** ** Runs used as examples *)

(** The events of a phase in which every actor makes one call: [ms]
    milliseconds pass, then the calls settle in the order of the actors. *)
Definition settleAll (outcomes : list outcome) : list event :=
  imap (fun i o => Settle i o) outcomes.

Definition phaseEvents (ms : Z) (outcomes : list outcome) : list event :=
  Tick ms :: settleAll outcomes.

(** Stress run: 20 users at most in steps of 5; one call of ten throws in the
    second step.  The [Tick 0] before each step is the clock reading of the
    loop condition. *)
Definition stress_options : StressOptions.t :=
  StressOptions.mk 20 5 1 60 50.

Definition stress_events : list event :=
  Tick 0 :: phaseEvents 1000 (replicate 5 Completes) ++
  Tick 0 :: phaseEvents 1000 (Throws :: replicate 9 Completes) ++
  Tick 0 :: phaseEvents 1000 (replicate 15 Completes) ++
  Tick 0 :: phaseEvents 1000 (replicate 20 Completes).



(** Spike run: the only base actor fails once and then succeeds; each of the
    two spike actors does the same; the recovery actor succeeds. *)
Definition spike_options : SpikeOptions.t :=
  SpikeOptions.mk 1 2 1 1 1.

Definition spike_events : list event :=
  [Settle 0 Throws; Tick 1000; Settle 0 Completes;
   Tick 500; Settle 1 Throws; Settle 0 Throws; Tick 500;
   Settle 0 Completes; Settle 1 Completes;
   Tick 1000; Settle 0 Completes].

(** Load run: two users for one second, no ramp-up, no think time.  The
    users are started, the loop of the controller spins for the second, then
    the first call throws and the second completes. *)
Definition load_options : LoadOptions.t :=
  LoadOptions.mk 1 2 None None.

Definition load_events : list event :=
  [Tick 0; Tick 0; Tick 0; Tick 1000; Settle 0 Throws; Tick 40; Settle 1 Completes].

(** Load run with no duration. *)
Definition load_options_zero : LoadOptions.t :=
  LoadOptions.mk 0 3 None None.

(** Endurance runs of 0.05 hours monitored every minute, with one user whose
    think time is one second.  In the first run a call takes 59.5 seconds and
    the third callback runs just before the user returns; in the second run
    the first call takes 250 seconds. *)
Definition endurance_options : EnduranceOptions.t :=
  EnduranceOptions.mk 1 (1 # 20) 1.

Definition endurance_events : list event :=
  [Tick 59500; Settle 0 Completes; Tick 500; Fire; Tick 500; Wake 0;
   Tick 59500; Fire; Tick 0; Settle 0 Completes; Tick 1000; Wake 0;
   Tick 58500; Settle 0 Completes; Tick 500; Fire; Tick 500; Wake 0].

Definition endurance_events_slow : list event :=
  [Tick 60000; Fire; Tick 60000; Fire; Tick 60000; Fire; Tick 60000; Fire;
   Tick 10000; Settle 0 Completes; Tick 1000; Wake 0].

(** Two actors with a call in flight since time 0 and a deadline at 1000. *)
Definition two_actors : Engine := launchAll 1000 2 (newEngine 0).

(** ** Timing of the calls *)

(** What holds of the clock readings while the actors of a run (or of a
    stress step) begun at [start] go on: the clock has not run backwards, a
    call in flight was started between [start] and now, and every recorded
    latency is at most the time since [start]. *)
Definition Timed (start : Z) (s : Engine) : Prop :=
  start <= clock s /\
  Forall (fun a => match a with
                   | InFlight startTime => start <= startTime <= clock s
                   | _ => True
                   end) (userPromises s) /\
  Forall (fun x => 0 <= x <= clock s - start) (Metrics.responseTimes (metrics s)).

(** Actor [i] has had its rest: the call it has in flight was started at
    [since] or later, or it is still thinking until [since] or later. *)
Definition rested (since : Q) (i : nat) (s : Engine) : Prop :=
  match userPromises s !! i with
  | Some (InFlight startTime) =>
      (since <= inject_Z startTime)%Q /\ startTime <= clock s
  | Some (Thinking wakeAt) => (since <= wakeAt)%Q
  | _ => True
  end.

(** Phases that come one after the other, the first one not before [prev]:
    a phase starts when the one before has joined. *)
Fixpoint sequential (prev : Z) (log : list PhaseLog) : Prop :=
  match log with
  | [] => True
  | p :: log' =>
      prev <= phaseStartTime p /\ phaseStartTime p <= joinTime p /\
      sequential (joinTime p) log'
  end.

(** What the sample [r] of a stress step and its ghost record [p] say of the
    step, for steps of [stepDuration] seconds. *)
Record stepFacts (stepDuration : Q) (r : Sample.t) (p : PhaseLog) : Prop := {
  step_deadline :
    phaseEndTime p = (inject_Z (phaseStartTime p) + stepDuration * 1000)%Q;
  step_launched : launched p = Z.to_nat (Sample.users r);
  step_average : Sample.avgResponseTime r = average (latencies p);
  step_errorRate : Sample.errorRate r = errorPercentage (latencies p) (failures p);
  step_join : phaseStartTime p <= joinTime p;
  step_late : (0 < launched p)%nat -> (phaseEndTime p <= inject_Z (joinTime p))%Q;
  step_latencies :
    Forall (fun x => 0 <= x <= joinTime p - phaseStartTime p) (latencies p);
  step_failures : 0 <= failures p;
  step_calls : calls p = Z.of_nat (length (latencies p)) + failures p;
  step_busy :
    (inject_Z (phaseStartTime p) < phaseEndTime p)%Q ->
    Z.of_nat (launched p) <= calls p;
  step_idle :
    (phaseEndTime p <= inject_Z (phaseStartTime p))%Q ->
    calls p = 0 /\ joinTime p = phaseStartTime p
}.

(** A percentage: a rational between 0 and 100. *)
Definition percentage (a : num) : Prop :=
  exists q, a = Fin q /\ (0 <= q)%Q /\ (q <= 100)%Q.

(** A rational between the integers [lo] and [hi]. *)
Definition within (lo hi : Z) (a : num) : Prop :=
  exists q, a = Fin q /\ (inject_Z lo <= q)%Q /\ (q <= inject_Z hi)%Q.

(** ** More runs used as examples *)


(** Stress run with steps of no duration. *)
Definition stress_options_instant : StressOptions.t :=
  StressOptions.mk 10 5 0 60 50.

(** Spike run in which the only call of the base phase throws. *)
Definition spike_events_failing : list event :=
  [Tick 1000; Settle 0 Throws;
   Tick 1000; Settle 0 Throws; Settle 1 Completes;
   Tick 1000; Settle 0 Completes].

(** Spike run with phases of no duration. *)
Definition spike_options_instant : SpikeOptions.t :=
  SpikeOptions.mk 1 2 0 0 0.

(** Endurance run with no duration. *)
Definition endurance_options_instant : EnduranceOptions.t :=
  EnduranceOptions.mk 3 0 1.

(** Load run of one second with two users ramped up over one second: the
    second user is started half a second after the first. *)
Definition load_options_ramp : LoadOptions.t :=
  LoadOptions.mk 1 2 (Some 1%Q) None.

Definition load_events_ramp : list event :=
  [Tick 0; Tick 500; RampWake; Tick 0; Settle 0 Completes; Tick 500; RampWake;
   Settle 0 Completes; Settle 1 Completes].

(** * ApiUtils: the HTTP client of the test suite

    A shallow embedding of [ApiUtils] ([src/utils/api-utils.ts]), the client
    that [PerformanceUtils] is constructed with: the request history kept by
    the response interceptor, [getPerformanceStats], [validateResponseTime],
    [healthCheck] and [waitForEndpoint].

    - The server and the network are inputs: each request is given a
      [reply], which says whether the promise of the request is fulfilled
      with a response or rejected, and after how many milliseconds.  Which
      status codes fulfil the promise is decided by the HTTP library and is
      left to the input.
    - The object [statusCodes] is a finite map from status codes to counts.
    - Headers, tokens, request bodies and the logger are left out. *)

Module ApiUtils.
(** An entry of [requestHistory] *)
Record RequestRecord : Type := mkRequestRecord {
  method : string;
  url : string;
  status : Z;
  duration : Z;
  timestamp : Z
}.

(** [this.requestHistory] and [Date.now()] *)
Record t : Type := mk {
  requestHistory : list RequestRecord;
  clock : Z
}.

(** What is read of an [AxiosResponse]: [response.status] and
    [response.config.url] *)
Record Response : Type := mkResponse {
  response_status : Z;
  response_url : string
}.

(** How one request settles. *)
Inductive reply : Type :=
| Responds (status : Z) (latency : Z)  (* fulfilled with a response *)
| Fails (latency : Z).                 (* rejected *)

(** Time passes; the clock never runs backwards. *)
Definition tick (d : Z) (a : t) : t :=
  if 0 <=? d then mk (requestHistory a) (clock a + d) else a.

(** [this.client.get(url, config)] through the two interceptors: the
    request interceptor stores [Date.now()] in [config.startTime], and the
    response interceptor pushes an entry on [requestHistory] when the
    request is fulfilled; when it is rejected the error is logged and
    thrown again. *)
Definition client_get (url : string) (rp : reply) (a : t) : option Response * t :=
  let startTime := clock a in
  match rp with
  | Responds status latency =>
      let a := tick latency a in
      let duration := clock a - (if startTime =? 0 then clock a else startTime) in
      (Some (mkResponse status url),
       mk (requestHistory a ++ [mkRequestRecord "get" url status duration (clock a)])
          (clock a))
  | Fails latency => (None, tick latency a)
  end.

Record Stats : Type := mkStats {
  totalRequests : Z;
  averageResponseTime : num;
  successRate : num;
  statusCodes : gmap Z Z
}.

(** [req.status >= 200 && req.status < 300] *)
Definition successful (req : RequestRecord) : bool :=
  (200 <=? status req) && (status req <? 300).

(** [statusCodes[req.status] = (statusCodes[req.status] || 0) + 1] *)
Definition countStatus (statusCodes : gmap Z Z) (req : RequestRecord) : gmap Z Z :=
  <[status req := or_else (statusCodes !! status req) 0 + 1]> statusCodes.

Definition getPerformanceStats (a : t) : Stats :=
  let totalRequests := Z.of_nat (length (requestHistory a)) in
  let successfulRequests :=
    Z.of_nat (length (List.filter successful (requestHistory a))) in
  let averageResponseTime :=
    if 0 <? totalRequests
    then ndiv (ofZ (foldl (fun sum req => sum + duration req) 0 (requestHistory a)))
           (ofZ totalRequests)
    else Fin 0 in
  let statusCodes := foldl countStatus ∅ (requestHistory a) in
  mkStats totalRequests averageResponseTime
    (if 0 <? totalRequests
     then nmul (ndiv (ofZ successfulRequests) (ofZ totalRequests)) (Fin 100)
     else Fin 0)
    statusCodes.

(** [validateResponseTime]: the duration is looked up in the history by
    the URL of the response and the present time. *)
Definition validateResponseTime (response : Response) (maxTime : Z) (a : t) : bool :=
  let duration :=
    or_else
      (duration <$>
         find (fun req => String.eqb (url req) (response_url response)
                          && (timestamp req =? clock a))
           (requestHistory a)) 0 in
  duration <=? maxTime.

(** An entry of [details] *)
Record Detail : Type := mkDetail {
  endpoint : string;
  detail_status : Z;
  responseTime : Z
}.

(** The loop of [healthCheck] over the endpoints; [replies] says how the
    successive requests settle. *)
Fixpoint healthLoop (endpoints : list string) (replies : list reply)
    (details : list Detail) (healthy : bool) (a : t)
  : promise (bool * list Detail * list reply * t) :=
  match endpoints with
  | [] => Fulfilled (healthy, details, replies, a)
  | endpoint :: endpoints' =>
      match replies with
      | [] => Pending
      | rp :: replies' =>
          let startTime := clock a in
          let '(res, a) := client_get endpoint rp a in
          match res with
          | Some response =>
              let responseTime := clock a - startTime in
              let details :=
                details ++ [mkDetail endpoint (response_status response) responseTime] in
              let healthy :=
                if 400 <=? response_status response then false else healthy in
              healthLoop endpoints' replies' details healthy a
          | None =>
              healthLoop endpoints' replies' (details ++ [mkDetail endpoint 0 0])
                false a
          end
      end
  end.

Definition healthCheck (endpoints : list string) (replies : list reply) (a : t)
  : promise (bool * list Detail * list reply * t) :=
  healthLoop endpoints replies [] true a.

(** The delay a timer really waits at least, for a delay given in whole
    milliseconds. *)
Definition timeoutDelay (ms : Z) : Z :=
  if (1 <=? ms) && (ms <=? 2147483647) then ms else 1.

(** [await new Promise(resolve => setTimeout(resolve, interval))]: the
    callback runs [elapsed] milliseconds later, and not before the delay
    is over. *)
Definition sleep (interval elapsed : Z) (a : t) : t :=
  tick (Z.max elapsed (timeoutDelay interval)) a.

(** The loop of [waitForEndpoint]; [replies] says how the successive
    requests settle and [sleeps] how long the successive timeouts take. *)
Fixpoint waitLoop (url : string) (timeout interval startTime : Z)
    (replies : list reply) (sleeps : list Z) (a : t) {struct replies}
  : promise (bool * list reply * list Z * t) :=
  if clock a - startTime <? timeout then
    match replies with
    | [] => Pending
    | rp :: replies' =>
        let '(res, a) := client_get url rp a in
        match res with
        | Some _ => Fulfilled (true, replies', sleeps, a)
        | None =>
            match sleeps with
            | [] => Pending
            | elapsed :: sleeps' =>
                waitLoop url timeout interval startTime replies' sleeps'
                  (sleep interval elapsed a)
            end
        end
    end
  else Fulfilled (false, replies, sleeps, a).

Definition waitForEndpoint (url : string) (timeout interval : Z)
    (replies : list reply) (sleeps : list Z) (a : t)
  : promise (bool * list reply * list Z * t) :=
  let startTime := clock a in
  waitLoop url timeout interval startTime replies sleeps a.

(** A fresh [ApiUtils] at time [now]. *)
Definition new (now : Z) : t := mk [] now.
End ApiUtils.

(** ** Ghost definitions for the client *)

(** The requests of the history that were answered with [code]. *)
Definition answeredWith (code : Z) (history : list ApiUtils.RequestRecord) : Z :=
  Z.of_nat (length (List.filter (fun req => ApiUtils.status req =? code) history)).

(** The sum of the counts of a [statusCodes] object. *)
Definition sumCounts (statusCodes : gmap Z Z) : Z :=
  map_fold (fun _ count sum => count + sum) 0 statusCodes.

(** Whether a reply makes [healthCheck] keep [healthy]. *)
Definition fine (rp : ApiUtils.reply) : bool :=
  match rp with
  | ApiUtils.Responds status _ => status <? 400
  | ApiUtils.Fails _ => false
  end.

(** The status code of the response, for a request that was answered. *)
Definition answerOf (rp : ApiUtils.reply) : option Z :=
  match rp with
  | ApiUtils.Responds status _ => Some status
  | ApiUtils.Fails _ => None
  end.

(** The entries of a history are stamped with clock readings of the past,
    and their durations are not negative. *)
Definition stamped (a : ApiUtils.t) : Prop :=
  Forall (fun req => ApiUtils.timestamp req <= ApiUtils.clock a /\
                     0 <= ApiUtils.duration req)
    (ApiUtils.requestHistory a).

(** Three endpoints of which the second one is down. *)
Definition health_replies : list ApiUtils.reply :=
  [ApiUtils.Responds 200 12; ApiUtils.Fails 5000; ApiUtils.Responds 204 3].

(** An endpoint that answers at the third request. *)
Definition wait_replies : list ApiUtils.reply :=
  [ApiUtils.Fails 10; ApiUtils.Fails 10; ApiUtils.Responds 200 10].

(** * Properties *)

(** Unfold the loop of the actor and split on its tests: the deadline at the
    head of the loop, how the call settled, whether there is a think time. *)
Ltac actor_loop :=
  unfold simulateUser_loop, simulateUser_enter; destruct (Qltb _ _); simpl.

Ltac actor_settled o thinkTime :=
  unfold simulateUser_settled, simulateUser_loop, simulateUser_enter;
  destruct o; destruct (0 <? thinkTime); simpl;
  try destruct (Qltb _ _); simpl.

(** A conjunction whose second part is proved from the first. *)
Lemma conj_with (P Q : Prop) : P -> (P -> Q) -> P /\ Q.
Proof. auto. Defined.

(** ** Numbers *)

Lemma Qltb_lt (x y : Q) : Qltb x y = true <-> (x < y)%Q.
Proof.
  unfold Qltb. rewrite negb_true_iff. split.
  - intros H. apply Qnot_le_lt. intros Hle.
    apply Qle_bool_iff in Hle. congruence.
  - intros H. destruct (Qle_bool y x) eqn:E; [|done].
    apply Qle_bool_iff in E. exfalso. apply (Qlt_not_le _ _ H E).
Qed.

Lemma Qltb_ge (x y : Q) : Qltb x y = false <-> (y <= x)%Q.
Proof.
  unfold Qltb. rewrite negb_false_iff. apply Qle_bool_iff.
Qed.

(** ** The event loop *)

Section EventLoopFacts.
Context {St : Type}.
Variable step : event -> St -> St.
Variable joined : St -> bool.

Lemma awaitAll_run tr s tr' s' :
  awaitAll step joined tr s = Fulfilled (tr', s') ->
  exists pre, tr = pre ++ tr' /\ s' = run step pre s /\ joined s' = true.
Proof.
  revert s. induction tr as [|e tr IH]; intros s; simpl.
  - destruct (joined s) eqn:J; [|done].
    intros [= <- <-]. by exists [].
  - destruct (joined s) eqn:J.
    + intros [= <- <-]. by exists [].
    + intros H. destruct (IH _ H) as (pre & -> & -> & J').
      by exists (e :: pre).
Qed.

Lemma awaitAll_not_rejected tr s reason :
  awaitAll step joined tr s <> Rejected reason.
Proof.
  revert s. induction tr as [|e tr IH]; intros s; simpl;
    destruct (joined s); done.
Qed.

(** A reflexive and transitive relation that every turn respects holds
    between the two ends of a run. *)
Lemma run_preserves (R : St -> St -> Prop) :
  (forall s, R s s) ->
  (forall s1 s2 s3, R s1 s2 -> R s2 s3 -> R s1 s3) ->
  (forall e s, R s (step e s)) ->
  forall tr s, R s (run step tr s).
Proof.
  intros Hrefl Htrans Hstep tr. induction tr as [|e tr IH]; intros s; simpl.
  - apply Hrefl.
  - eapply Htrans; [apply Hstep | apply IH].
Qed.

Lemma run_invariant (P : St -> Prop) :
  (forall e s, P s -> P (step e s)) ->
  forall tr s, P s -> P (run step tr s).
Proof.
  intros Hstep tr. induction tr as [|e tr IH]; intros s Hs; simpl; auto.
Qed.
End EventLoopFacts.

(** ** What a turn of the event loop leaves alone *)


Lemma frame_refl s : frame s s.
Proof. unfold frame. repeat split; auto; lia. Qed.

Lemma frame_trans s1 s2 s3 : frame s1 s2 -> frame s2 s3 -> frame s1 s3.
Proof. unfold frame. intros (?&?&?&?) (?&?&?&?). repeat split; try congruence. lia. Qed.

Lemma tick_frame d s : frame s (tick d s).
Proof.
  unfold tick, frame. destruct (Z.leb_spec 0 d); simpl; repeat split; auto; lia.
Qed.

Lemma simulateUser_loop_frame endTime i s : frame s (simulateUser_loop endTime i s).
Proof.
  unfold simulateUser_loop, simulateUser_enter, frame.
  destruct (Qltb _ _); simpl; rewrite length_insert; repeat split; auto; lia.
Qed.

Lemma simulateUser_settled_frame thinkTime endTime i startTime o s :
  frame s (simulateUser_settled thinkTime endTime i startTime o s).
Proof.
  unfold simulateUser_settled.
  destruct (0 <? thinkTime).
  - unfold frame. destruct o; simpl; rewrite length_insert; repeat split; auto; lia.
  - eapply frame_trans; [|apply simulateUser_loop_frame].
    unfold frame. destruct o; simpl; repeat split; auto; lia.
Qed.

Lemma monitor_frame t s : frame s (monitor t s).
Proof. unfold monitor, frame. simpl. repeat split; auto; lia. Qed.

Lemma handle_frame thinkTime endTime e s : frame s (handle thinkTime endTime e s).
Proof.
  destruct e as [d|i o|i| |]; simpl.
  - apply tick_frame.
  - destruct (userPromises s !! i) as [[st|w|]|]; try apply frame_refl.
    apply simulateUser_settled_frame.
  - destruct (userPromises s !! i) as [[st|w|]|]; try apply frame_refl.
    destruct (Qle_bool _ _); [apply simulateUser_loop_frame | apply frame_refl].
  - destruct (monitoringIntervalId s) as [t|]; [|apply frame_refl].
    destruct (Qle_bool _ _); [apply monitor_frame | apply frame_refl].
  - apply frame_refl.
Qed.

Lemma run_frame thinkTime endTime tr s :
  frame s (run (handle thinkTime endTime) tr s).
Proof.
  apply (run_preserves (handle thinkTime endTime) frame);
    eauto using frame_refl, frame_trans, handle_frame.
Qed.

Lemma passTime_frame tr s tr' s' : passTime tr s = (tr', s') -> frame s s'.
Proof.
  unfold passTime. destruct tr as [|[d| | | |] tr0]; intros [= <- <-];
    try apply frame_refl. apply tick_frame.
Qed.

(** ** Starting the actors *)

Lemma simulateUser_facts endTime s :
  let s' := simulateUser endTime s in
  clock s' = clock s /\ metrics s' = metrics s /\
  monitoringData s' = monitoringData s /\
  monitoringIntervalId s' = monitoringIntervalId s /\
  length (userPromises s') = S (length (userPromises s)).
Proof.
  unfold simulateUser, simulateUser_enter.
  destruct (Qltb _ _); simpl; rewrite length_app; simpl; repeat split; lia.
Qed.

Lemma launchAll_facts endTime users s :
  let s' := launchAll endTime users s in
  clock s' = clock s /\ metrics s' = metrics s /\
  monitoringData s' = monitoringData s /\
  monitoringIntervalId s' = monitoringIntervalId s /\
  length (userPromises s') = Z.to_nat users.
Proof.
  unfold launchAll. induction (Z.to_nat users) as [|n IH]; simpl.
  - done.
  - destruct IH as (Hc & Hm & Hd & Hi & Hl).
    destruct (simulateUser_facts endTime
                (Nat.iter n (simulateUser endTime) (setUserPromises [] s)))
      as (Hc' & Hm' & Hd' & Hi' & Hl').
    repeat split; congruence.
Qed.


(** ** Every call is accounted for *)

Lemma pendingCalls_app l1 l2 :
  pendingCalls (l1 ++ l2) = pendingCalls l1 + pendingCalls l2.
Proof. induction l1 as [|a l1 IH]; simpl; lia. Qed.

Lemma pendingCalls_insert l i a b :
  l !! i = Some a ->
  pendingCalls (<[i := b]> l)
  = pendingCalls l - (if inFlight a then 1 else 0) + (if inFlight b then 1 else 0).
Proof.
  revert i. induction l as [|x l IH]; intros [|i] Hi; simpl in *; try done.
  - injection Hi as ->. lia.
  - rewrite (IH _ Hi). lia.
Qed.

Lemma simulateUser_loop_promises endTime i s :
  userPromises (simulateUser_loop endTime i s)
  = <[i := if Qltb (inject_Z (clock s)) endTime then InFlight (clock s) else Exited]>
      (userPromises s).
Proof.
  by actor_loop.
Qed.

Lemma simulateUser_loop_unrecorded endTime i s a :
  userPromises s !! i = Some a ->
  unrecorded (simulateUser_loop endTime i s)
  = unrecorded s + (if inFlight a then 1 else 0).
Proof.
  intros Hi. unfold unrecorded.
  rewrite simulateUser_loop_promises, (pendingCalls_insert _ _ _ _ Hi).
  actor_loop; lia.
Qed.

Lemma simulateUser_settled_unrecorded thinkTime endTime i startTime o s :
  userPromises s !! i = Some (InFlight startTime) ->
  unrecorded (simulateUser_settled thinkTime endTime i startTime o s) = unrecorded s.
Proof.
  intros Hi. unfold simulateUser_settled.
  destruct (0 <? thinkTime).
  - unfold unrecorded. destruct o; simpl;
      rewrite (pendingCalls_insert _ _ _ _ Hi); simpl;
      rewrite ?length_app; simpl; lia.
  - destruct o;
      (rewrite (simulateUser_loop_unrecorded _ _ _ (InFlight startTime)); [|done]);
      unfold unrecorded; simpl; rewrite ?length_app; simpl; lia.
Qed.

(** A turn of the event loop keeps the account: a call that settles leaves
    the calls in flight and enters the latencies or the failure counter, once. *)
Lemma handle_unrecorded thinkTime endTime e s :
  unrecorded (handle thinkTime endTime e s) = unrecorded s.
Proof.
  destruct e as [d|i o|i| |]; simpl.
  - unfold tick. by destruct (0 <=? d).
  - destruct (userPromises s !! i) as [[st|w|]|] eqn:Hi; try done.
    by apply simulateUser_settled_unrecorded.
  - destruct (userPromises s !! i) as [[st|w|]|] eqn:Hi; try done.
    destruct (Qle_bool _ _); [|done].
    by rewrite (simulateUser_loop_unrecorded _ _ _ (Thinking w)), Z.add_0_r.
  - destruct (monitoringIntervalId s) as [t|]; [|done].
    by destruct (Qle_bool _ _).
  - done.
Qed.

Lemma simulateUser_unrecorded endTime s :
  unrecorded (simulateUser endTime s) = unrecorded s.
Proof.
  unfold simulateUser, simulateUser_enter, unrecorded.
  destruct (Qltb _ _); simpl; rewrite pendingCalls_app; simpl; lia.
Qed.

Lemma launchAll_unrecorded endTime users s :
  unrecorded (launchAll endTime users s)
  = unrecorded s + pendingCalls (userPromises s).
Proof.
  unfold launchAll. induction (Z.to_nat users) as [|n IH]; simpl.
  - unfold unrecorded. simpl. lia.
  - by rewrite simulateUser_unrecorded.
Qed.

Lemma allExited_pendingCalls s : allExited s = true -> pendingCalls (userPromises s) = 0.
Proof.
  unfold allExited. induction (userPromises s) as [|a l IH]; simpl; [done|].
  intros [Ha Hl]%andb_true_iff. destruct a; try done. simpl. by rewrite IH.
Qed.


(** ** What a turn of the event loop keeps *)

Lemma progress_refl s : progress s s.
Proof. unfold progress. split_and!; auto; lia. Qed.

Lemma progress_trans s1 s2 s3 : progress s1 s2 -> progress s2 s3 -> progress s1 s3.
Proof. unfold progress. intros (?&?&?&?) (?&?&?&?). split_and!; try congruence; lia. Qed.

Lemma handle_errors thinkTime endTime e s :
  Metrics.errors (metrics s) <= Metrics.errors (metrics (handle thinkTime endTime e s)).
Proof.
  destruct e as [d|i o|i| |]; simpl.
  - unfold tick. destruct (0 <=? d); simpl; lia.
  - destruct (userPromises s !! i) as [[st|w|]|]; try lia.
    actor_settled o thinkTime; lia.
  - destruct (userPromises s !! i) as [[st|w|]|]; try lia.
    destruct (Qle_bool _ _); [|lia].
    actor_loop; lia.
  - destruct (monitoringIntervalId s) as [t|]; [|lia].
    destruct (Qle_bool _ _); simpl; lia.
  - lia.
Qed.

Lemma handle_progress thinkTime endTime e s :
  progress s (handle thinkTime endTime e s).
Proof.
  destruct (handle_frame thinkTime endTime e s) as (Hc & Hs & _ & _).
  split_and!; auto using handle_errors, handle_unrecorded.
Qed.

Lemma run_progress thinkTime endTime tr s :
  progress s (run (handle thinkTime endTime) tr s).
Proof.
  apply (run_preserves (handle thinkTime endTime) progress);
    eauto using progress_refl, progress_trans, handle_progress.
Qed.


(** ** stressTest *)

Lemma stressLoop_Steps fuel options endTime :
  forall users results log tr s results' log' tr' s',
    stressLoop fuel options endTime users results log tr s
      = Fulfilled (results', log', tr', s') ->
    exists new newlog,
      results' = results ++ new /\ log' = log ++ newlog /\
      Steps options endTime users new newlog s' /\
      clock s <= clock s' /\
      Metrics.startTime (metrics s') = Metrics.startTime (metrics s).
Proof.
  induction fuel as [|fuel IH]; intros users results log tr s results' log' tr' s';
    simpl; [done|].
  destruct (Z.leb_spec users (StressOptions.maxUsers options)) as [HM|HM].
  2:{ intros [= <- <- <- <-]. exists [], []. rewrite !app_nil_r.
      repeat split; auto with zarith. by apply steps_maxUsers. }
  destruct (passTime tr s) as [tr1 s1] eqn:Hpass.
  apply passTime_frame in Hpass. destruct Hpass as (Hc1 & Hs1 & _ & _).
  destruct (Qltb (inject_Z (clock s1)) endTime) eqn:Htime.
  2:{ intros [= <- <- <- <-]. exists [], []. rewrite !app_nil_r.
      repeat split; auto. apply steps_maxDuration; [done|]. by apply Qltb_ge. }
  apply Qltb_lt in Htime.
  set (stepEndTime := (inject_Z (clock s1) + _)%Q).
  set (s2 := launchAll stepEndTime users (setMetrics (resetStep (metrics s1)) s1)).
  destruct (launchAll_facts stepEndTime users (setMetrics (resetStep (metrics s1)) s1))
    as (Hc2 & Hm2 & _ & _ & Hl2). fold s2 in Hc2, Hm2, Hl2. simpl in Hc2, Hm2.
  destruct (awaitAll (handle 0 stepEndTime) allExited tr1 s2) as [|[tr3 s3]|] eqn:Hawait;
    simpl; try done.
  apply awaitAll_run in Hawait. destruct Hawait as (pre & -> & Hs3 & Hjoined).
  pose proof (run_frame 0 stepEndTime pre s2) as (Hc3 & Hst3 & _ & Hl3).
  rewrite <- Hs3 in Hc3, Hst3, Hl3.
  set (r := Sample.mk users _ _). set (p := mkPhaseLog _ _ _ _ _ _ _).
  assert (Hcalls : invoked s3 - invoked s1
                   = Z.of_nat (length (Metrics.responseTimes (metrics s3)))
                     + Metrics.errors (metrics s3)).
  { destruct (run_progress 0 stepEndTime pre s2) as (_ & _ & _ & Hun).
    rewrite <- Hs3 in Hun. unfold s2 in Hun.
    rewrite launchAll_unrecorded in Hun.
    apply allExited_pendingCalls in Hjoined.
    unfold unrecorded in Hun. rewrite Hjoined in Hun. simpl in Hun.
    unfold pendingCalls in Hun. simpl in Hun. lia. }
  assert (Hstep : stepOf endTime users r p).
  { unfold stepOf, r, p; simpl. split_and!; auto; try lia; congruence. }
  assert (Hstart : Metrics.startTime (metrics s3) = Metrics.startTime (metrics s)).
  { rewrite Hst3, Hm2. simpl. done. }
  destruct (nge (errorPercentage (Metrics.responseTimes (metrics s3))
                   (Metrics.errors (metrics s3)))
              (Fin (StressOptions.errorThreshold options))) eqn:Hthr.
  - intros [= <- <- <- <-]. exists [r], [p].
    repeat split; auto; try lia. by apply steps_threshold.
  - intros H. apply IH in H.
    destruct H as (new & newlog & -> & -> & Hsteps & Hc4 & Hst4).
    exists (r :: new), (p :: newlog). rewrite <- !app_assoc. simpl.
    repeat split; auto; try lia; try congruence.
    apply steps_next; auto.
Qed.

(** The concurrencies of the steps: [users], [users + stepSize], ... *)
Lemma Steps_users options endTime users results log s :
  Steps options endTime users results log s ->
  forall i r, results !! i = Some r ->
    Sample.users r = users + Z.of_nat i * StressOptions.stepSize options.
Proof.
  induction 1 as [users s HM|users s HM Ht|users r p s HM Hstep Hthr Hj
                 |users r p results log s HM Hstep Hthr Hj Hrest IH];
    intros i x Hi.
  - done.
  - done.
  - destruct i as [|i]; [|done]. injection Hi as <-.
    destruct Hstep as (-> & _). lia.
  - destruct i as [|i]; simpl in Hi.
    + injection Hi as <-. destruct Hstep as (-> & _). lia.
    + rewrite (IH _ _ Hi). lia.
Qed.

Lemma Steps_log options endTime users results log s :
  Steps options endTime users results log s ->
  Forall2 (fun r p => exists u, u <= StressOptions.maxUsers options /\
                                stepOf endTime u r p /\ joinTime p <= clock s)
    results log.
Proof.
  induction 1; repeat constructor; eauto.
  exists users. split_and!; auto. lia.
Qed.




Lemma stressTest_Steps fuel options tr s r log tr' s' :
  stressTest fuel options tr s = Fulfilled (r, log, tr', s') ->
  let endTime :=
    (inject_Z (Metrics.startTime (metrics s'))
       + StressOptions.maxDuration options * 1000)%Q in
  Steps options endTime (StressOptions.stepSize options)
    (StressTestResult.results r) log s' /\
  Metrics.endTime (metrics s') = clock s' /\
  r = generateStressTestResult (StressTestResult.results r) s'.
Proof.
  unfold stressTest.
  set (s0 := setMetrics _ (resetMetrics s)).
  destruct (stressLoop fuel options _ _ [] [] tr s0)
    as [|[[[results l] tr1] s1]|] eqn:Hloop; simpl; try done.
  intros [= <- <- <- <-]. simpl.
  apply stressLoop_Steps in Hloop.
  destruct Hloop as (new & newlog & -> & -> & Hsteps & Hc & Hst).
  simpl in *. rewrite Hst. simpl.
  repeat split; auto.
  clear -Hsteps.
  induction Hsteps; [by apply steps_maxUsers|by apply steps_maxDuration
                    |by apply steps_threshold|by apply steps_next].
Qed.

(** ** The breaking point *)

Lemma find_first {A} (f : A -> bool) (pre : list A) (x : A) (post : list A) :
  Forall (fun y => f y = false) pre -> f x = true ->
  find f (pre ++ x :: post) = Some x.
Proof.
  induction 1 as [|y pre Hy Hpre IH]; simpl; intros Hx.
  - by rewrite Hx.
  - rewrite Hy. auto.
Qed.

Lemma find_none {A} (f : A -> bool) (l : list A) :
  Forall (fun y => f y = false) l -> find f l = None.
Proof. induction 1 as [|y l Hy Hl IH]; simpl; [done|]. by rewrite Hy. Qed.

(** Claim C1.  In every stress run the reported [breakingPoint] is the
    concurrency of the first step of [results] whose error rate is at least
    5, whatever [errorThreshold] the caller passed; when no step reached 5
    and at least one step ran, it is the concurrency of the last step.  The
    breaking point is computed from [results] alone. *)
Theorem breakingPoint_is_first_broken_step
    fuel options tr s r log tr' s' :
  stressTest fuel options tr s = Fulfilled (r, log, tr', s') ->
  (forall pre x post,
      StressTestResult.results r = pre ++ x :: post ->
      Forall (fun y => nge (Sample.errorRate y) (Fin 5) = false) pre ->
      nge (Sample.errorRate x) (Fin 5) = true ->
      StressTestResult.breakingPoint r = Sample.users x) /\
  (Forall (fun y => nge (Sample.errorRate y) (Fin 5) = false)
     (StressTestResult.results r) ->
   StressTestResult.results r <> [] ->
   exists x, last (StressTestResult.results r) = Some x /\
             StressTestResult.breakingPoint r = Sample.users x) /\
  (forall s0,
     StressTestResult.breakingPoint r
     = StressTestResult.breakingPoint
         (generateStressTestResult (StressTestResult.results r) s0)).
Proof.
  intros Hrun. apply stressTest_Steps in Hrun. destruct Hrun as (Hsteps & _ & Hr).
  pose proof (Steps_users _ _ _ _ _ _ Hsteps) as Husers.
  set (results := StressTestResult.results r) in *.
  assert (Hbp : StressTestResult.breakingPoint r =
                or_else (Sample.users <$> find broken results)
                  (or_else (Sample.users <$> last results) 0)).
  { rewrite Hr. reflexivity. }
  split_and!; [| |by rewrite Hr].
  - intros pre x post Hres Hpre Hx.
    rewrite Hbp, Hres, (find_first broken) by done. simpl.
    destruct (Z.eqb_spec (Sample.users x) 0) as [Hzero|]; [|done].
    (* a concurrency of 0 means a step size of 0: every step has 0 users *)
    rewrite <- Hres.
    assert (HS : StressOptions.stepSize options = 0).
    { specialize (Husers (length pre) x). rewrite Hres in Husers.
      rewrite lookup_app_r, Nat.sub_diag in Husers by lia.
      specialize (Husers eq_refl). nia. }
    rewrite Hzero. destruct (last results) as [y|] eqn:Hlast; simpl; [|done].
    apply last_Some in Hlast. destruct Hlast as (l' & Hl').
    specialize (Husers (length l') y). rewrite Hl' in Husers.
    rewrite lookup_app_r, Nat.sub_diag in Husers by lia.
    specialize (Husers eq_refl). rewrite HS in Husers.
    destruct (Z.eqb_spec (Sample.users y) 0); lia.
  - intros Hnone Hne.
    rewrite Hbp, (find_none broken) by done. simpl.
    destruct (last results) as [y|] eqn:Hlast.
    + exists y. split; [done|]. simpl.
      destruct (Z.eqb_spec (Sample.users y) 0); lia.
    + apply last_None in Hlast. done.
Qed.

(** One turn of the loop. *)
Lemma stressLoop_unfold fuel options endTime users results log tr s :
  stressLoop (S fuel) options endTime users results log tr s
  = if users <=? StressOptions.maxUsers options then
      let '(tr, s) := passTime tr s in
      if Qltb (inject_Z (clock s)) endTime then
        let s := setMetrics (resetStep (metrics s)) s in
        let calls0 := invoked s in
        let stepStartTime := clock s in
        let stepEndTime :=
          (inject_Z stepStartTime + StressOptions.stepDuration options * 1000)%Q in
        let s := launchAll stepEndTime users s in
        '(tr, s) ← awaitAll (handle 0 stepEndTime) allExited tr s;
        let avgResponseTime := average (Metrics.responseTimes (metrics s)) in
        let errorRate :=
          errorPercentage (Metrics.responseTimes (metrics s))
            (Metrics.errors (metrics s)) in
        let results := results ++ [Sample.mk users avgResponseTime errorRate] in
        let log := log ++
          [mkPhaseLog stepStartTime stepEndTime (clock s)
             (length (userPromises s)) (Metrics.responseTimes (metrics s))
             (Metrics.errors (metrics s)) (invoked s - calls0)] in
        if nge errorRate (Fin (StressOptions.errorThreshold options))
        then Fulfilled (results, log, tr, s)
        else stressLoop fuel options endTime
               (users + StressOptions.stepSize options) results log tr s
      else Fulfilled (results, log, tr, s)
    else Fulfilled (results, log, tr, s).
Proof. reflexivity. Qed.

(** Once the fuel exceeds the number of steps that [maxUsers] allows, more
    fuel changes nothing: a run with a positive step size is [Pending] only
    because its events ended. *)
Lemma stressLoop_enough_fuel options endTime fuel :
  0 < StressOptions.stepSize options ->
  forall users results log tr s,
    Z.max 0 ((StressOptions.maxUsers options - users)
               / StressOptions.stepSize options + 1) < Z.of_nat fuel ->
    stressLoop (S fuel) options endTime users results log tr s
    = stressLoop fuel options endTime users results log tr s.
Proof.
  intros HS. induction fuel as [|fuel IH]; intros users results log tr s Hfuel;
    [lia|].
  rewrite (stressLoop_unfold (S fuel)), (stressLoop_unfold fuel).
  destruct (Z.leb_spec users (StressOptions.maxUsers options)) as [HM|HM]; [|done].
  destruct (passTime tr s) as [tr1 s1].
  destruct (Qltb _ _); [|done]. simpl.
  destruct (awaitAll _ _ _ _) as [|[tr3 s3]|]; simpl; try done.
  destruct (nge _ _); [done|].
  apply IH.
  assert (Hdiv : (StressOptions.maxUsers options - users)
                   / StressOptions.stepSize options
                 = (StressOptions.maxUsers options
                      - (users + StressOptions.stepSize options))
                     / StressOptions.stepSize options + 1).
  { rewrite <- Z.div_add by lia. f_equal. lia. }
  assert (0 <= (StressOptions.maxUsers options - users)
                 / StressOptions.stepSize options) by (apply Z.div_pos; lia).
  lia.
Qed.






Lemma breakingPoint_is_first_broken_step_witness :
  exists r log tr' s',
    stressTest 10 stress_options stress_events (newEngine 0)
      = Fulfilled (r, log, tr', s') /\
    StressTestResult.breakingPoint r = 10.
Proof.
  do 4 eexists.
  apply conj_with; [vm_compute; reflexivity|].
  intros Hrun.
  pose proof (breakingPoint_is_first_broken_step _ _ _ _ _ _ _ _ Hrun) as H.
  refine (proj1 H [_] _ _ eq_refl _ _).
  - repeat constructor.
  - reflexivity.
Defined.

(** In every step of a stress run each call of [testFunction] is recorded
    once: as a latency or in the failure counter of the step. *)
Lemma stressTest_accounts_every_call fuel options tr s r log tr' s' :
  stressTest fuel options tr s = Fulfilled (r, log, tr', s') ->
  Forall (fun p => calls p = Z.of_nat (length (latencies p)) + failures p) log.
Proof.
  intros Hrun. apply stressTest_Steps in Hrun. destruct Hrun as (Hsteps & _).
  apply Steps_log in Hsteps.
  apply Forall_forall. intros p Hp. apply list_elem_of_lookup in Hp.
  destruct Hp as (i & Hi).
  destruct (Forall2_lookup_r _ _ _ _ _ Hsteps Hi) as (x & _ & u & _ & Hstep & _).
  by destruct Hstep as (_ & _ & _ & _ & _ & _ & ?).
Qed.

(** ** The virtual actor *)

(** An event moves no actor but its target. *)
Lemma handle_other thinkTime endTime e s j :
  target e <> Some j ->
  userPromises (handle thinkTime endTime e s) !! j = userPromises s !! j.
Proof.
  intros Hj. destruct e as [d|i o|i| |]; simpl in *.
  - unfold tick. by destruct (0 <=? d).
  - assert (i <> j) by congruence.
    destruct (userPromises s !! i) as [[st|w|]|] eqn:Hi; try done.
    unfold simulateUser_settled. destruct (0 <? thinkTime).
    + destruct o; simpl; by rewrite list_lookup_insert_ne.
    + rewrite simulateUser_loop_promises.
      rewrite list_lookup_insert_ne by done. by destruct o.
  - assert (i <> j) by congruence.
    destruct (userPromises s !! i) as [[st|w|]|] eqn:Hi; try done.
    destruct (Qle_bool _ _); [|done].
    rewrite simulateUser_loop_promises. by rewrite list_lookup_insert_ne.
  - destruct (monitoringIntervalId s) as [t|]; [|done].
    by destruct (Qle_bool _ _).
  - done.
Qed.

(** Claim C6.  When the call awaited by an actor throws, the catch branch of
    that actor counts one failure and records no latency; the actor is not
    terminated by it: it goes on to its think time, or straight back to the
    head of its loop where only the deadline decides; no other actor is
    touched and the promise the controller awaits is not rejected.  The
    deadline is looked at only at the head of the loop: whatever the clock,
    no event but its own settlement moves an actor whose call is in flight;
    and at the head of the loop the actor starts another call when the clock
    is before the deadline and returns as soon as it is not. *)
Theorem actor_failure_is_isolated thinkTime endTime s i startTime :
  userPromises s !! i = Some (InFlight startTime) ->
  let s' := handle thinkTime endTime (Settle i Throws) s in
  Metrics.errors (metrics s') = Metrics.errors (metrics s) + 1 /\
  Metrics.responseTimes (metrics s') = Metrics.responseTimes (metrics s) /\
  (forall o,
     userPromises (handle thinkTime endTime (Settle i o) s) !! i =
       Some (if 0 <? thinkTime
             then Thinking (inject_Z (clock s) + timerDelay (inject_Z thinkTime))
             else if Qltb (inject_Z (clock s)) endTime
                  then InFlight (clock s) else Exited)) /\
  (forall j, j <> i -> userPromises s' !! j = userPromises s !! j) /\
  (forall tr reason,
     awaitAll (handle thinkTime endTime) allExited tr s' <> Rejected reason) /\
  (forall e, target e <> Some i \/ (exists j, e = Wake j) ->
     userPromises (handle thinkTime endTime e s) !! i = Some (InFlight startTime)) /\
  (forall e a, userPromises (handle thinkTime endTime e s) !! i = Some a ->
     a <> InFlight startTime ->
     exists o, e = Settle i o) /\
  (forall j wakeAt,
     userPromises s !! j = Some (Thinking wakeAt) ->
     (wakeAt <= inject_Z (clock s))%Q ->
     userPromises (handle thinkTime endTime (Wake j) s) !! j =
       Some (if Qltb (inject_Z (clock s)) endTime
             then InFlight (clock s) else Exited)).
Proof.
  intros Hi s'.
  assert (Hlt : (i < length (userPromises s))%nat) by (by eapply lookup_lt_Some).
  assert (Hstay : forall e, target e <> Some i \/ (exists j, e = Wake j) ->
     userPromises (handle thinkTime endTime e s) !! i = Some (InFlight startTime)).
  { intros e [He|(j & ->)].
    - by rewrite handle_other.
    - destruct (decide (j = i)) as [->|Hne].
      + simpl. by rewrite Hi.
      + rewrite handle_other; [done|]. simpl. congruence. }
  split_and!.
  - subst s'. simpl. rewrite Hi. unfold simulateUser_settled.
    destruct (0 <? thinkTime); [done|].
    by actor_loop.
  - subst s'. simpl. rewrite Hi. unfold simulateUser_settled.
    destruct (0 <? thinkTime); [done|].
    by actor_loop.
  - intros o. simpl. rewrite Hi. unfold simulateUser_settled.
    destruct (0 <? thinkTime); simpl.
    + destruct o; simpl; by rewrite list_lookup_insert_eq.
    + rewrite simulateUser_loop_promises.
      destruct o; simpl; by rewrite list_lookup_insert_eq.
  - intros j Hj. subst s'. apply handle_other. simpl. congruence.
  - intros tr reason. apply awaitAll_not_rejected.
  - exact Hstay.
  - intros e a Ha Hne.
    destruct e as [d|j o|j| |].
    + rewrite Hstay in Ha by (left; done). congruence.
    + destruct (decide (j = i)) as [->|Hji]; [by exists o|].
      rewrite Hstay in Ha by (left; simpl; congruence). congruence.
    + rewrite Hstay in Ha by (right; by exists j). congruence.
    + rewrite Hstay in Ha by (left; done). congruence.
    + rewrite Hstay in Ha by (left; done). congruence.
  - intros j wakeAt Hj Hw. simpl. rewrite Hj.
    apply Qle_bool_iff in Hw. rewrite Hw.
    rewrite simulateUser_loop_promises.
    apply list_lookup_insert_eq. by eapply lookup_lt_Some.
Qed.

(** ** runPhase *)

Lemma privateErrors_app l1 l2 :
  privateErrors (l1 ++ l2) = privateErrors l1 + privateErrors l2.
Proof.
  unfold privateErrors. rewrite fmap_app.
  induction (snd <$> l1) as [|a l IH]; simpl; lia.
Qed.

Lemma privateErrors_cons x l : privateErrors (x :: l) = snd x + privateErrors l.
Proof. reflexivity. Qed.

Lemma privateErrors_insert l i a b :
  l !! i = Some a ->
  privateErrors (<[i := b]> l) = privateErrors l - snd a + snd b.
Proof.
  revert i. induction l as [|x l IH]; intros [|i] Hi; try done.
  - injection Hi as ->. unfold privateErrors. cbn. lia.
  - change (<[S i:=b]> (x :: l)) with (x :: <[i:=b]> l).
    rewrite !privateErrors_cons, (IH _ Hi). lia.
Qed.

Lemma pendingPhase_insert l i a b :
  l !! i = Some a ->
  pendingPhase (<[i := b]> l)
  = pendingPhase l - (if inFlight (fst a) then 1 else 0)
    + (if inFlight (fst b) then 1 else 0).
Proof.
  intros Hi. unfold pendingPhase. rewrite list_fmap_insert.
  apply pendingCalls_insert. by rewrite list_lookup_fmap, Hi.
Qed.

Lemma privateErrors_nonneg l :
  Forall (fun a : actor * Z => 0 <= snd a) l -> 0 <= privateErrors l.
Proof. unfold privateErrors. induction 1; cbn; lia. Qed.

Section PhaseFacts.
Variables (start calls0 : Z) (endTime : Q).

Lemma PhaseInv_settled i startTime errors o p :
  PhaseInv start calls0 endTime p ->
  phasePromises p !! i = Some (InFlight startTime, errors) ->
  PhaseInv start calls0 endTime
    (simulateUserPhase_settled endTime i startTime errors o p).
Proof.
  intros [Hnow Herr Hact Hlat Hcalls] Hi.
  pose proof (Forall_lookup_1 _ _ _ _ Hact Hi) as [Hst Hpos]. simpl in Hst, Hpos.
  unfold simulateUserPhase_settled, simulateUserPhase_enter.
  destruct o; simpl; destruct (Qltb (inject_Z (now p)) endTime) eqn:Ht;
    constructor; unfold setPhasePromises; simpl; try done.
  all: try (rewrite (privateErrors_insert _ _ _ _ Hi),
              (pendingPhase_insert _ _ _ _ Hi);
            rewrite ?length_app; simpl; lia).
  all: try (apply Forall_insert; [done|]; simpl; split; [|lia];
            first [lia | by apply Qltb_ge]).
  all: apply Forall_app; split; [done|]; apply Forall_singleton; lia.
Qed.

Lemma PhaseInv_handle e p :
  PhaseInv start calls0 endTime p ->
  PhaseInv start calls0 endTime (handlePhase endTime e p).
Proof.
  intros Hinv. destruct e as [d|i o|i| |]; simpl; try done.
  - destruct (Z.leb_spec 0 d); [|done].
    destruct Hinv as [Hnow Herr Hact Hlat Hcalls].
    split; simpl; try done; try lia.
    + eapply Forall_impl; [exact Hact|]. intros [a n]; simpl.
      destruct a; intros [Ha Hn]; (split; [|done]); try done; try lia.
      eapply Qle_trans; [exact Ha|]. rewrite <- Zle_Qle. lia.
    + eapply Forall_impl; [exact Hlat|]. simpl. lia.
  - destruct (phasePromises p !! i) as [[[st|w|] errors]|] eqn:Hi; try done.
    by apply PhaseInv_settled.
Qed.

Lemma PhaseInv_simulateUserPhase p :
  PhaseInv start calls0 endTime p ->
  PhaseInv start calls0 endTime (simulateUserPhase endTime p).
Proof.
  intros [Hnow Herr Hact Hlat Hcalls].
  unfold simulateUserPhase, simulateUserPhase_enter.
  destruct (Qltb (inject_Z (now p)) endTime) eqn:Ht;
    constructor; unfold setPhasePromises; simpl; try done.
  all: try (apply Forall_app; split; [done|]; apply Forall_singleton; simpl;
            split; [|lia]; first [lia | by apply Qltb_ge]).
  all: unfold pendingPhase; rewrite privateErrors_app, fmap_app, pendingCalls_app;
    unfold privateErrors; simpl; fold (privateErrors (phasePromises p));
    fold (pendingPhase (phasePromises p)); lia.
Qed.
End PhaseFacts.

Lemma simulateUserPhase_length endTime p :
  length (phasePromises (simulateUserPhase endTime p)) = S (length (phasePromises p)).
Proof.
  unfold simulateUserPhase, simulateUserPhase_enter.
  destruct (Qltb _ _); simpl; rewrite length_app; simpl; lia.
Qed.

Lemma handlePhase_length endTime e p :
  length (phasePromises (handlePhase endTime e p)) = length (phasePromises p).
Proof.
  destruct e as [d|i o|i| |]; simpl; try done.
  - by destruct (0 <=? d).
  - destruct (phasePromises p !! i) as [[[st|w|] errors]|]; try done.
    unfold simulateUserPhase_settled, simulateUserPhase_enter.
    destruct o; destruct (Qltb _ _); simpl; by rewrite length_insert.
Qed.

Lemma allExitedPhase_pending p :
  allExitedPhase p = true -> pendingPhase (phasePromises p) = 0.
Proof.
  unfold allExitedPhase, pendingPhase.
  induction (phasePromises p) as [|[a n] l IH]; simpl; [done|].
  intros [Ha Hl]%andb_true_iff. destruct a; try done. simpl.
  change (list_fmap _ _ fst l) with (fst <$> l). by rewrite IH.
Qed.

Lemma runPhase_phaseOf users duration tr s r l tr' s' :
  runPhase users duration tr s = Fulfilled (r, l, tr', s') ->
  phaseOf users duration s s' r l.
Proof.
  unfold runPhase.
  set (endTime := (inject_Z (clock s) + duration * 1000)%Q).
  set (p0 := mkPhase (clock s) (invoked s) [] 0 []).
  set (p1 := Nat.iter (Z.to_nat users) (simulateUserPhase endTime) p0).
  assert (H1 : PhaseInv (clock s) (invoked s) endTime p1
               /\ length (phasePromises p1) = Z.to_nat users).
  { unfold p1. induction (Z.to_nat users) as [|n [IH IHlen]]; simpl.
    - split; [|done]. unfold p0.
      constructor; simpl; try done; unfold privateErrors, pendingPhase; simpl; lia.
    - split; [by apply PhaseInv_simulateUserPhase|].
      by rewrite simulateUserPhase_length, IHlen. }
  destruct H1 as [Hinv1 Hlen1].
  destruct (awaitAll (handlePhase endTime) allExitedPhase tr p1)
    as [|[tr2 p2]|] eqn:Hawait; simpl; try done.
  intros [= <- <- <- <-].
  apply awaitAll_run in Hawait. destruct Hawait as (pre & -> & Hp2 & Hjoined).
  assert (Hinv2 : PhaseInv (clock s) (invoked s) endTime p2).
  { rewrite Hp2. apply run_invariant; [|done]. intros e p. apply PhaseInv_handle. }
  assert (Hlen2 : length (phasePromises p2) = Z.to_nat users).
  { rewrite Hp2, <- Hlen1. generalize p1. clear.
    induction pre as [|e pre IH]; intros p; simpl; [done|].
    by rewrite IH, handlePhase_length. }
  destruct Hinv2 as [Hnow Herr Hact Hlat Hcalls].
  unfold phaseOf; simpl. rewrite Herr. split_and!; try done.
  - intros Hpos. unfold allExitedPhase in Hjoined.
    destruct (phasePromises p2) as [|[a n] rest] eqn:Hrest; simpl in *; [lia|].
    apply andb_true_iff in Hjoined. destruct Hjoined as [Ha _].
    apply Forall_cons in Hact. destruct Hact as [[Hexit _] _].
    destruct a; simpl in *; done.
  - apply privateErrors_nonneg. eapply Forall_impl; [exact Hact|].
    by intros a [_ ?].
  - rewrite Hcalls, (allExitedPhase_pending _ Hjoined).
    unfold privateErrors. lia.
Qed.

(** ** spikeTest *)

Lemma spikeTest_phases options tr s r log tr' s' :
  spikeTest options tr s = Fulfilled (r, log, tr', s') ->
  exists r1 r2 r3 l1 l2 l3 s1 s2 s3,
    SpikeTestResult.results r =
      [labelled "Base Load" r1; labelled "Spike Load" r2; labelled "Recovery" r3] /\
    log = [l1; l2; l3] /\
    phaseOf (SpikeOptions.baseUsers options) (SpikeOptions.baseDuration options)
      (setMetrics (setStartTime (clock s) (metrics (resetMetrics s))) (resetMetrics s))
      s1 r1 l1 /\
    phaseOf (SpikeOptions.spikeUsers options) (SpikeOptions.spikeDuration options)
      s1 s2 r2 l2 /\
    phaseOf (SpikeOptions.baseUsers options) (SpikeOptions.recoveryDuration options)
      s2 s3 r3 l3.
Proof.
  unfold spikeTest.
  set (s0 := setMetrics _ (resetMetrics s)).
  destruct (runPhase _ _ tr s0) as [|[[[r1 l1] tr1] s1]|] eqn:H1; simpl; try done.
  destruct (runPhase _ _ tr1 s1) as [|[[[r2 l2] tr2] s2]|] eqn:H2; simpl; try done.
  destruct (runPhase _ _ tr2 s2) as [|[[[r3 l3] tr3] s3]|] eqn:H3; simpl; try done.
  intros [= <- <- <- <-].
  exists r1, r2, r3, l1, l2, l3, s1, s2, s3.
  split_and!; try done; by eapply runPhase_phaseOf.
Qed.



Lemma Qeq_bool_inject_Z (z : Z) : z <> 0 -> Qeq_bool (inject_Z z) 0 = false.
Proof.
  intros Hz. destruct (Qeq_bool (inject_Z z) 0) eqn:E; [|done].
  apply Qeq_bool_iff in E. unfold Qeq, inject_Z in E. simpl in E. lia.
Qed.

Lemma errorPercentage_no_errors (responseTimes : list Z) :
  responseTimes <> [] -> errorPercentage responseTimes 0 =n= Fin 0.
Proof.
  intros Hne. unfold errorPercentage, ofZ. simpl.
  rewrite Qeq_bool_inject_Z by (destruct responseTimes; [done|simpl; lia]).
  simpl. unfold Qeq. simpl. lia.
Qed.

Lemma average_nonempty (responseTimes : list Z) :
  responseTimes <> [] ->
  average responseTimes
  = Fin (inject_Z (foldl Z.add 0 responseTimes)
         / inject_Z (Z.of_nat (length responseTimes))).
Proof.
  intros Hne. unfold average, ofZ.
  destruct (Z.ltb_spec 0 (Z.of_nat (length responseTimes))) as [Hlen|Hlen].
  - simpl. by rewrite Qeq_bool_inject_Z by lia.
  - destruct responseTimes; [done|simpl in Hlen; lia].
Qed.

(** Claim C9.  In every spike run, each phase in which at least one call
    succeeded reports an error rate of 0 and the mean of the latencies of its
    successful calls as average, however many calls failed in the phase: the
    calls of the phase are its recorded latencies plus the failures its actors
    counted privately, and that number of failures does not enter the sample. *)
Theorem spike_errorRate_ignores_failures options tr s r log tr' s' :
  spikeTest options tr s = Fulfilled (r, log, tr', s') ->
  Forall2 (fun x l =>
             latencies l <> [] ->
             PhaseSample.errorRate x =n= Fin 0 /\
             PhaseSample.avgResponseTime x
               = Fin (inject_Z (foldl Z.add 0 (latencies l))
                      / inject_Z (Z.of_nat (length (latencies l)))) /\
             0 <= failures l /\
             calls l = Z.of_nat (length (latencies l)) + failures l)
    (SpikeTestResult.results r) log.
Proof.
  intros Hrun. apply spikeTest_phases in Hrun.
  destruct Hrun as (r1 & r2 & r3 & l1 & l2 & l3 & s1 & s2 & s3
                    & -> & -> & H1 & H2 & H3).
  assert (Hphase : forall users duration s s' x l name,
            phaseOf users duration s s' x l ->
            latencies l <> [] ->
            PhaseSample.errorRate (labelled name x) =n= Fin 0 /\
            PhaseSample.avgResponseTime (labelled name x)
              = Fin (inject_Z (foldl Z.add 0 (latencies l))
                     / inject_Z (Z.of_nat (length (latencies l)))) /\
            0 <= failures l /\
            calls l = Z.of_nat (length (latencies l)) + failures l).
  { intros users duration sa sb x l name
      (_ & Ha & He & _ & _ & _ & _ & _ & _ & _ & _ & Hf & Hc) Hne.
    simpl. rewrite Ha, He. split_and!; try done.
    - by apply errorPercentage_no_errors.
    - by apply average_nonempty. }
  constructor; [by eapply Hphase|].
  constructor; [by eapply Hphase|].
  constructor; [by eapply Hphase|].
  constructor.
Qed.

Lemma spike_errorRate_ignores_failures_witness :
  exists r log tr' s',
    spikeTest spike_options spike_events (newEngine 0)
      = Fulfilled (r, log, tr', s') /\
    failures <$> log = [1; 2; 0] /\
    Forall (fun x => PhaseSample.errorRate x =n= Fin 0) (SpikeTestResult.results r).
Proof.
  do 4 eexists.
  apply conj_with; [vm_compute; reflexivity|].
  intros Hrun. split; [reflexivity|].
  pose proof (spike_errorRate_ignores_failures _ _ _ _ _ _ _ Hrun) as H.
  apply Forall2_cons_1 in H. destruct H as [H1 H].
  apply Forall2_cons_1 in H. destruct H as [H2 H].
  apply Forall2_cons_1 in H. destruct H as [H3 _].
  apply Forall_cons; split; [exact (proj1 (H1 ltac:(discriminate)))|].
  apply Forall_cons; split; [exact (proj1 (H2 ltac:(discriminate)))|].
  apply Forall_cons; split; [exact (proj1 (H3 ltac:(discriminate)))|].
  constructor.
Defined.

(** Claim C2 fails for [simulateUserPhase].  In the first phase of this run
    the only actor makes two calls; the first throws and the second
    completes.  One latency is recorded; the failure is counted in the
    actor's own [errors] and never reaches [phaseErrors], so the sample is
    computed from one recorded outcome for two calls and reports no error. *)
Theorem simulateUserPhase_drops_failures :
  exists r l tr' s',
    runPhase 1 1 spike_events (setMetrics (Metrics.mk [] [] 0 0 0) (newEngine 0))
      = Fulfilled (r, l, tr', s') /\
    calls l = 2 /\
    latencies l = [1000] /\
    failures l = 1 /\
    Sample.errorRate r = errorPercentage [1000] 0 /\
    Sample.errorRate r =n= Fin 0 /\
    Z.of_nat (length (latencies l)) + 0 <> calls l.
Proof.
  do 4 eexists. split; [vm_compute; reflexivity|]. simpl.
  split_and!; try reflexivity. lia.
Qed.

(** ** loadTest *)


Lemma tick_progress d s : progress s (tick d s).
Proof. apply (handle_progress 0 0 (Tick d)). Qed.

Lemma passTime_progress tr s tr' s' : passTime tr s = (tr', s') -> progress s s'.
Proof.
  unfold passTime. destruct tr as [|[d| | | |] tr0]; intros [= <- <-];
    try apply progress_refl. apply tick_progress.
Qed.

Lemma simulateUser_progress endTime s : progress s (simulateUser endTime s).
Proof.
  destruct (simulateUser_facts endTime s) as (Hc & Hm & _).
  unfold progress. rewrite Hc, Hm, simulateUser_unrecorded. split_and!; auto; lia.
Qed.

Lemma awaitAll_progress thinkTime endTime tr s tr' s' :
  awaitAll (handle thinkTime endTime) allExited tr s = Fulfilled (tr', s') ->
  progress s s' /\ allExited s' = true.
Proof.
  intros H. apply awaitAll_run in H. destruct H as (pre & _ & -> & Hj).
  split; [apply run_progress|done].
Qed.

Lemma awaitTimer_progress thinkTime endTime wakeAt tr s tr' s' :
  awaitTimer (handle thinkTime endTime) wakeAt tr s = Fulfilled (tr', s') ->
  progress s s'.
Proof.
  revert s. induction tr as [|e tr IH]; intros s; simpl; [done|].
  destruct e as [d|i o|i| |];
    try (intros H; apply IH in H;
         eapply progress_trans; [apply handle_progress|exact H]).
  destruct (Qle_bool _ _).
  - intros [= <- <-]. apply progress_refl.
  - apply IH.
Qed.

Lemma spin_idle endTime tr s tr' s' :
  spin endTime tr s = Fulfilled (tr', s') ->
  progress s s' /\ metrics s' = metrics s /\ userPromises s' = userPromises s.
Proof.
  revert s. induction tr as [|e tr IH]; intros s; simpl.
  - destruct (Qltb _ _); [done|]. intros [= <- <-].
    split_and!; auto using progress_refl.
  - destruct (Qltb _ _).
    + destruct e as [d|i o|i| |]; intros H; apply IH in H; try done.
      destruct H as (Hp & Hm & Hu). split_and!.
      * eapply progress_trans; [apply tick_progress|exact Hp].
      * rewrite Hm. unfold tick. by destruct (0 <=? d).
      * rewrite Hu. unfold tick. by destruct (0 <=? d).
    + intros [= <- <-]. split_and!; auto using progress_refl.
Qed.

Lemma passTime_idle tr s tr' s' :
  passTime tr s = (tr', s') ->
  metrics s' = metrics s /\ userPromises s' = userPromises s /\ clock s <= clock s'.
Proof.
  unfold passTime. destruct tr as [|[d| | | |] tr0]; intros [= <- <-];
    try (split_and!; auto; lia).
  unfold tick. destruct (Z.leb_spec 0 d); simpl; split_and!; auto; lia.
Qed.

Lemma loadLoop_progress thinkTime endTime rampUpInterval waiting :
  forall tr s tr' s',
    loadLoop thinkTime endTime rampUpInterval waiting tr s = Fulfilled (tr', s') ->
    progress s s'.
Proof.
  induction waiting as [|waiting IH]; intros tr s tr' s'; simpl;
    destruct (passTime tr s) as [tr1 s1] eqn:Hpass;
    apply passTime_progress in Hpass;
    (destruct (Qltb _ _); [|by intros [= <- <-]]).
  - intros H. apply spin_idle in H. destruct H as (H & _).
    by eapply progress_trans.
  - pose proof (simulateUser_progress endTime s1) as Hsim.
    destruct (positive rampUpInterval).
    + destruct (awaitTimer _ _ tr1 _) as [|[tr2 s2]|] eqn:Hsleep; simpl; try done.
      apply awaitTimer_progress in Hsleep.
      intros H. apply IH in H. eauto using progress_trans.
    + intros H. apply IH in H. eauto using progress_trans.
Qed.

(** Nothing is started when no user is asked for, or when the deadline has
    passed already. *)
Lemma loadLoop_idle thinkTime endTime rampUpInterval waiting tr s tr' s' :
  loadLoop thinkTime endTime rampUpInterval waiting tr s = Fulfilled (tr', s') ->
  waiting = O \/ (endTime <= inject_Z (clock s))%Q ->
  metrics s' = metrics s /\ userPromises s' = userPromises s.
Proof.
  intros H Hidle.
  destruct waiting as [|waiting]; simpl in H;
    destruct (passTime tr s) as [tr1 s1] eqn:Hpass;
    apply passTime_idle in Hpass; destruct Hpass as (Hm & Hu & Hc);
    destruct (Qltb (inject_Z (clock s1)) endTime) eqn:Ht.
  - apply spin_idle in H. destruct H as (_ & Hm' & Hu'). split; congruence.
  - injection H as <- <-. done.
  - destruct Hidle as [?|Hd]; [done|]. exfalso.
    apply Qltb_lt in Ht. apply (Qlt_not_le _ _ Ht).
    eapply Qle_trans; [exact Hd|]. by rewrite <- Zle_Qle.
  - injection H as <- <-. done.
Qed.

Lemma awaitTimer_not_rejected step wakeAt tr s reason :
  awaitTimer step wakeAt tr s <> Rejected reason.
Proof.
  revert s. induction tr as [|e tr IH]; intros s; simpl; [done|].
  destruct e; try apply IH. destruct (Qle_bool _ _); [done|apply IH].
Qed.

Lemma spin_not_rejected endTime tr s reason : spin endTime tr s <> Rejected reason.
Proof.
  revert s. induction tr as [|e tr IH]; intros s; simpl;
    destruct (Qltb _ _); try done. destruct e; apply IH.
Qed.

Lemma loadLoop_not_rejected thinkTime endTime rampUpInterval waiting :
  forall tr s reason,
    loadLoop thinkTime endTime rampUpInterval waiting tr s <> Rejected reason.
Proof.
  induction waiting as [|waiting IH]; intros tr s reason; simpl;
    destruct (passTime tr s) as [tr1 s1]; (destruct (Qltb _ _); [|done]).
  - apply spin_not_rejected.
  - destruct (positive rampUpInterval); [|apply IH].
    destruct (awaitTimer _ _ tr1 _) as [|[tr2 s2]|] eqn:Hsleep; simpl; try done.
    by apply awaitTimer_not_rejected in Hsleep.
Qed.

Lemma loadTest_not_rejected options tr s reason :
  loadTest options tr s <> Rejected reason.
Proof.
  unfold loadTest.
  destruct (loadLoop _ _ _ _ tr _) as [|[tr1 s1]|] eqn:Hloop; simpl; try done.
  - destruct (awaitAll _ _ tr1 s1) as [|[tr2 s2]|] eqn:Hjoin; simpl; try done.
    by apply awaitAll_not_rejected in Hjoin.
  - by apply loadLoop_not_rejected in Hloop.
Qed.

(** What a completed load run returns, and what it leaves behind. *)
Lemma loadTest_result options tr s r tr' s' :
  loadTest options tr s = Fulfilled (r, tr', s') ->
  r = generateLoadTestResult "Load Test" s' /\
  Metrics.startTime (metrics s') = clock s /\
  Metrics.endTime (metrics s') = clock s' /\
  clock s <= clock s' /\
  0 <= Metrics.errors (metrics s') /\
  Z.of_nat (length (Metrics.responseTimes (metrics s')))
    + Metrics.errors (metrics s') = invoked s' - invoked s.
Proof.
  unfold loadTest.
  set (s0 := setUserPromises [] _).
  destruct (loadLoop _ _ _ _ tr s0) as [|[tr1 s1]|] eqn:Hloop; simpl; try done.
  destruct (awaitAll _ _ tr1 s1) as [|[tr2 s2]|] eqn:Hjoin; simpl; try done.
  intros [= <- <- <-].
  apply loadLoop_progress in Hloop. apply awaitAll_progress in Hjoin.
  destruct Hjoin as (Hjoin & Hexit).
  destruct (progress_trans _ _ _ Hloop Hjoin) as (Hc & Hs & He & Hu).
  apply allExited_pendingCalls in Hexit.
  unfold unrecorded in Hu. rewrite Hexit in Hu. simpl in *.
  split_and!; auto; lia.
Qed.

(** Every call of [testFunction] made by the actors of a load run is recorded
    once: as a latency or in the failure counter. *)
Lemma loadTest_accounts_every_call options tr s r tr' s' :
  loadTest options tr s = Fulfilled (r, tr', s') ->
  LoadTestResult.successfulRequests r + LoadTestResult.failedRequests r
  = invoked s' - invoked s.
Proof.
  intros H. apply loadTest_result in H.
  destruct H as (-> & _ & _ & _ & _ & Hcalls). exact Hcalls.
Qed.

(** The sum of the latencies lies between their number times the least and
    their number times the greatest. *)
Lemma foldl_sum_bounds (l : list Z) :
  forall acc mn mx k,
    0 <= k -> k * mn <= acc <= k * mx ->
    (k + Z.of_nat (length l)) * foldl Z.min mn l
      <= foldl Z.add acc l
      <= (k + Z.of_nat (length l)) * foldl Z.max mx l.
Proof.
  induction l as [|y l IH]; intros acc mn mx k Hk Hacc; simpl foldl; simpl length.
  - rewrite Z.add_0_r. exact Hacc.
  - replace (k + Z.of_nat (S (length l))) with ((k + 1) + Z.of_nat (length l)) by lia.
    apply IH; [lia|]. nia.
Qed.

Lemma average_between (x : Z) (l : list Z) :
  exists avg,
    average (x :: l) = Fin avg /\
    (inject_Z (minZ x l) <= avg)%Q /\ (avg <= inject_Z (maxZ x l))%Q.
Proof.
  rewrite average_nonempty by done.
  eexists. split; [reflexivity|].
  set (n := Z.of_nat (length (x :: l))).
  assert (Hn : 0 < n) by (unfold n; simpl; lia).
  assert (HnQ : (0 < inject_Z n)%Q).
  { change 0%Q with (inject_Z 0). by rewrite <- Zlt_Qlt. }
  destruct (foldl_sum_bounds l (0 + x) x x 1) as [Hlo Hhi]; [lia|lia|].
  change (foldl Z.add (0 + x) l) with (foldl Z.add 0 (x :: l)) in Hlo, Hhi.
  replace (1 + Z.of_nat (length l)) with n in Hlo, Hhi by (unfold n; simpl; lia).
  split.
  - apply Qle_shift_div_l; [done|].
    rewrite <- inject_Z_mult, <- Zle_Qle. unfold minZ. lia.
  - apply Qle_shift_div_r; [done|].
    rewrite <- inject_Z_mult, <- Zle_Qle. unfold maxZ. lia.
Qed.

(** Claim C5.  The result of every completed load run has
    [totalRequests = successfulRequests + failedRequests]; its error rate is
    0 when no request was made and
    [failedRequests / (failedRequests + successfulRequests) * 100] otherwise;
    its throughput is [failedRequests + successfulRequests] divided by the
    seconds between the clock reading at the start of the run and the one at
    its end; and when a latency was recorded the average latency lies between
    the least and the greatest. *)
Theorem load_result_is_consistent options tr s r tr' s' :
  loadTest options tr s = Fulfilled (r, tr', s') ->
  let successful := LoadTestResult.successfulRequests r in
  let failed := LoadTestResult.failedRequests r in
  LoadTestResult.totalRequests r = successful + failed /\
  0 <= successful /\ 0 <= failed /\
  (LoadTestResult.totalRequests r = 0 -> LoadTestResult.errorRate r = Fin 0) /\
  (LoadTestResult.totalRequests r <> 0 ->
   LoadTestResult.errorRate r
   = Fin (inject_Z failed / inject_Z (failed + successful) * 100)) /\
  LoadTestResult.throughput r
  = ndiv (ofZ (failed + successful))
      (Fin (inject_Z (clock s' - clock s) / 1000)) /\
  (0 < successful ->
   exists avg,
     LoadTestResult.avgResponseTime r = Fin avg /\
     (inject_Z (LoadTestResult.minResponseTime r) <= avg)%Q /\
     (avg <= inject_Z (LoadTestResult.maxResponseTime r))%Q).
Proof.
  intros Hrun successful failed. apply loadTest_result in Hrun.
  destruct Hrun as (Hr & Hstart & Hend & Hclock & Herrors & _).
  subst successful failed. rewrite Hr. unfold generateLoadTestResult. simpl.
  rewrite Hstart, Hend.
  set (n := Z.of_nat (length (Metrics.responseTimes (metrics s')))).
  set (errors := Metrics.errors (metrics s')) in *.
  assert (Hn : 0 <= n) by (unfold n; lia).
  split_and!; try done.
  - intros Hzero. destruct (Z.ltb_spec 0 (n + errors)); [lia|done].
  - intros Hne. destruct (Z.ltb_spec 0 (n + errors)) as [Hpos|Hpos]; [|lia].
    unfold ofZ. simpl. rewrite Qeq_bool_inject_Z by lia. simpl.
    by rewrite (Z.add_comm errors n).
  - by rewrite (Z.add_comm errors n).
  - intros Hpos. fold n in Hpos.
    destruct (Metrics.responseTimes (metrics s')) as [|x l] eqn:Hrts;
      [simpl in n; lia|].
    apply average_between.
Qed.

Lemma load_result_is_consistent_witness :
  exists r tr' s',
    loadTest load_options load_events (newEngine 0) = Fulfilled (r, tr', s') /\
    LoadTestResult.totalRequests r = 2 /\
    LoadTestResult.errorRate r
    = Fin (inject_Z (LoadTestResult.failedRequests r)
           / inject_Z (LoadTestResult.failedRequests r
                       + LoadTestResult.successfulRequests r) * 100).
Proof.
  do 3 eexists.
  apply conj_with; [vm_compute; reflexivity|].
  intros Hrun. split; [reflexivity|].
  pose proof (load_result_is_consistent _ _ _ _ _ _ Hrun) as H.
  exact (proj1 (proj2 (proj2 (proj2 (proj2 H)))) ltac:(discriminate)).
Defined.

(** ** Durations and counts that are not positive *)

Lemma deadline_passed (c c' : Z) (d : Q) :
  (d <= 0)%Q -> c <= c' -> (inject_Z c + d * 1000 <= inject_Z c')%Q.
Proof.
  intros Hd Hc. rewrite Zle_Qle in Hc. lra.
Qed.

Lemma stressTest_no_step fuel options tr s :
  (StressOptions.maxDuration options <= 0)%Q \/
  StressOptions.maxUsers options < StressOptions.stepSize options ->
  exists r log tr' s',
    stressTest (S fuel) options tr s = Fulfilled (r, log, tr', s') /\
    StressTestResult.results r = [] /\
    StressTestResult.breakingPoint r = 0.
Proof.
  intros Hopt. unfold stressTest.
  set (s0 := setMetrics _ (resetMetrics s)).
  set (endTime := (inject_Z (clock s0) + _)%Q).
  simpl stressLoop.
  destruct (Z.leb_spec (StressOptions.stepSize options)
              (StressOptions.maxUsers options)) as [HM|HM].
  - destruct Hopt as [Hd|?]; [|lia].
    destruct (passTime tr s0) as [tr1 s1] eqn:Hpass.
    apply passTime_idle in Hpass. destruct Hpass as (_ & _ & Hc).
    assert (Ht : Qltb (inject_Z (clock s1)) endTime = false).
    { apply Qltb_ge. unfold endTime. by apply deadline_passed. }
    rewrite Ht. simpl. by do 4 eexists.
  - simpl. by do 4 eexists.
Qed.

(** Counterexample to claim C8 as stated: a load run of no duration is not
    refused; it completes at once with a result of zeros. *)
Lemma load_zero_duration_completes :
  loadTest load_options_zero [] (newEngine 7)
  = Fulfilled
      (LoadTestResult.mk "Load Test" 0 0 0 (Fin 0) 0 0 (Fin 0) NaN
         (Fin (inject_Z 0 / 1000)) 7,
       [],
       mkEngine (Metrics.mk [] [] 0 7 7) 7 0 [] [] None) /\
  forall reason, loadTest load_options_zero [] (newEngine 7) <> Rejected reason.
Proof. split; [reflexivity|]. intros reason. discriminate. Qed.

(** Claim C8, amended.  No controller checks its options.  A load run with a
    duration or a number of users that is zero or negative is never rejected;
    when it completes, its result counts no request and has 0 for the
    average, least and greatest latency and for the error rate; with a
    duration that is zero or negative it completes without waiting for any
    event.  A stress run whose [maxDuration] is zero or negative, or whose
    [maxUsers] is below its [stepSize], completes with no step and a breaking
    point of 0. *)
Theorem options_are_not_validated :
  (forall options tr s,
     (LoadOptions.duration options <= 0)%Q \/ LoadOptions.users options <= 0 ->
     (forall reason, loadTest options tr s <> Rejected reason) /\
     (forall r tr' s',
        loadTest options tr s = Fulfilled (r, tr', s') ->
        LoadTestResult.totalRequests r = 0 /\
        LoadTestResult.successfulRequests r = 0 /\
        LoadTestResult.failedRequests r = 0 /\
        LoadTestResult.avgResponseTime r = Fin 0 /\
        LoadTestResult.minResponseTime r = 0 /\
        LoadTestResult.maxResponseTime r = 0 /\
        LoadTestResult.errorRate r = Fin 0) /\
     ((LoadOptions.duration options <= 0)%Q ->
      exists r tr' s', loadTest options tr s = Fulfilled (r, tr', s'))) /\
  (forall fuel options tr s,
     (StressOptions.maxDuration options <= 0)%Q \/
     StressOptions.maxUsers options < StressOptions.stepSize options ->
     exists r log tr' s',
       stressTest (S fuel) options tr s = Fulfilled (r, log, tr', s') /\
       StressTestResult.results r = [] /\
       StressTestResult.breakingPoint r = 0).
Proof.
  split; [|apply stressTest_no_step].
  intros options tr s Hopt.
  assert (Hidle : Z.to_nat (LoadOptions.users options) = O \/
            (inject_Z (clock s) + LoadOptions.duration options * 1000
             <= inject_Z (clock s))%Q).
  { destruct Hopt as [Hd|Hu]; [right|left; lia]. by apply deadline_passed. }
  split_and!.
  - intros reason. apply loadTest_not_rejected.
  - intros r tr' s'. unfold loadTest. simpl.
    destruct (loadLoop _ _ _ _ tr _) as [|[tr1 s1]|] eqn:Hl; simpl; try done.
    eapply loadLoop_idle in Hl; [|exact Hidle].
    destruct Hl as (Hm & Hu). simpl in Hm, Hu.
    assert (Hjoin : forall step, awaitAll step allExited tr1 s1
                                 = Fulfilled (tr1, s1)).
    { intros step. destruct tr1; simpl; unfold allExited; by rewrite Hu. }
    rewrite Hjoin. simpl. intros [= <- <- <-].
    unfold generateLoadTestResult. simpl. rewrite Hm. simpl. done.
  - intros Hd. unfold loadTest. simpl.
    destruct (Z.to_nat (LoadOptions.users options)) as [|waiting] eqn:Hw; simpl.
    all: destruct (passTime tr _) as [tr1 s1] eqn:Hpass.
    all: apply passTime_idle in Hpass.
    all: destruct Hpass as (Hm & Hu & Hc); simpl in Hc, Hu.
    all: assert (Ht : Qltb (inject_Z (clock s1))
                        (inject_Z (clock s) + LoadOptions.duration options * 1000)
                      = false)
           by (apply Qltb_ge; by apply deadline_passed).
    all: rewrite Ht; simpl.
    all: assert (Hjoin : forall step, awaitAll step allExited tr1 s1
                                      = Fulfilled (tr1, s1))
           by (intros step; destruct tr1; simpl; unfold allExited; by rewrite Hu).
    all: rewrite Hjoin; simpl; by do 3 eexists.
Qed.

Lemma options_are_not_validated_witness :
  ((LoadOptions.duration load_options_zero <= 0)%Q \/
   LoadOptions.users load_options_zero <= 0) /\
  exists r tr' s',
    loadTest load_options_zero load_events (newEngine 0) = Fulfilled (r, tr', s') /\
    LoadTestResult.totalRequests r = 0.
Proof.
  apply conj_with; [left; by compute|].
  intros Hopt.
  destruct (proj1 options_are_not_validated load_options_zero load_events
              (newEngine 0) Hopt) as (_ & Hzero & Hdone).
  destruct (Hdone ltac:(by compute)) as (r & tr' & s' & Hrun).
  exists r, tr', s'. split; [exact Hrun|].
  exact (proj1 (Hzero _ _ _ Hrun)).
Defined.

(** ** enduranceTest *)

Lemma timerDelay_pos (ms : Q) : (1 <= timerDelay ms)%Q.
Proof.
  unfold timerDelay. destruct (Qle_bool 1 ms) eqn:H1; simpl; [|lra].
  destruct (Qle_bool ms 2147483647); [|lra]. by apply Qle_bool_iff.
Qed.

Lemma average_fin (responseTimes : list Z) : exists q, average responseTimes = Fin q.
Proof.
  destruct responseTimes as [|x l]; [by exists 0%Q|].
  rewrite average_nonempty by done. by eexists.
Qed.

Lemma lastStamp_snoc start data d :
  lastStamp start (data ++ [d]) = Snapshot.timestamp d.
Proof.
  unfold lastStamp. rewrite fmap_app.
  change (Snapshot.timestamp <$> [d]) with [Snapshot.timestamp d].
  by rewrite last_snoc.
Qed.

Lemma spaced_snoc period start stamps t :
  spaced period start (stamps ++ [t]) <->
  spaced period start stamps /\
  (inject_Z (default start (last stamps)) + period <= inject_Z t)%Q.
Proof.
  revert start. induction stamps as [|x stamps IH]; intros start; simpl.
  - tauto.
  - rewrite IH. destruct stamps as [|y stamps']; simpl; [tauto|].
    rewrite !last_cons. destruct (last stamps'); simpl; tauto.
Qed.


(** The callback adds at most one snapshot, which shows the metrics and the
    clock as they are when it runs. *)
Lemma handle_view thinkTime endTime e s :
  exists snaps,
    monitoringData (handle thinkTime endTime e s) = monitoringData s ++ snaps /\
    Forall (viewOf s) snaps.
Proof.
  destruct e as [d|i o|i| |]; simpl.
  - exists []. unfold tick. destruct (0 <=? d); simpl; by rewrite app_nil_r.
  - exists []. rewrite app_nil_r. split; [|done].
    destruct (userPromises s !! i) as [[st|w|]|]; try done.
    by actor_settled o thinkTime.
  - exists []. rewrite app_nil_r. split; [|done].
    destruct (userPromises s !! i) as [[st|w|]|]; try done.
    destruct (Qle_bool _ _); [|done].
    by actor_loop.
  - destruct (monitoringIntervalId s) as [t|];
      [|exists []; by rewrite app_nil_r].
    destruct (Qle_bool _ _); [|exists []; by rewrite app_nil_r].
    eexists [_]. split; [reflexivity|]. by repeat constructor.
  - exists []. by rewrite app_nil_r.
Qed.

(** Only [Tick] moves the clock and only [Fire] touches the timer. *)
Lemma handle_timer_frame thinkTime endTime e s :
  e <> Fire ->
  monitoringData (handle thinkTime endTime e s) = monitoringData s /\
  monitoringIntervalId (handle thinkTime endTime e s) = monitoringIntervalId s.
Proof.
  intros He. destruct e as [d|i o|i| |]; simpl; try done.
  - unfold tick. by destruct (0 <=? d).
  - destruct (userPromises s !! i) as [[st|w|]|]; try done.
    by actor_settled o thinkTime.
  - destruct (userPromises s !! i) as [[st|w|]|]; try done.
    destruct (Qle_bool _ _); [|done].
    by actor_loop.
Qed.


(** An actor that has returned did so with the clock at its deadline or
    later. *)
Lemma handle_exits thinkTime endTime e s :
  Forall (fun a => a = Exited -> (endTime <= inject_Z (clock s))%Q) (userPromises s) ->
  Forall (fun a => a = Exited ->
                   (endTime <= inject_Z (clock (handle thinkTime endTime e s)))%Q)
    (userPromises (handle thinkTime endTime e s)).
Proof.
  intros Hs.
  assert (Hloop : forall i s0,
    Forall (fun a => a = Exited -> (endTime <= inject_Z (clock s0))%Q) (userPromises s0) ->
    Forall (fun a => a = Exited ->
                     (endTime <= inject_Z (clock (simulateUser_loop endTime i s0)))%Q)
      (userPromises (simulateUser_loop endTime i s0))).
  { intros i s0 H0. rewrite simulateUser_loop_promises.
    assert (Hc : clock (simulateUser_loop endTime i s0) = clock s0).
    { by actor_loop. }
    rewrite Hc. destruct (decide (i < length (userPromises s0))%nat) as [Hi|Hi].
    - apply Forall_insert; [done|].
      destruct (Qltb (inject_Z (clock s0)) endTime) eqn:Ht; [done|].
      intros _. by apply Qltb_ge.
    - by rewrite list_insert_ge by lia. }
  destruct e as [d|i o|i| |]; simpl.
  - unfold tick. destruct (Z.leb_spec 0 d); simpl; [|done].
    eapply Forall_impl; [exact Hs|]. intros a Ha Hex.
    eapply Qle_trans; [by apply Ha|]. rewrite <- Zle_Qle. lia.
  - destruct (userPromises s !! i) as [[st|w|]|] eqn:Hi; try done.
    unfold simulateUser_settled. destruct (0 <? thinkTime).
    + destruct o; simpl; (apply Forall_insert; [done|done]).
    + destruct o; apply Hloop; simpl; done.
  - destruct (userPromises s !! i) as [[st|w|]|]; try done.
    destruct (Qle_bool _ _); [|done]. by apply Hloop.
  - destruct (monitoringIntervalId s) as [t|]; [|done].
    by destruct (Qle_bool _ _).
  - done.
Qed.

Lemma is_Fire (e : event) : e = Fire \/ e <> Fire.
Proof. destruct e; (by left) || (by right). Qed.

Section Monitoring.
Variables (period : Q) (users start : Z) (thinkTime : Z) (endTime : Q).
Hypothesis period_pos : (1 <= period)%Q.

Lemma TimerInv_handle e s :
  TimerInv period users start endTime s ->
  TimerInv period users start endTime (handle thinkTime endTime e s).
Proof using period_pos.
  intros [(t & Ht & Hp & Hu & Hdue) Hlast Hsp Hdata Hex].
  pose proof (handle_exits thinkTime endTime e s Hex) as Hex'.
  pose proof (handle_frame thinkTime endTime e s) as (Hclock & _).
  destruct (is_Fire e) as [->|Hne].
  - simpl in *. rewrite Ht in *.
    destruct (Qle_bool (due t) (inject_Z (clock s))) eqn:Hfire.
    + apply Qle_bool_iff in Hfire. rewrite Hdue in Hfire.
      constructor; simpl.
      * eexists. split; [reflexivity|]. simpl.
        rewrite lastStamp_snoc. simpl. rewrite Hp. done.
      * rewrite lastStamp_snoc. simpl. lia.
      * rewrite fmap_app. simpl. apply spaced_snoc. split; [done|]. exact Hfire.
      * apply Forall_app. split; [done|]. apply Forall_singleton. simpl.
        split_and!; [done|lia|apply average_fin].
      * exact Hex'.
    + constructor; eauto.
  - destruct (handle_timer_frame thinkTime endTime e s Hne) as (Hd & Hi).
    constructor; rewrite ?Hd, ?Hi; eauto.
    + lia.
    + eapply Forall_impl; [exact Hdata|]. simpl. intros d (?&?&?).
      split_and!; auto. lia.
Qed.

Lemma TimerInv_run tr s :
  TimerInv period users start endTime s ->
  TimerInv period users start endTime (run (handle thinkTime endTime) tr s).
Proof using period_pos.
  apply run_invariant. intros e s0. apply TimerInv_handle.
Qed.

End Monitoring.

(** *** The reducer *)

Lemma foldl_nadd_fmap {A} (f : A -> num) (l : list A) (a : num) :
  foldl (fun sum data => nadd sum (f data)) a l = foldl nadd a (f <$> l).
Proof. revert a. induction l as [|x l IH]; intros a; simpl; [done|]. apply IH. Qed.







(** *** The run *)

(** Every snapshot taken during a run shows the state after some of its
    events. *)
Lemma run_views thinkTime endTime tr :
  forall s,
    exists snaps,
      monitoringData (run (handle thinkTime endTime) tr s)
      = monitoringData s ++ snaps /\
      Forall (fun d => exists pre post,
                tr = pre ++ post /\
                viewOf (run (handle thinkTime endTime) pre s) d) snaps.
Proof.
  induction tr as [|e tr IH]; intros s; simpl.
  - exists []. by rewrite app_nil_r.
  - destruct (handle_view thinkTime endTime e s) as (snaps0 & Hd0 & Hv0).
    destruct (IH (handle thinkTime endTime e s)) as (snaps1 & Hd1 & Hv1).
    exists (snaps0 ++ snaps1). split.
    + by rewrite Hd1, Hd0, app_assoc.
    + apply Forall_app. split.
      * eapply Forall_impl; [exact Hv0|]. intros d Hd.
        by exists [], (e :: tr).
      * eapply Forall_impl; [exact Hv1|]. intros d (pre & post & -> & Hd).
        by exists (e :: pre), post.
Qed.

Lemma launchAll_exits endTime users s :
  Forall (fun a => a = Exited -> (endTime <= inject_Z (clock s))%Q)
    (userPromises (launchAll endTime users s)).
Proof.
  unfold launchAll.
  assert (H : forall n,
    let s' := Nat.iter n (simulateUser endTime) (setUserPromises [] s) in
    clock s' = clock s /\
    Forall (fun a => a = Exited -> (endTime <= inject_Z (clock s))%Q)
      (userPromises s')).
  { induction n as [|n [IHc IH]]; simpl; [done|].
    unfold simulateUser at 1 3, simulateUser_enter.
    destruct (Qltb _ _) eqn:Ht; simpl; (split; [done|]);
      apply Forall_app; (split; [done|]); apply Forall_singleton; [done|].
    intros _. apply Qltb_ge in Ht. by rewrite <- IHc. }
  apply H.
Qed.

Lemma enduranceStart_TimerInv options s :
  TimerInv
    (timerDelay (EnduranceOptions.monitoringInterval options * 60 * 1000))
    (EnduranceOptions.users options) (clock s)
    (inject_Z (clock s) + EnduranceOptions.duration options * 60 * 60 * 1000)%Q
    (enduranceStart options s) /\
  clock (enduranceStart options s) = clock s /\
  Metrics.startTime (metrics (enduranceStart options s)) = clock s /\
  monitoringData (enduranceStart options s) = [] /\
  length (userPromises (enduranceStart options s))
  = Z.to_nat (EnduranceOptions.users options).
Proof.
  unfold enduranceStart. simpl.
  set (endTime := (inject_Z (clock s) + _)%Q).
  set (s0 := setMonitoringData [] _).
  destruct (launchAll_facts endTime (EnduranceOptions.users options) s0)
    as (Hc & Hm & Hd & Hi & Hl). simpl in Hc, Hm, Hd.
  pose proof (launchAll_exits endTime (EnduranceOptions.users options) s0) as Hex.
  split_and!; simpl; try done; [|by rewrite Hm].
  constructor; simpl; rewrite ?Hd, ?Hc; unfold lastStamp; simpl; try done.
  eexists. split; [reflexivity|]. done.
Qed.

Lemma enduranceTest_run options tr s r tr' s' :
  enduranceTest options tr s = Fulfilled (r, tr', s') ->
  exists s1 pre,
    awaitAll
      (handle 1000
         (inject_Z (clock s) + EnduranceOptions.duration options * 60 * 60 * 1000)%Q)
      allExited tr (enduranceStart options s) = Fulfilled (tr', s1) /\
    tr = pre ++ tr' /\
    s1 = run
           (handle 1000
              (inject_Z (clock s) + EnduranceOptions.duration options * 60 * 60 * 1000)%Q)
           pre (enduranceStart options s) /\
    allExited s1 = true /\
    s' = setMetrics (setEndTime (clock s1) (metrics s1))
           (setMonitoringIntervalId None s1) /\
    r = generateEnduranceTestResult (monitoringData s1) s'.
Proof.
  unfold enduranceTest. fold (enduranceStart options s). simpl.
  destruct (awaitAll _ _ tr _) as [|[tr1 s1]|] eqn:Hjoin; simpl; try done.
  intros [= <- <- <-].
  destruct (awaitAll_run _ _ _ _ _ _ Hjoin) as (pre & -> & -> & Hex).
  by eexists _, pre.
Qed.

(** Every call of [testFunction] made in an endurance run is recorded once. *)
Lemma enduranceTest_accounts_every_call options tr s r tr' s' :
  enduranceTest options tr s = Fulfilled (r, tr', s') ->
  Z.of_nat (length (Metrics.responseTimes (metrics s')))
    + Metrics.errors (metrics s') = invoked s' - invoked s.
Proof.
  intros Hrun. apply enduranceTest_run in Hrun.
  destruct Hrun as (s1 & pre & _ & _ & Hs1 & Hexit & -> & _). simpl.
  destruct (run_progress 1000
              (inject_Z (clock s) + EnduranceOptions.duration options * 60 * 60 * 1000)%Q
              pre (enduranceStart options s)) as (_ & _ & _ & Hun).
  rewrite <- Hs1 in Hun.
  apply allExited_pendingCalls in Hexit.
  unfold unrecorded in Hun at 1. rewrite Hexit in Hun.
  unfold enduranceStart in Hun.
  replace (unrecorded (setMonitoringIntervalId _ _)) with (invoked s) in Hun; [lia|].
  unfold unrecorded at 1. simpl.
  fold (unrecorded (launchAll
    (inject_Z (clock s) + EnduranceOptions.duration options * 60 * 60 * 1000)%Q
    (EnduranceOptions.users options)
    (setMonitoringData []
       (setMetrics (setStartTime (clock s) (Metrics.mk [] [] 0 0 0)) (resetMetrics s))))).
  rewrite launchAll_unrecorded. unfold unrecorded, pendingCalls. simpl. lia.
Qed.





(** ** Arbitrary interleavings *)

Lemma actor_failure_is_isolated_witness :
  userPromises two_actors !! 0%nat = Some (InFlight 0) /\
  Metrics.errors (metrics (handle 0 1000 (Settle 0 Throws) two_actors)) = 1 /\
  userPromises (handle 0 1000 (Settle 0 Throws) two_actors) !! 1%nat
  = Some (InFlight 0).
Proof.
  apply conj_with; [reflexivity|].
  intros Hi.
  pose proof (actor_failure_is_isolated 0 1000 two_actors 0 0 Hi) as H.
  split; [exact (proj1 H)|].
  exact (proj1 (proj2 (proj2 (proj2 H))) 1%nat ltac:(discriminate)).
Defined.



(** * Further properties of the engine *)

(** ** Numbers *)

Lemma inject_Z_pos (z : Z) : 0 < z -> (0 < inject_Z z)%Q.
Proof. intros H. change 0%Q with (inject_Z 0). by rewrite <- Zlt_Qlt. Qed.

Lemma inject_Z_nonneg (z : Z) : 0 <= z -> (0 <= inject_Z z)%Q.
Proof. intros H. change 0%Q with (inject_Z 0). by rewrite <- Zle_Qle. Qed.

Lemma inject_Z_succ (n : nat) (x : Q) :
  (inject_Z (Z.of_nat (S n)) * x == inject_Z (Z.of_nat n) * x + x)%Q.
Proof.
  rewrite Nat2Z.inj_succ, <- Z.add_1_r, inject_Z_plus.
  unfold inject_Z at 2. ring.
Qed.

Lemma Qdiv_mult_cancel (a b : Q) : ~ (b == 0)%Q -> (a / b * b == a)%Q.
Proof. intros Hb. field. exact Hb. Qed.

Lemma foldl_min_lower (lo : Z) (l : list Z) :
  forall x, lo <= x -> Forall (fun y => lo <= y) l -> lo <= foldl Z.min x l.
Proof.
  induction l as [|y l IH]; intros x Hx Hl; simpl; [done|].
  apply Forall_cons in Hl. destruct Hl as [Hy Hl]. apply IH; [lia|done].
Qed.

Lemma foldl_max_upper (hi : Z) (l : list Z) :
  forall x, x <= hi -> Forall (fun y => y <= hi) l -> foldl Z.max x l <= hi.
Proof.
  induction l as [|y l IH]; intros x Hx Hl; simpl; [done|].
  apply Forall_cons in Hl. destruct Hl as [Hy Hl]. apply IH; [lia|done].
Qed.

Lemma foldl_min_le_max (l : list Z) :
  forall x y, x <= y -> foldl Z.min x l <= foldl Z.max y l.
Proof.
  induction l as [|z l IH]; intros x y Hxy; simpl; [done|]. apply IH. lia.
Qed.

(** The average of latencies between [lo] and [hi] lies between them; it is
    0 when there is none. *)
Lemma average_within (lo hi : Z) (l : list Z) :
  lo <= 0 <= hi -> Forall (fun x => lo <= x <= hi) l -> within lo hi (average l).
Proof.
  intros Hzero Hl. destruct l as [|x l].
  - exists 0%Q. split; [done|].
    split; change 0%Q with (inject_Z 0); rewrite <- Zle_Qle; lia.
  - destruct (average_between x l) as (avg & Havg & Hlo & Hhi).
    apply Forall_cons in Hl. destruct Hl as [Hx Hl].
    exists avg. split; [done|]. split.
    + eapply Qle_trans; [|exact Hlo]. rewrite <- Zle_Qle.
      apply foldl_min_lower; [lia|]. eapply Forall_impl; [exact Hl|]. simpl. lia.
    + eapply Qle_trans; [exact Hhi|]. rewrite <- Zle_Qle.
      apply foldl_max_upper; [lia|]. eapply Forall_impl; [exact Hl|]. simpl. lia.
Qed.

(** The error rate of [errors] failures beside the recorded latencies is
    [NaN] when there is no outcome at all and a percentage otherwise. *)
Lemma errorPercentage_range (responseTimes : list Z) (errors : Z) :
  0 <= errors ->
  (Z.of_nat (length responseTimes) + errors = 0 ->
   errorPercentage responseTimes errors = NaN) /\
  (0 < Z.of_nat (length responseTimes) + errors ->
   errorPercentage responseTimes errors
   = Fin (inject_Z errors / inject_Z (Z.of_nat (length responseTimes) + errors) * 100) /\
   percentage (errorPercentage responseTimes errors)).
Proof.
  intros He. unfold errorPercentage, ofZ.
  set (t := Z.of_nat (length responseTimes) + errors).
  split.
  - intros Ht. assert (errors = 0) as -> by lia. rewrite Ht. reflexivity.
  - intros Ht. simpl. rewrite Qeq_bool_inject_Z by lia. simpl.
    split; [done|]. eexists. split; [reflexivity|].
    pose proof (inject_Z_pos t Ht) as HtQ.
    assert (H0 : (0 <= inject_Z errors / inject_Z t)%Q).
    { apply Qle_shift_div_l; [done|]. rewrite Qmult_0_l. by apply inject_Z_nonneg. }
    assert (H1 : (inject_Z errors / inject_Z t <= 1)%Q).
    { apply Qle_shift_div_r; [done|]. rewrite Qmult_1_l. rewrite <- Zle_Qle. lia. }
    split; lra.
Qed.

(** ** Timing of the calls *)

Lemma handle_invoked thinkTime endTime e s :
  invoked s <= invoked (handle thinkTime endTime e s).
Proof.
  destruct e as [d|i o|i| |]; simpl.
  - unfold tick. destruct (0 <=? d); simpl; lia.
  - destruct (userPromises s !! i) as [[st|w|]|]; try lia.
    actor_settled o thinkTime; lia.
  - destruct (userPromises s !! i) as [[st|w|]|]; try lia.
    destruct (Qle_bool _ _); [|lia].
    actor_loop; lia.
  - destruct (monitoringIntervalId s) as [t|]; [|lia].
    destruct (Qle_bool _ _); simpl; lia.
  - lia.
Qed.

Lemma run_invoked thinkTime endTime tr s :
  invoked s <= invoked (run (handle thinkTime endTime) tr s).
Proof.
  apply (run_preserves (handle thinkTime endTime) (fun a b => invoked a <= invoked b));
    intros; try lia. apply handle_invoked.
Qed.



Lemma tick_Timed start d s : Timed start s -> Timed start (tick d s).
Proof.
  intros (Hc & Ha & Hl). unfold tick. destruct (Z.leb_spec 0 d); [|done].
  split_and!; simpl.
  - lia.
  - eapply Forall_impl; [exact Ha|]. intros [st|w|]; simpl; lia.
  - eapply Forall_impl; [exact Hl|]. simpl. lia.
Qed.

Lemma simulateUser_loop_Timed start endTime i s :
  Timed start s -> Timed start (simulateUser_loop endTime i s).
Proof.
  intros (Hc & Ha & Hl).
  destruct (decide (i < length (userPromises s))%nat) as [Hi|Hi].
  - actor_loop; split_and!; simpl; try done; apply Forall_insert; try done; lia.
  - actor_loop; split_and!; simpl; try done; by rewrite list_insert_ge by lia.
Qed.

Lemma simulateUser_settled_Timed start thinkTime endTime i startTime o s :
  Timed start s ->
  userPromises s !! i = Some (InFlight startTime) ->
  Timed start (simulateUser_settled thinkTime endTime i startTime o s).
Proof.
  intros (Hc & Ha & Hl) Hi.
  pose proof (Forall_lookup_1 _ _ _ _ Ha Hi) as Hst. simpl in Hst.
  assert (Hrec : Timed start
            (match o with
             | Completes =>
                 setMetrics (recordSuccess (clock s - startTime) (metrics s)) s
             | Throws => setMetrics (recordFailure (metrics s)) s
             end)).
  { destruct o; split_and!; simpl; try done.
    apply Forall_app. split; [done|]. apply Forall_singleton. lia. }
  unfold simulateUser_settled. destruct (0 <? thinkTime).
  - destruct Hrec as (Hc' & Ha' & Hl').
    split_and!; simpl; try (destruct o; done).
    apply Forall_insert; [|done]. by destruct o.
  - by apply simulateUser_loop_Timed.
Qed.

Lemma handle_Timed start thinkTime endTime e s :
  Timed start s -> Timed start (handle thinkTime endTime e s).
Proof.
  intros Hs. destruct e as [d|i o|i| |]; simpl.
  - by apply tick_Timed.
  - destruct (userPromises s !! i) as [[st|w|]|] eqn:Hi; try done.
    by apply simulateUser_settled_Timed.
  - destruct (userPromises s !! i) as [[st|w|]|]; try done.
    destruct (Qle_bool _ _); [|done]. by apply simulateUser_loop_Timed.
  - destruct (monitoringIntervalId s) as [t|]; [|done].
    by destruct (Qle_bool _ _).
  - done.
Qed.

Lemma run_Timed start thinkTime endTime tr s :
  Timed start s -> Timed start (run (handle thinkTime endTime) tr s).
Proof. apply run_invariant. intros e s0. apply handle_Timed. Qed.

Lemma simulateUser_Timed start endTime s :
  Timed start s -> Timed start (simulateUser endTime s).
Proof.
  intros (Hc & Ha & Hl). unfold simulateUser, simulateUser_enter.
  destruct (Qltb _ _); split_and!; simpl; try done;
    apply Forall_app; (split; [done|]); apply Forall_singleton; [lia|done].
Qed.

Lemma launchAll_Timed start endTime users s :
  start <= clock s ->
  Forall (fun x => 0 <= x <= clock s - start) (Metrics.responseTimes (metrics s)) ->
  Timed start (launchAll endTime users s).
Proof.
  intros Hc Hl. unfold launchAll.
  induction (Z.to_nat users) as [|n IH]; simpl.
  - by split_and!.
  - by apply simulateUser_Timed.
Qed.

(** Every actor started before the deadline has a call in flight; after the
    deadline none is made. *)
Lemma launchAll_invoked endTime users s :
  invoked (launchAll endTime users s)
  = if Qltb (inject_Z (clock s)) endTime
    then invoked s + Z.of_nat (Z.to_nat users) else invoked s.
Proof.
  unfold launchAll.
  assert (H : forall n,
    let s' := Nat.iter n (simulateUser endTime) (setUserPromises [] s) in
    clock s' = clock s /\
    invoked s' = if Qltb (inject_Z (clock s)) endTime
                 then invoked s + Z.of_nat n else invoked s).
  { induction n as [|n [IHc IH]]; simpl.
    - split; [done|]. destruct (Qltb _ _); lia.
    - unfold simulateUser at 1 3, simulateUser_enter. rewrite IHc.
      destruct (Qltb _ _); simpl; (split; [done|]); lia. }
  apply H.
Qed.

(** After the deadline [launchAll] starts actors that return at once. *)
Lemma launchAll_late endTime users s :
  (endTime <= inject_Z (clock s))%Q ->
  allExited (launchAll endTime users s) = true.
Proof.
  intros Hlate. apply Qltb_ge in Hlate. unfold launchAll, allExited.
  assert (H : forall n,
    let s' := Nat.iter n (simulateUser endTime) (setUserPromises [] s) in
    clock s' = clock s /\ forallb exited (userPromises s') = true).
  { induction n as [|n [IHc IH]]; simpl; [done|].
    unfold simulateUser at 1 3, simulateUser_enter. rewrite IHc, Hlate. simpl.
    split; [done|]. rewrite forallb_app, IH. done. }
  apply H.
Qed.

(** When the actors have joined and there is one, the clock has reached the
    deadline. *)
Lemma joined_late endTime s :
  Forall (fun a => a = Exited -> (endTime <= inject_Z (clock s))%Q) (userPromises s) ->
  allExited s = true ->
  userPromises s <> [] ->
  (endTime <= inject_Z (clock s))%Q.
Proof.
  unfold allExited. destruct (userPromises s) as [|a l]; [done|].
  intros Hex Hall _. apply Forall_cons in Hex. destruct Hex as [Ha _].
  simpl in Hall. apply andb_true_iff in Hall. destruct Hall as [Hexit _].
  apply Ha. by destruct a.
Qed.

(** ** The think time of an actor *)

Lemma handle_rested thinkTime endTime since i e s :
  rested since i s -> rested since i (handle thinkTime endTime e s).
Proof.
  unfold rested. intros Hs.
  destruct (handle_frame thinkTime endTime e s) as (Hclock & _).
  destruct (decide (target e = Some i)) as [Hi|Hi].
  - pose proof (timerDelay_pos (inject_Z thinkTime)) as Hdelay.
    destruct e as [d|j o|j| |]; simpl in Hi; try done;
      injection Hi as ->; simpl in *.
    + destruct (userPromises s !! i) as [[st|w|]|] eqn:Hl; try (by rewrite Hl).
      assert (Hlt : (i < length (userPromises s))%nat) by (by eapply lookup_lt_Some).
      destruct Hs as (Hsince & Hst). rewrite Zle_Qle in Hst.
      unfold simulateUser_settled. destruct (0 <? thinkTime).
      * destruct o; simpl in *; rewrite list_lookup_insert_eq by done; lra.
      * rewrite simulateUser_loop_promises.
        destruct o; simpl; rewrite list_lookup_insert_eq by done;
          destruct (Qltb _ _); simpl; try done;
          (split; [lra|exact (proj1 (simulateUser_loop_frame endTime i _))]).
    + destruct (userPromises s !! i) as [[st|w|]|] eqn:Hl; try (by rewrite Hl).
      assert (Hlt : (i < length (userPromises s))%nat) by (by eapply lookup_lt_Some).
      destruct (Qle_bool w (inject_Z (clock s))) eqn:Hdue; [|by rewrite Hl].
      apply Qle_bool_iff in Hdue.
      rewrite simulateUser_loop_promises, list_lookup_insert_eq by done.
      destruct (Qltb _ _); [|done]. split; [lra|lia].
  - rewrite handle_other by done.
    destruct (userPromises s !! i) as [[st|w|]|]; try done.
    destruct Hs as (Hsince & Hst). split; [done|lia].
Qed.

(** Property X1.  With a positive think time the actor rests after every
    call: once its call has settled, at clock reading [c], whatever the
    events that follow, the next call it has in flight was started at
    [c] plus the think time (as a timer delay) or later. *)
Theorem think_time_is_respected thinkTime endTime i startTime o s tr :
  0 < thinkTime ->
  userPromises s !! i = Some (InFlight startTime) ->
  let s1 := handle thinkTime endTime (Settle i o) s in
  let s2 := run (handle thinkTime endTime) tr s1 in
  userPromises s1 !! i
  = Some (Thinking (inject_Z (clock s) + timerDelay (inject_Z thinkTime))) /\
  forall startTime',
    userPromises s2 !! i = Some (InFlight startTime') ->
    (inject_Z (clock s) + timerDelay (inject_Z thinkTime) <= inject_Z startTime')%Q /\
    (thinkTime <= 2147483647 -> clock s + thinkTime <= startTime') /\
    startTime' <= clock s2.
Proof.
  intros Hthink Hi s1 s2.
  assert (Hlt : (i < length (userPromises s))%nat) by (by eapply lookup_lt_Some).
  assert (H1 : userPromises s1 !! i
               = Some (Thinking (inject_Z (clock s)
                                 + timerDelay (inject_Z thinkTime)))).
  { unfold s1. simpl. rewrite Hi. unfold simulateUser_settled.
    destruct (Z.ltb_spec 0 thinkTime); [|lia].
    destruct o; simpl; by rewrite list_lookup_insert_eq. }
  split; [done|].
  intros startTime' Hi2.
  assert (Hrested : rested (inject_Z (clock s) + timerDelay (inject_Z thinkTime))%Q
                      i s2).
  { unfold s2. apply run_invariant; [intros e s0; apply handle_rested|].
    unfold rested. rewrite H1. apply Qle_refl. }
  unfold rested in Hrested. rewrite Hi2 in Hrested.
  destruct Hrested as (Hsince & Hclock). split_and!; try done.
  intros Hmax.
  assert (Hdelay : timerDelay (inject_Z thinkTime) = inject_Z thinkTime).
  { unfold timerDelay.
    assert (H1' : Qle_bool 1 (inject_Z thinkTime) = true).
    { apply Qle_bool_iff. change 1%Q with (inject_Z 1). rewrite <- Zle_Qle. lia. }
    assert (H2' : Qle_bool (inject_Z thinkTime) 2147483647 = true).
    { apply Qle_bool_iff. change 2147483647%Q with (inject_Z 2147483647).
      rewrite <- Zle_Qle. lia. }
    by rewrite H1', H2'. }
  rewrite Hdelay, <- inject_Z_plus, <- Zle_Qle in Hsince. done.
Qed.

Lemma think_time_is_respected_witness :
  (0 < 100 /\ userPromises two_actors !! 0%nat = Some (InFlight 0)) /\
  userPromises
    (run (handle 100 1000) [Tick 150; Wake 0]
       (handle 100 1000 (Settle 0 Completes) two_actors)) !! 0%nat
  = Some (InFlight 150) /\
  clock two_actors + 100 <= 150.
Proof.
  apply conj_with; [split; [lia|reflexivity]|].
  intros (Hthink & Hi).
  apply conj_with; [reflexivity|].
  intros Hrun.
  exact (proj1 (proj2 (proj2 (think_time_is_respected 100 1000 0 0 Completes
                                two_actors [Tick 150; Wake 0] Hthink Hi)
                         150 Hrun))
           ltac:(lia)).
Defined.

(** ** More on loadTest *)

(** The state in which [loadTest] enters its loop, and the parameters it
    gives to the loop and to the actors. *)
Lemma loadTest_run options tr s r tr' s' :
  loadTest options tr s = Fulfilled (r, tr', s') ->
  let s0 :=
    setUserPromises []
      (setMetrics (setStartTime (clock s) (metrics (resetMetrics s)))
         (resetMetrics s)) in
  let thinkTime := default 0 (LoadOptions.thinkTime options) in
  let endTime := (inject_Z (clock s) + LoadOptions.duration options * 1000)%Q in
  let rampUpTime := default 0%Q (LoadOptions.rampUpTime options) in
  let rampUpInterval :=
    if Qltb 0 rampUpTime
    then ndiv (Fin (rampUpTime * 1000)) (ofZ (LoadOptions.users options))
    else Fin 0 in
  exists tr1 s1 pre,
    loadLoop thinkTime endTime rampUpInterval
      (Z.to_nat (LoadOptions.users options)) tr s0 = Fulfilled (tr1, s1) /\
    let s2 := run (handle thinkTime endTime) pre s1 in
    allExited s2 = true /\
    s' = setMetrics (setEndTime (clock s2) (metrics s2)) s2 /\
    r = generateLoadTestResult "Load Test" s'.
Proof.
  unfold loadTest. simpl.
  destruct (loadLoop _ _ _ _ tr _) as [|[tr1 s1]|] eqn:Hloop; simpl; try done.
  destruct (awaitAll _ _ tr1 s1) as [|[tr2 s2]|] eqn:Hjoin; simpl; try done.
  intros [= <- <- <-].
  apply awaitAll_run in Hjoin. destruct Hjoin as (pre & -> & -> & Hexit).
  by exists (pre ++ tr2), s1, pre.
Qed.

Lemma spin_late endTime tr :
  forall s tr' s',
    spin endTime tr s = Fulfilled (tr', s') -> (endTime <= inject_Z (clock s'))%Q.
Proof.
  induction tr as [|e tr IH]; intros s tr' s'; simpl;
    destruct (Qltb (inject_Z (clock s)) endTime) eqn:Ht; try done;
    try (intros [= <- <-]; by apply Qltb_ge).
  destruct e; apply IH.
Qed.

(** The loop of [loadTest] is left with the clock at the deadline or
    later. *)
Lemma loadLoop_late thinkTime endTime rampUpInterval waiting :
  forall tr s tr' s',
    loadLoop thinkTime endTime rampUpInterval waiting tr s = Fulfilled (tr', s') ->
    (endTime <= inject_Z (clock s'))%Q.
Proof.
  induction waiting as [|waiting IH]; intros tr s tr' s'; simpl;
    destruct (passTime tr s) as [tr1 s1];
    (destruct (Qltb (inject_Z (clock s1)) endTime) eqn:Ht;
     [|intros [= <- <-]; by apply Qltb_ge]).
  - apply spin_late.
  - destruct (positive rampUpInterval); [|apply IH].
    destruct (awaitTimer _ _ tr1 _) as [|[tr2 s2]|]; simpl; try done. apply IH.
Qed.

(** What every turn of the event loop and every start of an actor keeps,
    the loop of [loadTest] keeps. *)
Lemma loadLoop_invariant (P : Engine -> Prop) thinkTime endTime rampUpInterval :
  (forall e s, P s -> P (handle thinkTime endTime e s)) ->
  (forall s, P s -> P (simulateUser endTime s)) ->
  forall waiting tr s tr' s',
    loadLoop thinkTime endTime rampUpInterval waiting tr s = Fulfilled (tr', s') ->
    P s -> P s'.
Proof.
  intros Hstep Hstart.
  assert (Htick : forall d s, P s -> P (tick d s)).
  { intros d s. apply (Hstep (Tick d)). }
  assert (Hpass : forall tr s tr' s', passTime tr s = (tr', s') -> P s -> P s').
  { intros tr s tr' s'. unfold passTime.
    destruct tr as [|[d| | | |] tr0]; intros [= <- <-]; auto. }
  assert (Hspin : forall tr s tr' s',
            spin endTime tr s = Fulfilled (tr', s') -> P s -> P s').
  { induction tr as [|e tr IH]; intros s tr' s'; simpl;
      destruct (Qltb _ _); try done; try (by intros [= <- <-]).
    destruct e; intros H Hs; apply (IH _ _ _ H); auto. }
  assert (Hsleep : forall wakeAt tr s tr' s',
            awaitTimer (handle thinkTime endTime) wakeAt tr s = Fulfilled (tr', s') ->
            P s -> P s').
  { intros wakeAt. induction tr as [|e tr IH]; intros s tr' s'; simpl; [done|].
    destruct e as [d|i o|i| |];
      try (intros H Hs; apply (IH _ _ _ H); by apply Hstep).
    destruct (Qle_bool _ _); [by intros [= <- <-]|]. apply IH. }
  induction waiting as [|waiting IH]; intros tr s tr' s'; simpl;
    destruct (passTime tr s) as [tr1 s1] eqn:Hp;
    (destruct (Qltb _ _); [|intros [= <- <-]; by eapply Hpass]).
  - intros H Hs. eapply Hspin; [exact H|]. by eapply Hpass.
  - destruct (positive rampUpInterval).
    + destruct (awaitTimer _ _ tr1 _) as [|[tr2 s2]|] eqn:Hw; simpl; try done.
      intros H Hs. eapply IH; [exact H|]. eapply Hsleep; [exact Hw|].
      apply Hstart. by eapply Hpass.
    + intros H Hs. eapply IH; [exact H|]. apply Hstart. by eapply Hpass.
Qed.

Lemma awaitTimer_frame thinkTime endTime wakeAt tr :
  forall s tr' s',
    awaitTimer (handle thinkTime endTime) wakeAt tr s = Fulfilled (tr', s') ->
    frame s s'.
Proof.
  induction tr as [|e tr IH]; intros s tr' s'; simpl; [done|].
  destruct e as [d|i o|i| |];
    try (intros H; apply IH in H;
         eapply frame_trans; [apply handle_frame|exact H]).
  destruct (Qle_bool _ _); [intros [= <- <-]; apply frame_refl|apply IH].
Qed.

(** The loop starts at most [waiting] actors. *)
Lemma loadLoop_actors thinkTime endTime rampUpInterval waiting :
  forall tr s tr' s',
    loadLoop thinkTime endTime rampUpInterval waiting tr s = Fulfilled (tr', s') ->
    (length (userPromises s) <= length (userPromises s')
     <= length (userPromises s) + waiting)%nat.
Proof.
  induction waiting as [|waiting IH]; intros tr s tr' s'; simpl;
    destruct (passTime tr s) as [tr1 s1] eqn:Hp;
    apply passTime_idle in Hp; destruct Hp as (_ & Hu & _);
    (destruct (Qltb _ _); [|intros [= <- <-]; rewrite Hu; lia]).
  - intros H. apply spin_idle in H. destruct H as (_ & _ & ->). rewrite Hu. lia.
  - destruct (simulateUser_facts endTime s1) as (_ & _ & _ & _ & Hl).
    destruct (positive rampUpInterval).
    + destruct (awaitTimer _ _ tr1 _) as [|[tr2 s2]|] eqn:Hw; simpl; try done.
      apply awaitTimer_frame in Hw. destruct Hw as (_ & _ & _ & Hl2).
      intros H. apply IH in H. rewrite Hl2, Hl, Hu in H. lia.
    + intros H. apply IH in H. rewrite Hl, Hu in H. lia.
Qed.


(** Property X2.  In every load run that completes, each recorded latency
    lies between 0 and the time the run took, so that
    [0 <= minResponseTime <= maxResponseTime <= elapsed] and the average
    latency is a rational in the same range; the run does not complete
    before its deadline [start + duration * 1000]; at most [users] actors
    were started, and all of them have returned. *)
Theorem load_latencies_within_run options tr s r tr' s' :
  loadTest options tr s = Fulfilled (r, tr', s') ->
  let elapsed := clock s' - clock s in
  Forall (fun x => 0 <= x <= elapsed) (Metrics.responseTimes (metrics s')) /\
  0 <= LoadTestResult.minResponseTime r /\
  LoadTestResult.minResponseTime r <= LoadTestResult.maxResponseTime r /\
  LoadTestResult.maxResponseTime r <= elapsed /\
  within 0 elapsed (LoadTestResult.avgResponseTime r) /\
  (inject_Z (clock s) + LoadOptions.duration options * 1000 <= inject_Z (clock s'))%Q /\
  (length (userPromises s') <= Z.to_nat (LoadOptions.users options))%nat /\
  allExited s' = true.
Proof.
  intros Hrun elapsed.
  destruct (loadTest_run _ _ _ _ _ _ Hrun) as (tr1 & s1 & pre & Hloop & Hexit & Hs' & Hr).
  set (thinkTime := default 0 (LoadOptions.thinkTime options)) in *.
  set (endTime := (inject_Z (clock s) + _)%Q) in *.
  set (s0 := setUserPromises [] _) in Hloop.
  set (s2 := run (handle thinkTime endTime) pre s1) in *.
  assert (Hc' : clock s' = clock s2) by (by rewrite Hs').
  assert (Htimed : Timed (clock s) s2).
  { apply run_Timed.
    eapply (loadLoop_invariant (Timed (clock s))); [| |exact Hloop|].
    - intros e s3. apply handle_Timed.
    - intros s3. apply simulateUser_Timed.
    - unfold Timed, s0. simpl. split_and!; [lia|done|done]. }
  destruct Htimed as (Hclock & _ & Hlat).
  assert (Hlat' : Forall (fun x => 0 <= x <= elapsed)
                    (Metrics.responseTimes (metrics s'))).
  { unfold elapsed. rewrite Hc', Hs'. simpl. exact Hlat. }
  assert (Hlate : (endTime <= inject_Z (clock s'))%Q).
  { apply loadLoop_late in Hloop. eapply Qle_trans; [exact Hloop|].
    rewrite <- Zle_Qle, Hc'.
    by destruct (run_frame thinkTime endTime pre s1) as (? & _). }
  assert (Hactors : (length (userPromises s')
                     <= Z.to_nat (LoadOptions.users options))%nat).
  { apply loadLoop_actors in Hloop.
    destruct (run_frame thinkTime endTime pre s1) as (_ & _ & _ & Hl).
    fold s2 in Hl. rewrite Hs'. simpl. rewrite Hl. simpl in Hloop. lia. }
  assert (Helapsed : 0 <= elapsed) by (unfold elapsed; lia).
  split_and!; try done.
  - rewrite Hr. simpl.
    destruct (Metrics.responseTimes (metrics s')) as [|x l]; [done|].
    apply Forall_cons in Hlat'. destruct Hlat' as [Hx Hl].
    apply foldl_min_lower; [lia|]. eapply Forall_impl; [exact Hl|]. simpl. lia.
  - rewrite Hr. simpl.
    destruct (Metrics.responseTimes (metrics s')) as [|x l]; [done|].
    by apply foldl_min_le_max.
  - rewrite Hr. simpl.
    destruct (Metrics.responseTimes (metrics s')) as [|x l]; [done|].
    apply Forall_cons in Hlat'. destruct Hlat' as [Hx Hl].
    apply foldl_max_upper; [lia|]. eapply Forall_impl; [exact Hl|]. simpl. lia.
  - rewrite Hr. simpl. apply average_within; [lia|done].
  - by rewrite Hs'.
Qed.

Lemma load_latencies_within_run_witness :
  exists r tr' s',
    loadTest load_options load_events (newEngine 0) = Fulfilled (r, tr', s') /\
    LoadTestResult.maxResponseTime r <= clock s' - 0 /\
    (length (userPromises s') <= 2)%nat.
Proof.
  do 3 eexists.
  apply conj_with; [vm_compute; reflexivity|].
  intros Hrun.
  pose proof (load_latencies_within_run _ _ _ _ _ _ Hrun) as H.
  split.
  - exact (proj1 (proj2 (proj2 (proj2 H)))).
  - exact (proj1 (proj2 (proj2 (proj2 (proj2 (proj2 (proj2 H))))))).
Defined.



(** Property X4.  In the result of every load run that completes the error
    rate is a percentage (a rational between 0 and 100), 100 exactly when a
    call was made and none succeeded; the reported duration is the elapsed
    time in seconds and is not less than the duration asked for; and the
    throughput is a rational that is not negative unless the run began and
    ended at the same clock reading, in which case it is [NaN] (no call) or
    [Infinity]. *)
Theorem load_result_ranges options tr s r tr' s' :
  loadTest options tr s = Fulfilled (r, tr', s') ->
  let elapsed := clock s' - clock s in
  percentage (LoadTestResult.errorRate r) /\
  (LoadTestResult.errorRate r =n= Fin 100 <->
   0 < LoadTestResult.totalRequests r /\ LoadTestResult.successfulRequests r = 0) /\
  LoadTestResult.duration r = Fin (inject_Z elapsed / 1000) /\
  (LoadOptions.duration options <= inject_Z elapsed / 1000)%Q /\
  (0 < elapsed ->
   exists q, LoadTestResult.throughput r = Fin q /\ (0 <= q)%Q /\
             (q * (inject_Z elapsed / 1000) == inject_Z (LoadTestResult.totalRequests r))%Q) /\
  (elapsed = 0 ->
   LoadTestResult.throughput r
   = if LoadTestResult.totalRequests r =? 0 then NaN else PosInf).
Proof.
  intros Hrun elapsed.
  pose proof (loadTest_result _ _ _ _ _ _ Hrun)
    as (Hr & Hstart & Hend & Hclock & Herrors & _).
  destruct (loadTest_run _ _ _ _ _ _ Hrun) as (tr1 & s1 & pre & Hloop & Hexit & Hs' & _).
  assert (Hlate : (inject_Z (clock s) + LoadOptions.duration options * 1000
                   <= inject_Z (clock s'))%Q).
  { apply loadLoop_late in Hloop. eapply Qle_trans; [exact Hloop|].
    rewrite <- Zle_Qle, Hs'. simpl.
    by destruct (run_frame (default 0 (LoadOptions.thinkTime options))
                   (inject_Z (clock s) + LoadOptions.duration options * 1000)%Q
                   pre s1) as (? & _). }
  rewrite Hr. unfold generateLoadTestResult. simpl. rewrite Hstart, Hend.
  fold elapsed.
  set (n := Z.of_nat (length (Metrics.responseTimes (metrics s')))).
  set (errors := Metrics.errors (metrics s')) in *.
  assert (Hn : 0 <= n) by (unfold n; lia).
  assert (HelQ : inject_Z elapsed == inject_Z (clock s') - inject_Z (clock s)).
  { unfold elapsed, Z.sub. by rewrite inject_Z_plus, inject_Z_opp. }
  split_and!.
  - destruct (Z.ltb_spec 0 (n + errors)) as [Hpos|Hpos].
    + destruct (errorPercentage_range (Metrics.responseTimes (metrics s')) errors Herrors)
        as (_ & Hrange).
      destruct (Hrange Hpos) as (_ & Hp). exact Hp.
    + exists 0%Q. split; [done|]. split; lra.
  - destruct (Z.ltb_spec 0 (n + errors)) as [Hpos|Hpos].
    + unfold ofZ. simpl. rewrite Qeq_bool_inject_Z by lia. simpl.
      pose proof (inject_Z_pos _ Hpos) as HtQ.
      assert (Hne : ~ (inject_Z (n + errors) == 0)%Q).
      { intros H0. rewrite H0 in HtQ. by apply Qlt_irrefl in HtQ. }
      split.
      * intros Hfull. split; [done|].
        assert (H1 : (inject_Z errors / inject_Z (n + errors) == 1)%Q) by lra.
        assert (H2 : (inject_Z errors == inject_Z (n + errors))%Q).
        { transitivity (inject_Z errors / inject_Z (n + errors) * inject_Z (n + errors))%Q.
          - symmetry. by apply Qdiv_mult_cancel.
          - rewrite H1. ring. }
        unfold Qeq in H2. simpl in H2. lia.
      * intros [_ Hzero]. rewrite Hzero, Z.add_0_l in Hne |- *.
        field. exact Hne.
    + split; [|lia]. simpl. intros H. exfalso. revert H. unfold Qeq. simpl. lia.
  - done.
  - apply Qle_shift_div_l; lra.
  - intros Hpos. unfold ofZ. simpl.
    pose proof (inject_Z_pos _ Hpos) as HeQ.
    assert (Hsec : (0 < inject_Z elapsed / 1000)%Q).
    { apply Qlt_shift_div_l; lra. }
    destruct (Qeq_bool (inject_Z elapsed / 1000) 0) eqn:E.
    { apply Qeq_bool_iff in E. rewrite E in Hsec. by apply Qlt_irrefl in Hsec. }
    eexists. split; [reflexivity|]. split.
    + apply Qle_shift_div_l; [done|]. rewrite Qmult_0_l.
      apply inject_Z_nonneg. lia.
    + apply Qdiv_mult_cancel.
      intros H0. rewrite H0 in Hsec. by apply Qlt_irrefl in Hsec.
  - intros Hzero. rewrite Hzero. unfold ofZ. simpl.
    destruct (Z.eqb_spec (n + errors) 0) as [->|Hne]; [done|].
    rewrite Qeq_bool_inject_Z by done.
    assert (Hpos : 0 < n + errors) by lia.
    apply inject_Z_pos, Qltb_lt in Hpos. by rewrite Hpos.
Qed.

Lemma load_result_ranges_witness :
  exists r tr' s',
    loadTest load_options load_events (newEngine 0) = Fulfilled (r, tr', s') /\
    percentage (LoadTestResult.errorRate r) /\
    (LoadOptions.duration load_options <= inject_Z (clock s' - 0) / 1000)%Q.
Proof.
  do 3 eexists.
  apply conj_with; [vm_compute; reflexivity|].
  intros Hrun.
  pose proof (load_result_ranges _ _ _ _ _ _ Hrun) as H.
  split.
  - exact (proj1 H).
  - exact (proj1 (proj2 (proj2 (proj2 H)))).
Defined.

(** ** The ramp-up of loadTest *)

Lemma awaitTimer_late step wakeAt tr :
  forall s tr' s',
    awaitTimer step wakeAt tr s = Fulfilled (tr', s') ->
    (wakeAt <= inject_Z (clock s'))%Q.
Proof.
  induction tr as [|e tr IH]; intros s tr' s'; simpl; [done|].
  destruct e as [d|i o|i| |]; try apply IH.
  destruct (Qle_bool wakeAt (inject_Z (clock s))) eqn:Hdue; [|apply IH].
  intros [= <- <-]. by apply Qle_bool_iff.
Qed.

Lemma delayOf_pos (a : num) : (1 <= delayOf a)%Q.
Proof. destruct a; simpl; try lra. apply timerDelay_pos. Qed.

(** With a ramp-up interval the loop waits one delay after each start: when
    it has started [m + 1] actors, [m] delays have passed and the clock was
    still before the deadline. *)
Lemma loadLoop_spacing thinkTime endTime rampUpInterval waiting :
  positive rampUpInterval = true ->
  forall tr s tr' s' m,
    loadLoop thinkTime endTime rampUpInterval waiting tr s = Fulfilled (tr', s') ->
    length (userPromises s') = (length (userPromises s) + S m)%nat ->
    (inject_Z (clock s) + inject_Z (Z.of_nat m) * delayOf rampUpInterval
     < endTime)%Q.
Proof.
  intros Hramp. pose proof (delayOf_pos rampUpInterval) as Hdelay.
  induction waiting as [|waiting IH]; intros tr s tr' s' m; simpl;
    destruct (passTime tr s) as [tr1 s1] eqn:Hp;
    apply passTime_idle in Hp; destruct Hp as (_ & Hu & Hc);
    (destruct (Qltb (inject_Z (clock s1)) endTime) eqn:Ht;
     [|intros [= <- <-]; rewrite Hu; lia]).
  - intros H. apply spin_idle in H. destruct H as (_ & _ & ->). rewrite Hu. lia.
  - rewrite Hramp.
    destruct (simulateUser_facts endTime s1) as (Hcs & _ & _ & _ & Hl).
    destruct (awaitTimer _ _ tr1 _) as [|[tr2 s2]|] eqn:Hw; simpl; try done.
    pose proof (awaitTimer_late _ _ _ _ _ _ Hw) as Hlate.
    apply awaitTimer_frame in Hw. destruct Hw as (_ & _ & _ & Hl2).
    rewrite Hcs in Hlate.
    intros H Hlen. apply Qltb_lt in Ht. rewrite Zle_Qle in Hc.
    destruct m as [|m].
    + change (inject_Z (Z.of_nat 0)) with 0%Q. lra.
    + specialize (IH _ _ _ _ m H). rewrite Hl2, Hl, Hu in IH.
      specialize (IH ltac:(lia)). rewrite inject_Z_succ. lra.
Qed.

(** Property X5.  With a positive ramp-up time and a positive number of
    users the loop of [loadTest] waits [rampUpTime * 1000 / users]
    milliseconds (as a timer delay) after it has started an actor, and starts
    the next one only if the clock is still before the deadline: when a run
    has started [m + 1] actors, [m] delays are less than its duration, so
    that a ramp-up which is too long for the duration starts fewer than
    [users] actors. *)
Theorem load_rampUp_spaces_the_starts options rampUpTime tr s r tr' s' :
  LoadOptions.rampUpTime options = Some rampUpTime ->
  (0 < rampUpTime)%Q ->
  0 < LoadOptions.users options ->
  loadTest options tr s = Fulfilled (r, tr', s') ->
  let delay :=
    timerDelay (rampUpTime * 1000 / inject_Z (LoadOptions.users options)) in
  forall m,
    length (userPromises s') = S m ->
    (inject_Z (Z.of_nat m) * delay < LoadOptions.duration options * 1000)%Q.
Proof.
  intros Hsome Hramp Husers Hrun delay m Hlen.
  destruct (loadTest_run _ _ _ _ _ _ Hrun) as (tr1 & s1 & pre & Hloop & Hexit & Hs' & Hr).
  rewrite Hsome in Hloop. simpl in Hloop.
  apply Qltb_lt in Hramp. rewrite Hramp in Hloop.
  unfold ofZ in Hloop. simpl in Hloop.
  rewrite Qeq_bool_inject_Z in Hloop by lia.
  assert (Hpos : positive (Fin (rampUpTime * 1000
                                / inject_Z (LoadOptions.users options))) = true).
  { simpl. apply Qltb_lt. apply Qltb_lt in Hramp.
    apply Qlt_shift_div_l; [by apply inject_Z_pos|]. lra. }
  destruct (run_frame (default 0 (LoadOptions.thinkTime options))
              (inject_Z (clock s) + LoadOptions.duration options * 1000)%Q pre s1)
    as (_ & _ & _ & Hl).
  pose proof (loadLoop_spacing _ _ _ _ Hpos _ _ _ _ m Hloop) as Hspace.
  simpl in Hspace. fold delay in Hspace.
  assert (Hlen1 : length (userPromises s1) = S m).
  { rewrite <- Hl, <- Hlen, Hs'. done. }
  specialize (Hspace Hlen1). lra.
Qed.

Lemma load_rampUp_spaces_the_starts_witness :
  exists r tr' s',
    (LoadOptions.rampUpTime load_options_ramp = Some 1%Q /\ (0 < 1)%Q /\
     0 < LoadOptions.users load_options_ramp) /\
    loadTest load_options_ramp load_events_ramp (newEngine 0)
      = Fulfilled (r, tr', s') /\
    LoadTestResult.totalRequests r = 3 /\
    (inject_Z (Z.of_nat 1) * timerDelay (1 * 1000 / inject_Z 2)
     < LoadOptions.duration load_options_ramp * 1000)%Q.
Proof.
  do 3 eexists.
  split; [by compute|].
  apply conj_with; [vm_compute; reflexivity|].
  intros Hrun. split; [reflexivity|].
  exact (load_rampUp_spaces_the_starts load_options_ramp 1%Q _ _ _ _ _
           eq_refl ltac:(by compute) eq_refl Hrun 1%nat eq_refl).
Defined.

(** ** More on stressTest *)

(** [Promise.all] resolves as soon as the actors have joined: at once when
    they have joined already. *)
Lemma awaitAll_first {St : Type} (step : event -> St -> St) (joined : St -> bool) tr :
  forall s tr' s',
    awaitAll step joined tr s = Fulfilled (tr', s') ->
    exists pre, tr = pre ++ tr' /\ s' = run step pre s /\ joined s' = true /\
                (joined s = true -> pre = []).
Proof.
  induction tr as [|e tr IH]; intros s tr' s'; simpl.
  - destruct (joined s) eqn:J; [|done].
    intros [= <- <-]. by exists [].
  - destruct (joined s) eqn:J.
    + intros [= <- <-]. by exists [].
    + intros H. destruct (IH _ _ _ H) as (pre & -> & -> & J' & _).
      by exists (e :: pre).
Qed.

(** One step of a stress run, begun in [s1] with the metrics of the step
    reset and joined in [s3]. *)
Lemma stress_step_facts stepDuration users pre s1 :
  let stepEndTime := (inject_Z (clock s1) + stepDuration * 1000)%Q in
  let s2 := launchAll stepEndTime users (setMetrics (resetStep (metrics s1)) s1) in
  let s3 := run (handle 0 stepEndTime) pre s2 in
  allExited s3 = true ->
  (allExited s2 = true -> pre = []) ->
  stepFacts stepDuration
    (Sample.mk users (average (Metrics.responseTimes (metrics s3)))
       (errorPercentage (Metrics.responseTimes (metrics s3))
          (Metrics.errors (metrics s3))))
    (mkPhaseLog (clock s1) stepEndTime (clock s3) (length (userPromises s3))
       (Metrics.responseTimes (metrics s3)) (Metrics.errors (metrics s3))
       (invoked s3 - invoked s1)).
Proof.
  intros stepEndTime s2 s3 Hjoined Hnow.
  destruct (launchAll_facts stepEndTime users
              (setMetrics (resetStep (metrics s1)) s1)) as (Hc2 & Hm2 & _ & _ & Hl2).
  fold s2 in Hc2, Hm2, Hl2. simpl in Hc2, Hm2.
  pose proof (run_frame 0 stepEndTime pre s2) as (Hc3 & _ & _ & Hl3).
  fold s3 in Hc3, Hl3.
  pose proof (run_progress 0 stepEndTime pre s2) as (_ & _ & He3 & Hun).
  fold s3 in He3, Hun.
  assert (Hinv2 : invoked s2
                  = if Qltb (inject_Z (clock s1)) stepEndTime
                    then invoked s1 + Z.of_nat (Z.to_nat users) else invoked s1).
  { unfold s2. by rewrite launchAll_invoked. }
  constructor; simpl.
  - done.
  - by rewrite Hl3.
  - done.
  - done.
  - lia.
  - intros Hpos. rewrite <- Hc2 in *.
    assert (Hex : Forall (fun a => a = Exited ->
                                   (stepEndTime <= inject_Z (clock s3))%Q)
                    (userPromises s3)).
    { unfold s3.
      apply (run_invariant (handle 0 stepEndTime)
               (fun s => Forall (fun a => a = Exited ->
                                          (stepEndTime <= inject_Z (clock s))%Q)
                           (userPromises s))).
      - intros e s0. apply handle_exits.
      - rewrite Hc2.
        apply (launchAll_exits stepEndTime users
                 (setMetrics (resetStep (metrics s1)) s1)). }
    apply joined_late; [done|done|]. intros Hnil. rewrite Hnil in Hpos.
    simpl in Hpos. lia.
  - assert (Htimed : Timed (clock s1) s3).
    { apply run_Timed. apply launchAll_Timed; simpl; [lia|done]. }
    by destruct Htimed as (_ & _ & ?).
  - rewrite Hm2 in He3. simpl in He3. lia.
  - unfold s2 in Hun. rewrite launchAll_unrecorded in Hun.
    apply allExited_pendingCalls in Hjoined.
    unfold unrecorded in Hun. rewrite Hjoined in Hun. simpl in Hun.
    unfold pendingCalls in Hun. simpl in Hun. lia.
  - intros Hbusy. apply Qltb_lt in Hbusy. rewrite Hbusy in Hinv2.
    pose proof (run_invoked 0 stepEndTime pre s2) as Hmono. fold s3 in Hmono.
    rewrite Hl3, Hl2. lia.
  - intros Hidle.
    assert (Hpre : pre = []).
    { apply Hnow. apply launchAll_late. done. }
    apply Qltb_ge in Hidle. rewrite Hidle in Hinv2.
    unfold s3. rewrite Hpre. simpl. fold s2. lia.
Qed.

Lemma stressLoop_facts fuel options endTime :
  forall users results log tr s results' log' tr' s',
    stressLoop fuel options endTime users results log tr s
      = Fulfilled (results', log', tr', s') ->
    exists new newlog,
      results' = results ++ new /\ log' = log ++ newlog /\
      Forall2 (stepFacts (StressOptions.stepDuration options)) new newlog /\
      sequential (clock s) newlog /\
      Forall (fun p => joinTime p <= clock s') newlog /\
      clock s <= clock s'.
Proof.
  induction fuel as [|fuel IH]; intros users results log tr s results' log' tr' s';
    simpl; [done|].
  destruct (Z.leb_spec users (StressOptions.maxUsers options)) as [HM|HM].
  2:{ intros [= <- <- <- <-]. exists [], []. rewrite !app_nil_r.
      split_and!; done. }
  destruct (passTime tr s) as [tr1 s1] eqn:Hpass.
  apply passTime_frame in Hpass. destruct Hpass as (Hc1 & _).
  destruct (Qltb (inject_Z (clock s1)) endTime) eqn:Htime.
  2:{ intros [= <- <- <- <-]. exists [], []. rewrite !app_nil_r.
      split_and!; done. }
  set (stepEndTime := (inject_Z (clock s1) + _)%Q).
  set (s2 := launchAll stepEndTime users (setMetrics (resetStep (metrics s1)) s1)).
  destruct (awaitAll (handle 0 stepEndTime) allExited tr1 s2) as [|[tr3 s3]|] eqn:Hawait;
    simpl; try done.
  apply awaitAll_first in Hawait.
  destruct Hawait as (pre & -> & Hs3 & Hjoined & Hnow).
  pose proof (run_frame 0 stepEndTime pre s2) as (Hc3 & _).
  rewrite <- Hs3 in Hc3.
  assert (Hc2 : clock s2 = clock s1).
  { by destruct (launchAll_facts stepEndTime users
                   (setMetrics (resetStep (metrics s1)) s1)) as (? & _). }
  set (r := Sample.mk users _ _). set (p := mkPhaseLog _ _ _ _ _ _ _).
  assert (Hfacts : stepFacts (StressOptions.stepDuration options) r p).
  { unfold r, p. rewrite Hs3 in *.
    by apply (stress_step_facts (StressOptions.stepDuration options) users pre s1). }
  destruct (nge _ _) eqn:Hthr.
  - intros [= <- <- <- <-]. exists [r], [p].
    split_and!; try done; simpl.
    + constructor; [exact Hfacts|constructor].
    + split_and!; try done; lia.
    + constructor; [simpl; lia|constructor].
    + lia.
  - intros H. apply IH in H.
    destruct H as (new & newlog & -> & -> & Hall & Hseq & Hjoin & Hc4).
    exists (r :: new), (p :: newlog). rewrite <- !app_assoc. simpl.
    split_and!; try done; try lia.
    + by constructor.
    + constructor; [simpl; lia|done].
Qed.

Lemma stressTest_facts fuel options tr s r log tr' s' :
  stressTest fuel options tr s = Fulfilled (r, log, tr', s') ->
  Forall2 (stepFacts (StressOptions.stepDuration options))
    (StressTestResult.results r) log /\
  sequential (clock s) log /\
  Forall (fun p => joinTime p <= clock s') log.
Proof.
  unfold stressTest.
  set (s0 := setMetrics _ (resetMetrics s)).
  destruct (stressLoop fuel options _ _ [] [] tr s0)
    as [|[[[results l] tr1] s1]|] eqn:Hloop; simpl; try done.
  intros [= <- <- <- <-]. simpl.
  apply stressLoop_facts in Hloop.
  destruct Hloop as (new & newlog & -> & -> & Hall & Hseq & Hjoin & _).
  by simpl in *.
Qed.

(** Property X6.  The steps of every stress run that completes come one
    after the other: a step starts when the one before has joined, the first
    one not before the start of the run and the last one joins before the
    run ends.  Each step starts as many actors as its sample says, with the
    deadline [stepDuration] seconds after its start; with an actor it does
    not join before that deadline; and every latency of the step, hence the
    average of its sample, lies between 0 and the time the step took. *)
Theorem stress_steps_run_in_sequence fuel options tr s r log tr' s' :
  stressTest fuel options tr s = Fulfilled (r, log, tr', s') ->
  sequential (clock s) log /\
  Forall (fun p => joinTime p <= clock s') log /\
  Forall2 (fun x p =>
             launched p = Z.to_nat (Sample.users x) /\
             phaseEndTime p
             = (inject_Z (phaseStartTime p)
                + StressOptions.stepDuration options * 1000)%Q /\
             ((0 < launched p)%nat ->
              (phaseEndTime p <= inject_Z (joinTime p))%Q) /\
             Forall (fun t => 0 <= t <= joinTime p - phaseStartTime p)
               (latencies p) /\
             within 0 (joinTime p - phaseStartTime p) (Sample.avgResponseTime x))
    (StressTestResult.results r) log.
Proof.
  intros Hrun. apply stressTest_facts in Hrun.
  destruct Hrun as (Hfacts & Hseq & Hjoin).
  split_and!; try done.
  eapply Forall2_impl; [exact Hfacts|].
  intros x p [Hd Hl Ha He Hj Hlate Hlat Hf Hc Hb Hi].
  split_and!; try done.
  rewrite Ha. apply average_within; [lia|done].
Qed.

Lemma stress_steps_run_in_sequence_witness :
  exists r log tr' s',
    stressTest 10 stress_options stress_events (newEngine 0)
      = Fulfilled (r, log, tr', s') /\
    phaseStartTime <$> log = [0; 1000; 2000; 3000] /\
    sequential 0 log.
Proof.
  do 4 eexists.
  apply conj_with; [vm_compute; reflexivity|].
  intros Hrun. split; [reflexivity|].
  exact (proj1 (stress_steps_run_in_sequence _ _ _ _ _ _ _ _ Hrun)).
Defined.

(** Property X7.  In every stress run the error rate of a sample is [NaN]
    exactly when its step made no call (then the average is 0); otherwise it
    is the percentage [failures / calls * 100] of the calls of the step that
    threw, a rational between 0 and 100. *)
Theorem stress_errorRate_of_step fuel options tr s r log tr' s' :
  stressTest fuel options tr s = Fulfilled (r, log, tr', s') ->
  Forall2 (fun x p =>
             0 <= failures p <= calls p /\
             (Sample.errorRate x = NaN <-> calls p = 0) /\
             (calls p = 0 -> Sample.avgResponseTime x = Fin 0) /\
             (0 < calls p ->
              Sample.errorRate x
              = Fin (inject_Z (failures p) / inject_Z (calls p) * 100) /\
              percentage (Sample.errorRate x)))
    (StressTestResult.results r) log.
Proof.
  intros Hrun. apply stressTest_facts in Hrun.
  destruct Hrun as (Hfacts & _ & _).
  eapply Forall2_impl; [exact Hfacts|].
  intros x p [Hd Hl Ha He Hj Hlate Hlat Hf Hc Hb Hi].
  destruct (errorPercentage_range (latencies p) (failures p) Hf) as (Hnone & Hsome).
  rewrite <- Hc in Hnone, Hsome. rewrite <- He in Hnone, Hsome.
  assert (Hcalls : 0 <= calls p) by lia.
  split_and!; try lia.
  - split; [|done]. intros Hnan.
    destruct (Z.eq_dec (calls p) 0) as [|Hne]; [done|].
    destruct Hsome as (Heq & _); [lia|]. congruence.
  - intros Hzero. rewrite Ha.
    destruct (latencies p); [done|]. simpl in Hc. lia.
  - done.
Qed.

Lemma stress_errorRate_of_step_witness :
  exists r log tr' s',
    stressTest 10 stress_options stress_events (newEngine 0)
      = Fulfilled (r, log, tr', s') /\
    calls <$> log = [5; 10; 15; 20] /\
    Forall (fun x => percentage (Sample.errorRate x)) (StressTestResult.results r).
Proof.
  do 4 eexists.
  apply conj_with; [vm_compute; reflexivity|].
  intros Hrun. split; [reflexivity|].
  pose proof (stress_errorRate_of_step _ _ _ _ _ _ _ _ Hrun) as H.
  apply Forall2_cons_1 in H. destruct H as [H1 H].
  apply Forall2_cons_1 in H. destruct H as [H2 H].
  apply Forall2_cons_1 in H. destruct H as [H3 H].
  apply Forall2_cons_1 in H. destruct H as [H4 _].
  apply Forall_cons; split;
    [exact (proj2 (proj2 (proj2 (proj2 H1)) ltac:(simpl; lia)))|].
  apply Forall_cons; split;
    [exact (proj2 (proj2 (proj2 (proj2 H2)) ltac:(simpl; lia)))|].
  apply Forall_cons; split;
    [exact (proj2 (proj2 (proj2 (proj2 H3)) ltac:(simpl; lia)))|].
  apply Forall_cons; split;
    [exact (proj2 (proj2 (proj2 (proj2 H4)) ltac:(simpl; lia)))|].
  constructor.
Defined.

Lemma or_else_Some (v b : Z) : v <> 0 -> or_else (Some v) b = v.
Proof. intros Hv. unfold or_else. by destruct (Z.eqb_spec v 0). Qed.



(** Property X9.  With a [stepDuration] that is zero or negative every step
    of a stress run is over when it starts: its actors return without a call
    and the step joins at the clock reading at which it started; its sample
    has 0 for the average and [NaN] for the error rate, which is never at
    least any threshold, so that the run is not stopped by [errorThreshold]
    and the breaking point reported is the concurrency of the last step. *)
Theorem stress_instant_steps_make_no_call fuel options tr s r log tr' s' :
  (StressOptions.stepDuration options <= 0)%Q ->
  stressTest fuel options tr s = Fulfilled (r, log, tr', s') ->
  Forall2 (fun x p =>
             calls p = 0 /\ joinTime p = phaseStartTime p /\
             Sample.avgResponseTime x = Fin 0 /\ Sample.errorRate x = NaN)
    (StressTestResult.results r) log /\
  Forall (fun x => forall threshold, nge (Sample.errorRate x) threshold = false)
    (StressTestResult.results r) /\
  StressTestResult.breakingPoint r
  = or_else (Sample.users <$> last (StressTestResult.results r)) 0.
Proof.
  intros Hd Hrun.
  destruct (stressTest_facts _ _ _ _ _ _ _ _ Hrun) as (Hfacts & _ & _).
  apply stressTest_Steps in Hrun. destruct Hrun as (_ & _ & Hr).
  assert (Hall : Forall2 (fun x p =>
             calls p = 0 /\ joinTime p = phaseStartTime p /\
             Sample.avgResponseTime x = Fin 0 /\ Sample.errorRate x = NaN)
    (StressTestResult.results r) log).
  { eapply Forall2_impl; [exact Hfacts|].
    intros x p [Hdl Hl Ha He Hj Hlate Hlat Hf Hc Hb Hi].
    destruct Hi as (Hzero & Hjoin); [rewrite Hdl; lra|].
    assert (Hnil : latencies p = []).
    { destruct (latencies p); [done|]. simpl in Hc. lia. }
    assert (Hfail : failures p = 0) by (rewrite Hnil in Hc; simpl in Hc; lia).
    rewrite Ha, He, Hnil, Hfail. done. }
  assert (Hnan : Forall (fun x => Sample.errorRate x = NaN)
                   (StressTestResult.results r)).
  { clear -Hall. induction Hall as [|x p l1 l2 (_ & _ & _ & ?) _ IH]; by constructor. }
  split_and!; [done| |].
  - eapply Forall_impl; [exact Hnan|]. intros x -> threshold. done.
  - rewrite Hr at 1. unfold generateStressTestResult. simpl.
    rewrite (find_none (fun y => nge (Sample.errorRate y) (Fin 5))); [done|].
    eapply Forall_impl; [exact Hnan|]. by intros x ->.
Qed.

Lemma stress_instant_steps_make_no_call_witness :
  exists r log tr' s',
    (StressOptions.stepDuration stress_options_instant <= 0)%Q /\
    stressTest 10 stress_options_instant [] (newEngine 0)
      = Fulfilled (r, log, tr', s') /\
    Sample.users <$> StressTestResult.results r = [5; 10] /\
    StressTestResult.breakingPoint r
    = or_else (Sample.users <$> last (StressTestResult.results r)) 0.
Proof.
  do 4 eexists.
  split; [by compute|].
  apply conj_with; [vm_compute; reflexivity|].
  intros Hrun. split; [reflexivity|].
  exact (proj2 (proj2 (stress_instant_steps_make_no_call 10 stress_options_instant
                         _ _ _ _ _ _ ltac:(by compute) Hrun))).
Defined.

(** Property X10.  In a stress run with a positive [stepSize] the breaking
    point is 0 exactly when no step ran; otherwise it is the concurrency of
    one of the samples, the [(i + 1)]-th multiple of [stepSize] for the
    sample of index [i], and lies between [stepSize] and [maxUsers]. *)
Theorem stress_breakingPoint_range fuel options tr s r log tr' s' :
  0 < StressOptions.stepSize options ->
  stressTest fuel options tr s = Fulfilled (r, log, tr', s') ->
  (StressTestResult.results r = [] <-> StressTestResult.breakingPoint r = 0) /\
  (StressTestResult.results r <> [] ->
   exists i x,
     StressTestResult.results r !! i = Some x /\
     StressTestResult.breakingPoint r = Sample.users x /\
     StressTestResult.breakingPoint r
     = (Z.of_nat i + 1) * StressOptions.stepSize options /\
     StressOptions.stepSize options <= StressTestResult.breakingPoint r
       <= StressOptions.maxUsers options).
Proof.
  intros HS Hrun.
  apply stressTest_Steps in Hrun. destruct Hrun as (Hsteps & _ & Hr).
  pose proof (Steps_users _ _ _ _ _ _ Hsteps) as Husers.
  pose proof (Steps_log _ _ _ _ _ _ Hsteps) as Hlog.
  set (results := StressTestResult.results r) in *.
  assert (Hbp : StressTestResult.breakingPoint r =
                or_else (Sample.users <$> find broken results)
                  (or_else (Sample.users <$> last results) 0)).
  { rewrite Hr. reflexivity. }
  assert (Hsample : forall i x, results !! i = Some x ->
            Sample.users x = (Z.of_nat i + 1) * StressOptions.stepSize options /\
            StressOptions.stepSize options <= Sample.users x
              <= StressOptions.maxUsers options).
  { intros i x Hi. rewrite (Husers _ _ Hi).
    destruct (Forall2_lookup_l _ _ _ _ _ Hlog Hi) as (p & _ & u & Hu & Hstep & _).
    destruct Hstep as (Hux & _). rewrite (Husers _ _ Hi) in Hux. nia. }
  assert (Hsome : results <> [] ->
            exists i x, results !! i = Some x /\
                        StressTestResult.breakingPoint r = Sample.users x).
  { intros Hne. rewrite Hbp.
    destruct (find broken results) as [x|] eqn:Hfind; simpl.
    - apply find_some in Hfind. destruct Hfind as [Hin _].
      apply list_elem_of_In, list_elem_of_lookup in Hin. destruct Hin as (i & Hi).
      exists i, x. split; [done|].
      apply or_else_Some. destruct (Hsample _ _ Hi). lia.
    - destruct (last results) as [x|] eqn:Hlast.
      + rewrite last_lookup in Hlast.
        exists (pred (length results)), x. split; [done|]. simpl.
        apply or_else_Some. destruct (Hsample _ _ Hlast). lia.
      + by apply last_None in Hlast. }
  split.
  - split.
    + intros Hnil. rewrite Hbp, Hnil. reflexivity.
    + intros Hzero. destruct results as [|x l] eqn:Hres; [done|]. exfalso.
      destruct Hsome as (i & y & Hi & Hy); [done|].
      destruct (Hsample _ _ Hi). lia.
  - intros Hne. destruct (Hsome Hne) as (i & x & Hi & Hx).
    exists i, x. destruct (Hsample _ _ Hi) as (Hmul & Hrange).
    split_and!; try done; lia.
Qed.

Lemma stress_breakingPoint_range_witness :
  exists r log tr' s',
    0 < StressOptions.stepSize stress_options /\
    stressTest 10 stress_options stress_events (newEngine 0)
      = Fulfilled (r, log, tr', s') /\
    (StressTestResult.results r = [] <-> StressTestResult.breakingPoint r = 0).
Proof.
  do 4 eexists.
  split; [reflexivity|].
  apply conj_with; [vm_compute; reflexivity|].
  intros Hrun.
  exact (proj1 (stress_breakingPoint_range 10 stress_options _ _ _ _ _ _
                  eq_refl Hrun)).
Defined.

(** ** More on spikeTest *)

(** [runPhase] gives the engine back with nothing but the clock (and the
    ghost counter of the calls) changed. *)
Lemma runPhase_engine users duration tr s r l tr' s' :
  runPhase users duration tr s = Fulfilled (r, l, tr', s') ->
  metrics s' = metrics s /\ userPromises s' = userPromises s /\
  monitoringData s' = monitoringData s /\
  monitoringIntervalId s' = monitoringIntervalId s /\
  clock s' = joinTime l /\ invoked s' = invoked s + calls l.
Proof.
  unfold runPhase.
  destruct (awaitAll _ _ tr _) as [|[tr2 p2]|]; simpl; try done.
  intros [= <- <- <- <-]. simpl. split_and!; try done. lia.
Qed.

(** A phase with no actor, or with a duration that is not positive, is over
    at once. *)
Lemma runPhase_idle users duration tr s :
  users <= 0 \/ (duration <= 0)%Q ->
  exists r l s',
    runPhase users duration tr s = Fulfilled (r, l, tr, s') /\
    clock s' = clock s /\
    Sample.users r = users /\
    Sample.avgResponseTime r = Fin 0 /\ Sample.errorRate r = NaN /\
    joinTime l = phaseStartTime l /\ calls l = 0.
Proof.
  intros Hidle. unfold runPhase.
  set (endTime := (inject_Z (clock s) + duration * 1000)%Q).
  set (p0 := mkPhase (clock s) (invoked s) [] 0 []).
  set (p1 := Nat.iter (Z.to_nat users) (simulateUserPhase endTime) p0).
  assert (H1 : now p1 = clock s /\ testCalls p1 = invoked s /\
               phaseResponseTimes p1 = [] /\ phaseErrors p1 = 0 /\
               allExitedPhase p1 = true).
  { unfold p1. destruct Hidle as [Hu|Hd].
    - replace (Z.to_nat users) with O by lia. done.
    - assert (Hlate : Qltb (inject_Z (clock s)) endTime = false).
      { apply Qltb_ge. unfold endTime. lra. }
      induction (Z.to_nat users) as [|n (Hn & Hc & Hr & He & Hx)]; simpl; [done|].
      unfold simulateUserPhase at 1 3 5 7 9, simulateUserPhase_enter.
      rewrite Hn, Hlate. simpl. split_and!; try done.
      unfold allExitedPhase in *. simpl. rewrite forallb_app, Hx. done. }
  destruct H1 as (Hn & Hc & Hr & He & Hx).
  assert (Hjoin : awaitAll (handlePhase endTime) allExitedPhase tr p1
                  = Fulfilled (tr, p1)).
  { destruct tr; simpl; by rewrite Hx. }
  rewrite Hjoin. simpl. do 3 eexists. split; [reflexivity|]. simpl.
  rewrite Hn, Hc, Hr, He. split_and!; try done. lia.
Qed.

(** Property X11.  In every spike run the error rate of a sample is [NaN]
    exactly when no call of its phase succeeded, and 0 otherwise: a phase in
    which every call threw (or in which no call was made) reports [NaN] and
    an average of 0, never an error rate of 100. *)
Theorem spike_errorRate_is_zero_or_NaN options tr s r log tr' s' :
  spikeTest options tr s = Fulfilled (r, log, tr', s') ->
  Forall2 (fun x l =>
             (PhaseSample.errorRate x = NaN <-> latencies l = []) /\
             (latencies l <> [] -> PhaseSample.errorRate x =n= Fin 0) /\
             (latencies l = [] -> PhaseSample.avgResponseTime x = Fin 0) /\
             (calls l = failures l -> PhaseSample.errorRate x = NaN))
    (SpikeTestResult.results r) log.
Proof.
  intros Hrun. apply spikeTest_phases in Hrun.
  destruct Hrun as (r1 & r2 & r3 & l1 & l2 & l3 & s1 & s2 & s3
                    & -> & -> & H1 & H2 & H3).
  assert (Hphase : forall users duration s s' x l name,
            phaseOf users duration s s' x l ->
            (PhaseSample.errorRate (labelled name x) = NaN <-> latencies l = []) /\
            (latencies l <> [] ->
             PhaseSample.errorRate (labelled name x) =n= Fin 0) /\
            (latencies l = [] ->
             PhaseSample.avgResponseTime (labelled name x) = Fin 0) /\
            (calls l = failures l ->
             PhaseSample.errorRate (labelled name x) = NaN)).
  { intros users duration sa sb x l name
      (_ & Ha & He & _ & _ & _ & _ & _ & _ & _ & _ & Hf & Hc).
    simpl. rewrite Ha, He.
    assert (Hsome : latencies l <> [] -> errorPercentage (latencies l) 0 =n= Fin 0)
      by apply errorPercentage_no_errors.
    split_and!; try done.
    - split.
      + intros Hnan. destruct (latencies l) as [|t ts] eqn:Hl; [done|].
        specialize (Hsome ltac:(done)). rewrite Hnan in Hsome. done.
      + by intros ->.
    - by intros ->.
    - intros Hall. destruct (latencies l); [done|]. simpl in Hc. lia. }
  constructor; [by eapply Hphase|].
  constructor; [by eapply Hphase|].
  constructor; [by eapply Hphase|].
  constructor.
Qed.

Lemma spike_errorRate_is_zero_or_NaN_witness :
  exists r log tr' s',
    spikeTest spike_options spike_events_failing (newEngine 0)
      = Fulfilled (r, log, tr', s') /\
    (calls <$> log = [1; 2; 1] /\ failures <$> log = [1; 1; 0]) /\
    exists x, SpikeTestResult.results r !! 0%nat = Some x /\
              PhaseSample.errorRate x = NaN.
Proof.
  do 4 eexists.
  apply conj_with; [vm_compute; reflexivity|].
  intros Hrun. split; [split; reflexivity|].
  pose proof (spike_errorRate_is_zero_or_NaN _ _ _ _ _ _ _ Hrun) as H.
  apply Forall2_cons_1 in H. destruct H as [H1 _].
  eexists. split; [reflexivity|].
  exact (proj2 (proj2 (proj2 H1)) eq_refl).
Defined.

(** Property X12.  A spike run never writes an outcome to [this.metrics]:
    when it completes, the shared metrics hold no latency and no failure,
    whatever its calls did; only [startTime] and [endTime] are set, to the
    clock readings at the start and at the end of the run.  The calls made
    are those of the three phases. *)
Theorem spike_keeps_shared_metrics_empty options tr s r log tr' s' :
  spikeTest options tr s = Fulfilled (r, log, tr', s') ->
  metrics s' = Metrics.mk [] [] 0 (clock s) (clock s') /\
  userPromises s' = userPromises s /\
  monitoringData s' = monitoringData s /\
  invoked s' - invoked s = foldr Z.add 0 (calls <$> log) /\
  SpikeTestResult.timestamp r = clock s'.
Proof.
  unfold spikeTest.
  set (s0 := setMetrics _ (resetMetrics s)).
  destruct (runPhase _ _ tr s0) as [|[[[r1 l1] tr1] s1]|] eqn:H1; simpl; try done.
  destruct (runPhase _ _ tr1 s1) as [|[[[r2 l2] tr2] s2]|] eqn:H2; simpl; try done.
  destruct (runPhase _ _ tr2 s2) as [|[[[r3 l3] tr3] s3]|] eqn:H3; simpl; try done.
  intros [= <- <- <- <-]. simpl.
  apply runPhase_engine in H1, H2, H3.
  destruct H1 as (Hm1 & Hu1 & Hd1 & _ & _ & Hi1).
  destruct H2 as (Hm2 & Hu2 & Hd2 & _ & _ & Hi2).
  destruct H3 as (Hm3 & Hu3 & Hd3 & _ & _ & Hi3).
  rewrite Hm3, Hm2, Hm1, Hu3, Hu2, Hu1, Hd3, Hd2, Hd1. simpl.
  split_and!; try done. simpl in Hi1. lia.
Qed.

Lemma spike_keeps_shared_metrics_empty_witness :
  exists r log tr' s',
    spikeTest spike_options spike_events (newEngine 0)
      = Fulfilled (r, log, tr', s') /\
    failures <$> log = [1; 2; 0] /\
    Metrics.errors (metrics s') = 0 /\
    Metrics.responseTimes (metrics s') = [].
Proof.
  do 4 eexists.
  apply conj_with; [vm_compute; reflexivity|].
  intros Hrun. split; [reflexivity|].
  pose proof (proj1 (spike_keeps_shared_metrics_empty _ _ _ _ _ _ _ Hrun)) as H.
  split; [exact (f_equal Metrics.errors H)|exact (f_equal Metrics.responseTimes H)].
Defined.

(** Property X13.  No option of [spikeTest] is checked.  When each phase has
    no actor or a duration that is zero or negative, the run completes at
    once, without waiting for any event and without a call, and still
    returns three samples, each with 0 for the average and [NaN] for the
    error rate. *)
Theorem spike_without_work_completes_at_once options tr s :
  SpikeOptions.baseUsers options <= 0 \/ (SpikeOptions.baseDuration options <= 0)%Q ->
  SpikeOptions.spikeUsers options <= 0 \/ (SpikeOptions.spikeDuration options <= 0)%Q ->
  SpikeOptions.baseUsers options <= 0 \/ (SpikeOptions.recoveryDuration options <= 0)%Q ->
  exists r log s',
    spikeTest options tr s = Fulfilled (r, log, tr, s') /\
    clock s' = clock s /\
    PhaseSample.phase <$> SpikeTestResult.results r
      = ["Base Load"; "Spike Load"; "Recovery"]%string /\
    Forall (fun x => PhaseSample.avgResponseTime x = Fin 0 /\
                     PhaseSample.errorRate x = NaN)
      (SpikeTestResult.results r) /\
    Forall (fun l => calls l = 0) log.
Proof.
  intros Hbase Hspike Hrec. unfold spikeTest.
  set (s0 := setMetrics _ (resetMetrics s)).
  destruct (runPhase_idle _ _ tr s0 Hbase)
    as (r1 & l1 & s1 & -> & Hc1 & _ & Ha1 & He1 & _ & Hn1). simpl.
  destruct (runPhase_idle _ _ tr s1 Hspike)
    as (r2 & l2 & s2 & -> & Hc2 & _ & Ha2 & He2 & _ & Hn2). simpl.
  destruct (runPhase_idle _ _ tr s2 Hrec)
    as (r3 & l3 & s3 & -> & Hc3 & _ & Ha3 & He3 & _ & Hn3). simpl.
  do 3 eexists. split; [reflexivity|]. simpl.
  split_and!; try done.
  - by rewrite Hc3, Hc2, Hc1.
  - by repeat constructor.
  - by repeat constructor.
Qed.

Lemma spike_without_work_completes_at_once_witness :
  ((SpikeOptions.baseDuration spike_options_instant <= 0)%Q /\
   (SpikeOptions.spikeDuration spike_options_instant <= 0)%Q /\
   (SpikeOptions.recoveryDuration spike_options_instant <= 0)%Q) /\
  exists r log s',
    spikeTest spike_options_instant spike_events (newEngine 0)
      = Fulfilled (r, log, spike_events, s') /\
    clock s' = clock (newEngine 0).
Proof.
  apply conj_with; [by compute|].
  intros (Hb & Hs & Hr).
  destruct (spike_without_work_completes_at_once spike_options_instant
              spike_events (newEngine 0) (or_intror Hb) (or_intror Hs)
              (or_intror Hr))
    as (r & log & s' & Hrun & Hclock & _).
  by exists r, log, s'.
Defined.

(** ** More on enduranceTest *)

(** *** Sums, means and maxima of numbers *)

Lemma foldl_nadd_NaN (l : list num) : foldl nadd NaN l = NaN.
Proof. induction l as [|a l IH]; simpl; [done|]. exact IH. Qed.

Lemma nadd_NaN_r (a : num) : nadd a NaN = NaN.
Proof. by destruct a. Qed.

(** One [NaN] makes the sum [NaN]. *)
Lemma foldl_nadd_Exists_NaN (l : list num) :
  forall acc, Exists (fun a => a = NaN) l -> foldl nadd acc l = NaN.
Proof.
  induction l as [|a l IH]; intros acc Hex; simpl.
  - by apply Exists_nil in Hex.
  - apply Exists_cons in Hex. destruct Hex as [->|Hex].
    + rewrite nadd_NaN_r. apply foldl_nadd_NaN.
    + by apply IH.
Qed.

(** The sum of rationals between [lo] and [hi]. *)
Lemma foldl_nadd_bounds (lo hi : Q) (l : list num) :
  forall acc,
    Forall (fun a => exists q, a = Fin q /\ (lo <= q)%Q /\ (q <= hi)%Q) l ->
    exists t,
      foldl nadd (Fin acc) l = Fin t /\
      (acc + inject_Z (Z.of_nat (length l)) * lo <= t)%Q /\
      (t <= acc + inject_Z (Z.of_nat (length l)) * hi)%Q.
Proof.
  induction l as [|a l IH]; intros acc Hl.
  - exists acc. simpl. split; [done|].
    change (inject_Z (Z.of_nat 0)) with 0%Q. split; lra.
  - apply Forall_cons in Hl. destruct Hl as [(q & -> & Hlo & Hhi) Hl].
    destruct (IH (acc + q)%Q Hl) as (t & Ht & Htlo & Hthi).
    exists t. simpl foldl. split; [exact Ht|].
    simpl length. rewrite !inject_Z_succ. split; lra.
Qed.

(** The mean of rationals between [lo] and [hi] lies between them. *)
Lemma mean_within (lo hi : Q) (l : list num) :
  l <> [] ->
  Forall (fun a => exists q, a = Fin q /\ (lo <= q)%Q /\ (q <= hi)%Q) l ->
  exists m,
    ndiv (foldl nadd (Fin 0) l) (ofZ (Z.of_nat (length l))) = Fin m /\
    (lo <= m)%Q /\ (m <= hi)%Q.
Proof.
  intros Hne Hl.
  destruct (foldl_nadd_bounds lo hi l 0%Q Hl) as (t & -> & Htlo & Hthi).
  assert (Hn : 0 < Z.of_nat (length l)) by (destruct l; [done|simpl; lia]).
  pose proof (inject_Z_pos _ Hn) as HnQ.
  unfold ofZ. simpl. rewrite Qeq_bool_inject_Z by lia.
  eexists. split; [reflexivity|]. split.
  - apply Qle_shift_div_l; [done|]. rewrite Qmult_comm. lra.
  - apply Qle_shift_div_r; [done|]. rewrite Qmult_comm. lra.
Qed.



(** *** The snapshots of a run *)

Lemma run_app {St : Type} (step : event -> St -> St) (pre post : list event) :
  forall s, run step (pre ++ post) s = run step post (run step pre s).
Proof. induction pre as [|e pre IH]; intros s; simpl; [done|]. apply IH. Qed.

Lemma enduranceStart_Timed options s :
  Timed (clock s) (enduranceStart options s) /\
  Metrics.errors (metrics (enduranceStart options s)) = 0 /\
  Metrics.responseTimes (metrics (enduranceStart options s)) = [] /\
  invoked s <= invoked (enduranceStart options s).
Proof.
  unfold enduranceStart.
  set (endTime := (inject_Z (clock (setMetrics _ (resetMetrics s))) + _)%Q).
  set (s0 := setMonitoringData [] _).
  destruct (launchAll_facts endTime (EnduranceOptions.users options) s0)
    as (Hc & Hm & _).
  pose proof (launchAll_Timed (clock s) endTime (EnduranceOptions.users options) s0)
    as Htimed.
  pose proof (launchAll_invoked endTime (EnduranceOptions.users options) s0) as Hinv.
  split_and!.
  - destruct Htimed as (H1 & H2 & H3); [simpl; lia|done|].
    split_and!; simpl; done.
  - simpl. by rewrite Hm.
  - simpl. by rewrite Hm.
  - simpl. rewrite Hinv. destruct (Qltb _ _); simpl; lia.
Qed.

(** What every snapshot of an endurance run shows: it was taken after some
    of the events, in a state whose latencies all lie between 0 and the time
    since the start of the run and whose failure counter is not negative. *)
Lemma enduranceTest_snapshots options tr s r tr' s' :
  enduranceTest options tr s = Fulfilled (r, tr', s') ->
  let deadline :=
    (inject_Z (clock s) + EnduranceOptions.duration options * 60 * 60 * 1000)%Q in
  r = generateEnduranceTestResult (EnduranceTestResult.monitoringData r) s' /\
  clock s <= clock s' /\
  Metrics.startTime (metrics s') = clock s /\
  Metrics.endTime (metrics s') = clock s' /\
  monitoringIntervalId s' = None /\
  allExited s' = true /\
  length (userPromises s') = Z.to_nat (EnduranceOptions.users options) /\
  (userPromises s' <> [] -> (deadline <= inject_Z (clock s'))%Q) /\
  Forall (fun d => exists pre post,
            tr = pre ++ post /\
            let st := run (handle 1000 deadline) pre (enduranceStart options s) in
            viewOf st d /\ Timed (clock s) st /\ clock st <= clock s' /\
            0 <= Metrics.errors (metrics st))
    (EnduranceTestResult.monitoringData r).
Proof.
  intros Hrun deadline. apply enduranceTest_run in Hrun.
  destruct Hrun as (s1 & pre & _ & Htr & Hs1 & Hexit & Hs' & Hr).
  fold deadline in Hs1.
  destruct (enduranceStart_TimerInv options s) as (Hinv & Hc0 & Hst0 & Hd0 & Hl0).
  destruct (enduranceStart_Timed options s) as (Htimed0 & He0 & _).
  pose proof (run_frame 1000 deadline pre (enduranceStart options s))
    as (Hc1 & Hst1 & _ & Hl1).
  rewrite <- Hs1 in Hc1, Hst1, Hl1.
  assert (Hdata : EnduranceTestResult.monitoringData r = monitoringData s1).
  { by rewrite Hr. }
  assert (Hclock : clock s' = clock s1) by (by rewrite Hs').
  split_and!.
  - by rewrite Hdata.
  - lia.
  - rewrite Hs'. simpl. congruence.
  - by rewrite Hs'.
  - by rewrite Hs'.
  - by rewrite Hs'.
  - rewrite Hs'. simpl. congruence.
  - intros Hne. rewrite Hclock.
    assert (Hinv1 : TimerInv
              (timerDelay (EnduranceOptions.monitoringInterval options * 60 * 1000))
              (EnduranceOptions.users options) (clock s) deadline s1).
    { rewrite Hs1. apply TimerInv_run; [apply timerDelay_pos|exact Hinv]. }
    apply joined_late; [by destruct Hinv1|done|].
    by rewrite Hs' in Hne.
  - rewrite Hdata.
    destruct (run_views 1000 deadline pre (enduranceStart options s))
      as (snaps & Hsnaps & Hviews).
    rewrite <- Hs1, Hd0 in Hsnaps. simpl in Hsnaps. rewrite Hsnaps.
    eapply Forall_impl; [exact Hviews|].
    intros d (pre' & post' & Hpre & Hview).
    exists pre', (post' ++ tr'). split; [by rewrite Htr, Hpre, app_assoc|].
    simpl. split_and!.
    + done.
    + by apply run_Timed.
    + rewrite Hclock, Hs1, Hpre, run_app.
      by destruct (run_frame 1000 deadline post'
                     (run (handle 1000 deadline) pre' (enduranceStart options s)))
        as (? & _).
    + destruct (run_progress 1000 deadline pre' (enduranceStart options s))
        as (_ & _ & He & _). lia.
Qed.

(** Property X14.  No option of [enduranceTest] is checked.  With no actor
    or with a duration that is zero or negative the run completes at once,
    without waiting for any event and without a call; it has no snapshot,
    and the reducer, dividing by the number of snapshots, returns [NaN] for
    the average latency and for the average error rate and [-Infinity] for
    the peak latency. *)
Theorem endurance_without_work_completes_at_once options tr s :
  EnduranceOptions.users options <= 0 \/ (EnduranceOptions.duration options <= 0)%Q ->
  exists r s',
    enduranceTest options tr s = Fulfilled (r, tr, s') /\
    clock s' = clock s /\
    invoked s' = invoked s /\
    EnduranceTestResult.monitoringData r = [] /\
    EnduranceTestResult.avgResponseTime r = NaN /\
    EnduranceTestResult.maxResponseTime r = NegInf /\
    EnduranceTestResult.avgErrorRate r = NaN.
Proof.
  intros Hidle. unfold enduranceTest.
  set (s0 := setMetrics _ (resetMetrics s)).
  set (endTime := (inject_Z (clock s0) + _)%Q).
  set (s1 := launchAll endTime (EnduranceOptions.users options)
               (setMonitoringData [] s0)).
  destruct (launchAll_facts endTime (EnduranceOptions.users options)
              (setMonitoringData [] s0)) as (Hc & _ & Hd & _ & Hl).
  fold s1 in Hc, Hd, Hl. simpl in Hc, Hd.
  assert (Hinv : invoked s1 = invoked s /\ allExited s1 = true).
  { unfold s1. rewrite launchAll_invoked. simpl. destruct Hidle as [Hu|Hdur].
    - replace (Z.to_nat (EnduranceOptions.users options)) with O in * by lia.
      split; [destruct (Qltb _ _); lia|].
      unfold allExited. fold s1.
      destruct (userPromises s1); [done|simpl in Hl; lia].
    - assert (Hlate : (endTime <= inject_Z (clock s))%Q).
      { unfold endTime. simpl. lra. }
      split; [|by apply launchAll_late].
      apply Qltb_ge in Hlate. by rewrite Hlate. }
  destruct Hinv as (Hinv & Hexit).
  set (s2 := setMonitoringIntervalId _ s1).
  assert (Hjoin : awaitAll (handle 1000 endTime) allExited tr s2 = Fulfilled (tr, s2)).
  { destruct tr; simpl; unfold allExited in *; simpl; by rewrite Hexit. }
  rewrite Hjoin. simpl. do 2 eexists. split; [reflexivity|]. simpl.
  rewrite Hd. split_and!; done.
Qed.

Lemma endurance_without_work_completes_at_once_witness :
  (EnduranceOptions.duration endurance_options_instant <= 0)%Q /\
  exists r s',
    enduranceTest endurance_options_instant endurance_events (newEngine 0)
      = Fulfilled (r, endurance_events, s') /\
    EnduranceTestResult.avgErrorRate r = NaN.
Proof.
  apply conj_with; [by compute|].
  intros Hd.
  destruct (endurance_without_work_completes_at_once endurance_options_instant
              endurance_events (newEngine 0) (or_intror Hd))
    as (r & s' & Hrun & _ & _ & _ & _ & _ & Hrate).
  by exists r, s'.
Defined.

(** Property X15.  In every endurance run the error rate of a snapshot is
    [NaN] when the callback ran before any call had settled and a percentage
    otherwise.  The average error rate of the result is [NaN] when there is
    no snapshot and as soon as one snapshot has [NaN]: one callback that
    runs before the first call settles spoils the average of the whole run.
    When no snapshot has [NaN] and there is one, the average is a
    percentage. *)
Theorem endurance_errorRate_average options tr s r tr' s' :
  enduranceTest options tr s = Fulfilled (r, tr', s') ->
  let data := EnduranceTestResult.monitoringData r in
  let deadline :=
    (inject_Z (clock s) + EnduranceOptions.duration options * 60 * 60 * 1000)%Q in
  Forall (fun d => exists pre post,
            tr = pre ++ post /\
            let st := run (handle 1000 deadline) pre (enduranceStart options s) in
            Snapshot.timestamp d = clock st /\
            (Snapshot.errorRate d = NaN <->
             Metrics.responseTimes (metrics st) = [] /\
             Metrics.errors (metrics st) = 0) /\
            (Snapshot.errorRate d = NaN \/ percentage (Snapshot.errorRate d)))
    data /\
  (data = [] \/ Exists (fun d => Snapshot.errorRate d = NaN) data ->
   EnduranceTestResult.avgErrorRate r = NaN) /\
  (data <> [] -> Forall (fun d => Snapshot.errorRate d <> NaN) data ->
   percentage (EnduranceTestResult.avgErrorRate r)).
Proof.
  intros Hrun data deadline.
  destruct (enduranceTest_snapshots _ _ _ _ _ _ Hrun)
    as (Hr & _ & _ & _ & _ & _ & _ & _ & Hsnaps).
  fold data deadline in Hr, Hsnaps.
  assert (Hrates : Forall (fun d => exists pre post,
            tr = pre ++ post /\
            let st := run (handle 1000 deadline) pre (enduranceStart options s) in
            Snapshot.timestamp d = clock st /\
            (Snapshot.errorRate d = NaN <->
             Metrics.responseTimes (metrics st) = [] /\
             Metrics.errors (metrics st) = 0) /\
            (Snapshot.errorRate d = NaN \/ percentage (Snapshot.errorRate d)))
    data).
  { eapply Forall_impl; [exact Hsnaps|].
    intros d (pre & post & Htr & (Hstamp & _ & Hrate) & _ & _ & Herr).
    exists pre, post. split; [done|]. simpl.
    set (st := run (handle 1000 deadline) pre (enduranceStart options s)) in *.
    destruct (errorPercentage_range (Metrics.responseTimes (metrics st))
                (Metrics.errors (metrics st)) Herr) as (Hnone & Hsome).
    rewrite <- Hrate in Hnone, Hsome.
    destruct (Z.eq_dec (Z.of_nat (length (Metrics.responseTimes (metrics st)))
                        + Metrics.errors (metrics st)) 0) as [Hzero|Hpos].
    - split; [done|]. split; [|left; by apply Hnone].
      split; [|intros _; by apply Hnone].
      intros _. split; [|lia].
      destruct (Metrics.responseTimes (metrics st)); [done|simpl in Hzero; lia].
    - destruct Hsome as (Heq & Hp); [lia|].
      split; [done|]. split; [|by right]. split.
      + intros Hnan. congruence.
      + intros (Hnil & Herrors). rewrite Hnil, Herrors in Hpos. done. }
  split_and!; [done| |].
  - intros Hbad. rewrite Hr. simpl. rewrite foldl_nadd_fmap.
    destruct Hbad as [->|Hex]; [done|].
    rewrite foldl_nadd_Exists_NaN; [done|].
    apply Exists_fmap. exact Hex.
  - intros Hne Hgood. rewrite Hr. simpl. rewrite foldl_nadd_fmap.
    destruct (mean_within 0 100 (Snapshot.errorRate <$> data)) as (m & Hm & Hm0 & Hm1).
    + by destruct data.
    + apply Forall_fmap. apply Forall_forall. intros d Hd. simpl.
      rewrite Forall_forall in Hrates, Hgood.
      destruct (Hrates d Hd) as (_ & _ & _ & _ & _ & [Hnan|(q & Hq & Hq0 & Hq1)]).
      * by destruct (Hgood d Hd).
      * by exists q.
    + rewrite length_fmap in Hm. rewrite Hm. by exists m.
Qed.

Lemma endurance_errorRate_average_witness :
  exists r tr' s',
    enduranceTest endurance_options endurance_events_slow (newEngine 0)
      = Fulfilled (r, tr', s') /\
    Snapshot.errorRate <$> EnduranceTestResult.monitoringData r
      = [NaN; NaN; NaN; NaN] /\
    EnduranceTestResult.avgErrorRate r = NaN.
Proof.
  do 3 eexists.
  apply conj_with; [vm_compute; reflexivity|].
  intros Hrun. split; [reflexivity|].
  refine (proj1 (proj2 (endurance_errorRate_average _ _ _ _ _ _ Hrun)) _).
  right. apply Exists_cons. by left.
Defined.



(** Property X17.  An endurance run with at least one actor does not
    complete before its deadline [start + duration] hours: the duration it
    reports, in hours, is not less than the one asked for.  When it
    completes, all its [users] actors have returned and the monitoring timer
    is cleared. *)
Theorem endurance_runs_to_deadline options tr s r tr' s' :
  0 < EnduranceOptions.users options ->
  enduranceTest options tr s = Fulfilled (r, tr', s') ->
  (inject_Z (clock s) + EnduranceOptions.duration options * 60 * 60 * 1000
   <= inject_Z (clock s'))%Q /\
  EnduranceTestResult.duration r
  = Fin (inject_Z (clock s' - clock s) / (1000 * 60 * 60)) /\
  (EnduranceOptions.duration options
   <= inject_Z (clock s' - clock s) / (1000 * 60 * 60))%Q /\
  length (userPromises s') = Z.to_nat (EnduranceOptions.users options) /\
  allExited s' = true /\
  monitoringIntervalId s' = None.
Proof.
  intros Hu Hrun.
  destruct (enduranceTest_snapshots _ _ _ _ _ _ Hrun)
    as (Hr & Hclock & Hstart & Hend & Htimer & Hexit & Hlen & Hlate & _).
  assert (Hdeadline : (inject_Z (clock s)
                       + EnduranceOptions.duration options * 60 * 60 * 1000
                       <= inject_Z (clock s'))%Q).
  { apply Hlate. intros Hnil. rewrite Hnil in Hlen. simpl in Hlen. lia. }
  assert (HelQ : inject_Z (clock s' - clock s)
                 == inject_Z (clock s') - inject_Z (clock s)).
  { unfold Z.sub. by rewrite inject_Z_plus, inject_Z_opp. }
  split_and!; try done.
  - rewrite Hr. simpl. by rewrite Hstart, Hend.
  - apply Qle_shift_div_l; lra.
Qed.

Lemma endurance_runs_to_deadline_witness :
  exists r tr' s',
    0 < EnduranceOptions.users endurance_options /\
    enduranceTest endurance_options endurance_events (newEngine 0)
      = Fulfilled (r, tr', s') /\
    (EnduranceOptions.duration endurance_options
     <= inject_Z (clock s' - 0) / (1000 * 60 * 60))%Q.
Proof.
  do 3 eexists.
  split; [reflexivity|].
  apply conj_with; [vm_compute; reflexivity|].
  intros Hrun.
  exact (proj1 (proj2 (proj2 (endurance_runs_to_deadline endurance_options
                                _ _ _ _ _ eq_refl Hrun)))).
Defined.

(** * Properties of ApiUtils *)

(** ** getPerformanceStats *)

Lemma or_else_default (x : option Z) : or_else x 0 = default 0 x.
Proof. destruct x as [v|]; simpl; [|done]. by destruct (Z.eqb_spec v 0). Qed.

Lemma answeredWith_snoc code history req :
  answeredWith code (history ++ [req])
  = answeredWith code history + (if ApiUtils.status req =? code then 1 else 0).
Proof.
  unfold answeredWith. rewrite List.filter_app, length_app. simpl.
  destruct (ApiUtils.status req =? code); simpl; lia.
Qed.

Lemma answeredWith_nonneg code history : 0 <= answeredWith code history.
Proof. unfold answeredWith. lia. Qed.

(** The count kept for a status code is the number of entries with that
    code; a code that never came has no key. *)
Lemma foldl_countStatus_lookup (history : list ApiUtils.RequestRecord) (code : Z) :
  foldl ApiUtils.countStatus ∅ history !! code
  = if answeredWith code history =? 0 then None
    else Some (answeredWith code history).
Proof.
  induction history as [|req history IH] using rev_ind.
  - simpl. by rewrite lookup_empty.
  - rewrite foldl_app, answeredWith_snoc. simpl. unfold ApiUtils.countStatus at 1.
    pose proof (answeredWith_nonneg code history) as Hpos.
    destruct (Z.eqb_spec (ApiUtils.status req) code) as [->|Hne].
    + rewrite lookup_insert_eq, IH, or_else_default.
      destruct (Z.eqb_spec (answeredWith code history) 0) as [->|Hn]; simpl; [done|].
      destruct (Z.eqb_spec (answeredWith code history + 1) 0); [lia|done].
    + rewrite lookup_insert_ne by done. rewrite IH, Z.add_0_r. done.
Qed.

Lemma sumCounts_countStatus (statusCodes : gmap Z Z) (req : ApiUtils.RequestRecord) :
  sumCounts (ApiUtils.countStatus statusCodes req) = sumCounts statusCodes + 1.
Proof.
  unfold sumCounts, ApiUtils.countStatus. rewrite or_else_default.
  set (code := ApiUtils.status req).
  assert (Hcomm : forall (m : gmap Z Z) (j1 j2 z1 z2 y : Z),
            j1 <> j2 -> m !! j1 = Some z1 -> m !! j2 = Some z2 ->
            z1 + (z2 + y) = z2 + (z1 + y)) by (intros; lia).
  destruct (statusCodes !! code) as [count|] eqn:Hcode; simpl.
  - rewrite <- insert_delete_eq.
    rewrite map_fold_insert_L; [|by eauto|by rewrite lookup_delete_eq].
    rewrite (map_fold_delete_L _ _ code count statusCodes); [lia|by eauto|done].
  - rewrite map_fold_insert_L; [lia|by eauto|done].
Qed.

Lemma sumCounts_foldl (history : list ApiUtils.RequestRecord) :
  sumCounts (foldl ApiUtils.countStatus ∅ history) = Z.of_nat (length history).
Proof.
  induction history as [|req history IH] using rev_ind.
  - unfold sumCounts. simpl. by rewrite map_fold_empty.
  - rewrite foldl_app. simpl. rewrite sumCounts_countStatus, IH, length_app.
    simpl. lia.
Qed.

(** Property X18.  [getPerformanceStats] tallies the history by status
    code: [statusCodes] has a key for a code exactly when an entry of the
    history has that code, the count under the key is the number of such
    entries, and the counts add up to [totalRequests], the length of the
    history. *)
Theorem statusCodes_tally_the_history (a : ApiUtils.t) :
  let stats := ApiUtils.getPerformanceStats a in
  ApiUtils.totalRequests stats = Z.of_nat (length (ApiUtils.requestHistory a)) /\
  (forall code,
     ApiUtils.statusCodes stats !! code
     = if answeredWith code (ApiUtils.requestHistory a) =? 0 then None
       else Some (answeredWith code (ApiUtils.requestHistory a))) /\
  (forall code,
     is_Some (ApiUtils.statusCodes stats !! code) <->
     exists req, req ∈ ApiUtils.requestHistory a /\ ApiUtils.status req = code) /\
  sumCounts (ApiUtils.statusCodes stats) = ApiUtils.totalRequests stats.
Proof.
  simpl. split_and!.
  - done.
  - apply foldl_countStatus_lookup.
  - intros code. rewrite foldl_countStatus_lookup.
    unfold answeredWith.
    destruct (List.filter _ _) as [|req l] eqn:Hfilter; simpl.
    + split; [by intros [? ?]|]. intros (req & Hin & Hcode). exfalso.
      assert (Hin' : In req (List.filter
                (fun req => ApiUtils.status req =? code) (ApiUtils.requestHistory a))).
      { apply filter_In. split; [by apply list_elem_of_In|]. by apply Z.eqb_eq. }
      by rewrite Hfilter in Hin'.
    + split; [|by eexists]. intros _. exists req.
      assert (Hin : In req (List.filter
                (fun req => ApiUtils.status req =? code) (ApiUtils.requestHistory a))).
      { rewrite Hfilter. by left. }
      apply filter_In in Hin. destruct Hin as [Hin Hcode].
      split; [by apply list_elem_of_In|by apply Z.eqb_eq].
  - apply sumCounts_foldl.
Qed.

(** [k] of [t] as a percentage *)
Lemma ratio_percentage (k t : Z) :
  0 <= k <= t -> 0 < t ->
  nmul (ndiv (ofZ k) (ofZ t)) (Fin 100) = Fin (inject_Z k / inject_Z t * 100) /\
  percentage (nmul (ndiv (ofZ k) (ofZ t)) (Fin 100)) /\
  ((inject_Z k / inject_Z t * 100 == 100)%Q <-> k = t) /\
  ((inject_Z k / inject_Z t * 100 == 0)%Q <-> k = 0).
Proof.
  intros Hk Ht. unfold ofZ. simpl. rewrite Qeq_bool_inject_Z by lia. simpl.
  pose proof (inject_Z_pos t Ht) as HtQ.
  assert (Hne : ~ (inject_Z t == 0)%Q).
  { intros H0. rewrite H0 in HtQ. by apply Qlt_irrefl in HtQ. }
  assert (H0 : (0 <= inject_Z k / inject_Z t)%Q).
  { apply Qle_shift_div_l; [done|]. rewrite Qmult_0_l. apply inject_Z_nonneg. lia. }
  assert (H1 : (inject_Z k / inject_Z t <= 1)%Q).
  { apply Qle_shift_div_r; [done|]. rewrite Qmult_1_l. rewrite <- Zle_Qle. lia. }
  assert (Hback : (inject_Z k == inject_Z k / inject_Z t * inject_Z t)%Q).
  { symmetry. by apply Qdiv_mult_cancel. }
  split_and!.
  - done.
  - eexists. split; [reflexivity|]. split; lra.
  - split.
    + intros Hfull.
      assert (Hone : (inject_Z k / inject_Z t == 1)%Q) by lra.
      rewrite Hone in Hback. unfold Qeq in Hback. simpl in Hback. lia.
    + intros ->. field. exact Hne.
  - split.
    + intros Hnone.
      assert (Hzero : (inject_Z k / inject_Z t == 0)%Q) by lra.
      rewrite Hzero in Hback. unfold Qeq in Hback. simpl in Hback. lia.
    + intros ->. field. exact Hne.
Qed.

Lemma foldl_durations_bounds (history : list ApiUtils.RequestRecord) :
  forall acc,
    Forall (fun req => 0 <= ApiUtils.duration req) history ->
    acc <= foldl (fun sum req => sum + ApiUtils.duration req) acc history.
Proof.
  induction history as [|req history IH]; intros acc Hall; simpl; [lia|].
  apply Forall_cons in Hall. destruct Hall as [Hreq Hall].
  specialize (IH (acc + ApiUtils.duration req) Hall). lia.
Qed.

(** Property X19.  The rates of [getPerformanceStats]: with an empty
    history the average response time and the success rate are 0 and
    [statusCodes] is empty; otherwise the success rate is a percentage, 100
    exactly when every entry has a status from 200 to 299 and 0 exactly when
    none has, and the average response time is a rational, not negative when
    no recorded duration is. *)
Theorem stats_rates (a : ApiUtils.t) :
  let stats := ApiUtils.getPerformanceStats a in
  let history := ApiUtils.requestHistory a in
  (history = [] ->
   ApiUtils.totalRequests stats = 0 /\
   ApiUtils.averageResponseTime stats = Fin 0 /\
   ApiUtils.successRate stats = Fin 0 /\
   ApiUtils.statusCodes stats = ∅) /\
  percentage (ApiUtils.successRate stats) /\
  (history <> [] ->
   (ApiUtils.successRate stats =n= Fin 100 <->
    forallb ApiUtils.successful history = true) /\
   (ApiUtils.successRate stats =n= Fin 0 <->
    forallb (fun req => negb (ApiUtils.successful req)) history = true) /\
   exists avg,
     ApiUtils.averageResponseTime stats = Fin avg /\
     (Forall (fun req => 0 <= ApiUtils.duration req) history -> (0 <= avg)%Q)).
Proof.
  intros stats history. unfold stats, ApiUtils.getPerformanceStats.
  cbn [ApiUtils.totalRequests ApiUtils.averageResponseTime ApiUtils.successRate
       ApiUtils.statusCodes].
  fold history.
  set (total := Z.of_nat (length history)).
  set (good := Z.of_nat (length (List.filter ApiUtils.successful history))).
  assert (Hgood : 0 <= good <= total).
  { unfold good, total. pose proof (filter_length_le ApiUtils.successful history).
    lia. }
  split_and!.
  - intros Hnil. unfold total. rewrite Hnil. done.
  - destruct (Z.ltb_spec 0 total) as [Hpos|Hpos].
    + by destruct (ratio_percentage good total Hgood Hpos) as (_ & ? & _).
    + exists 0%Q. split; [done|]. split; lra.
  - intros Hne.
    assert (Hpos : 0 < total) by (unfold total; destruct history; [done|simpl; lia]).
    destruct (Z.ltb_spec 0 total) as [_|?]; [|lia].
    destruct (ratio_percentage good total Hgood Hpos) as (Heq & _ & Hfull & Hnone).
    rewrite Heq. simpl. split_and!.
    + rewrite Hfull. unfold good, total. split.
      * intros Hlen. apply filter_length_forallb. lia.
      * intros Hall. f_equal. f_equal. clear -Hall.
        induction history as [|req history IH]; simpl in *; [done|].
        apply andb_true_iff in Hall. destruct Hall as [-> Hall].
        simpl. by rewrite IH.
    + rewrite Hnone. unfold good.
      pose proof (filter_length ApiUtils.successful history) as Hsplit.
      pose proof (filter_length_le (fun req => negb (ApiUtils.successful req)) history)
        as Hle.
      split.
      * intros Hzero. apply filter_length_forallb. lia.
      * intros Hall.
        assert (Hlen : length (List.filter
                  (fun req => negb (ApiUtils.successful req)) history)
                       = length history).
        { clear -Hall. induction history as [|req history IH]; simpl in *; [done|].
          apply andb_true_iff in Hall. destruct Hall as [-> Hall].
          simpl. by rewrite IH. }
        lia.
    + unfold ofZ. simpl. rewrite Qeq_bool_inject_Z by lia.
      eexists. split; [reflexivity|]. intros Hdur.
      apply Qle_shift_div_l; [by apply inject_Z_pos|]. rewrite Qmult_0_l.
      apply inject_Z_nonneg. by apply (foldl_durations_bounds history 0).
Qed.

(** ** The request history *)

Lemma api_tick_clock d a :
  ApiUtils.clock a <= ApiUtils.clock (ApiUtils.tick d a) /\
  ApiUtils.requestHistory (ApiUtils.tick d a) = ApiUtils.requestHistory a /\
  (0 <= d -> ApiUtils.clock (ApiUtils.tick d a) = ApiUtils.clock a + d).
Proof.
  unfold ApiUtils.tick. destruct (Z.leb_spec 0 d); simpl; split_and!; try done; lia.
Qed.

Lemma api_tick_stamped d a : stamped a -> stamped (ApiUtils.tick d a).
Proof.
  unfold stamped. destruct (api_tick_clock d a) as (Hc & -> & _).
  intros H. eapply Forall_impl; [exact H|]. simpl. lia.
Qed.

(** A request that is answered adds one entry to the history, stamped with
    the time of the answer; a request that is rejected adds none. *)
Lemma client_get_facts url rp a :
  let res := fst (ApiUtils.client_get url rp a) in
  let a' := snd (ApiUtils.client_get url rp a) in
  ApiUtils.clock a <= ApiUtils.clock a' /\
  (stamped a -> stamped a') /\
  match rp with
  | ApiUtils.Responds status latency =>
      res = Some (ApiUtils.mkResponse status url) /\
      exists req,
        ApiUtils.requestHistory a' = ApiUtils.requestHistory a ++ [req] /\
        ApiUtils.url req = url /\ ApiUtils.status req = status /\
        ApiUtils.timestamp req = ApiUtils.clock a' /\
        0 <= ApiUtils.duration req <= ApiUtils.clock a' - ApiUtils.clock a /\
        (ApiUtils.clock a <> 0 ->
         ApiUtils.duration req = ApiUtils.clock a' - ApiUtils.clock a)
  | ApiUtils.Fails latency =>
      res = None /\ ApiUtils.requestHistory a' = ApiUtils.requestHistory a
  end.
Proof.
  destruct rp as [status latency|latency]; simpl.
  - destruct (api_tick_clock latency a) as (Hc & Hh & _).
    split_and!; try done.
    + intros Hst. unfold stamped. simpl. apply Forall_app. split.
      * apply (api_tick_stamped latency) in Hst. exact Hst.
      * apply Forall_singleton. simpl. split; [lia|].
        destruct (Z.eqb_spec (ApiUtils.clock a) 0); lia.
    + eexists. rewrite Hh. split; [reflexivity|]. simpl.
      split_and!; try done.
      * destruct (Z.eqb_spec (ApiUtils.clock a) 0); lia.
      * destruct (Z.eqb_spec (ApiUtils.clock a) 0); lia.
      * intros Hne. destruct (Z.eqb_spec (ApiUtils.clock a) 0); [done|lia].
  - destruct (api_tick_clock latency a) as (Hc & Hh & _).
    split_and!; try done. apply api_tick_stamped.
Qed.

(** ** healthCheck *)

(** What [healthCheck] writes down for a request: the status and the time
    of the answer, or two zeros for a request that was rejected. *)
Lemma healthLoop_facts (endpoints : list string) :
  forall replies details healthy a,
    (length endpoints <= length replies)%nat ->
    exists new a',
      ApiUtils.healthLoop endpoints replies details healthy a
      = Fulfilled (healthy && forallb fine (take (length endpoints) replies),
                   details ++ new, drop (length endpoints) replies, a') /\
      ApiUtils.endpoint <$> new = endpoints /\
      Forall2 (fun rp d =>
                 match rp with
                 | ApiUtils.Responds status latency =>
                     ApiUtils.detail_status d = status /\
                     0 <= ApiUtils.responseTime d /\
                     (0 <= latency -> ApiUtils.responseTime d = latency)
                 | ApiUtils.Fails _ =>
                     ApiUtils.detail_status d = 0 /\ ApiUtils.responseTime d = 0
                 end)
        (take (length endpoints) replies) new /\
      (exists entries,
         ApiUtils.requestHistory a' = ApiUtils.requestHistory a ++ entries /\
         ApiUtils.status <$> entries
         = omap answerOf (take (length endpoints) replies)) /\
      ApiUtils.clock a <= ApiUtils.clock a' /\
      (stamped a -> stamped a').
Proof.
  induction endpoints as [|endpoint endpoints IH];
    intros replies details healthy a Hlen; simpl.
  - exists [], a. rewrite app_nil_r, andb_true_r, drop_0.
    split_and!; try done. exists []. by rewrite app_nil_r.
  - destruct replies as [|rp replies]; simpl in Hlen; [lia|].
    pose proof (client_get_facts endpoint rp a) as (Hc & Hst & Hrp).
    destruct (ApiUtils.client_get endpoint rp a) as [res a1] eqn:Hget.
    simpl in Hc, Hst, Hrp.
    destruct rp as [status latency|latency].
    + destruct Hrp as (-> & req & Hh & _ & Hstatus & _ & Hdur & _). simpl.
      destruct (IH replies
                  (details ++ [ApiUtils.mkDetail endpoint status
                                 (ApiUtils.clock a1 - ApiUtils.clock a)])
                  (if 400 <=? status then false else healthy) a1 ltac:(lia))
        as (new & a' & -> & Hnames & Hall & (entries & Hh' & Hentries) & Hc' & Hst').
      exists (ApiUtils.mkDetail endpoint status (ApiUtils.clock a1 - ApiUtils.clock a)
              :: new), a'.
      rewrite <- app_assoc. simpl.
      assert (Hb : forall rest,
                (if 400 <=? status then false else healthy) && rest
                = healthy && ((status <? 400) && rest)).
      { intros rest.
        destruct (Z.leb_spec 400 status), (Z.ltb_spec status 400), healthy; simpl;
          try lia; done. }
      split_and!.
      * by rewrite Hb.
      * by f_equal.
      * constructor; [|done]. simpl. split_and!; try done; [lia|].
        intros Hlat. unfold ApiUtils.client_get in Hget.
        injection Hget as <-. simpl.
        destruct (api_tick_clock latency a) as (_ & _ & Hadd). rewrite Hadd by done.
        lia.
      * exists (req :: entries). rewrite Hh', Hh, <- app_assoc. simpl.
        split; [done|]. by f_equal.
      * lia.
      * auto.
    + destruct Hrp as (-> & Hh). simpl.
      destruct (IH replies (details ++ [ApiUtils.mkDetail endpoint 0 0]) false a1
                  ltac:(lia))
        as (new & a' & -> & Hnames & Hall & (entries & Hh' & Hentries) & Hc' & Hst').
      exists (ApiUtils.mkDetail endpoint 0 0 :: new), a'.
      rewrite <- app_assoc. simpl.
      split_and!.
      * by rewrite andb_false_r.
      * by f_equal.
      * by constructor.
      * exists entries. by rewrite Hh', Hh.
      * lia.
      * auto.
Qed.

(** Property X20.  Given a reply for each endpoint, [healthCheck] completes
    (it is never rejected) with one entry of [details] for each endpoint, in
    the order of the endpoints: the status and the time of the answer for a
    request that was answered, two zeros for one that was rejected.
    [healthy] is true exactly when every request was answered with a status
    below 400.  Each answered request, and no rejected one, has left an
    entry in the request history. *)
Theorem healthCheck_reports_every_endpoint endpoints replies a :
  (length endpoints <= length replies)%nat ->
  let used := take (length endpoints) replies in
  exists details a',
    ApiUtils.healthCheck endpoints replies a
    = Fulfilled (forallb fine used, details, drop (length endpoints) replies, a') /\
    ApiUtils.endpoint <$> details = endpoints /\
    Forall2 (fun rp d =>
               match rp with
               | ApiUtils.Responds status latency =>
                   ApiUtils.detail_status d = status /\
                   0 <= ApiUtils.responseTime d /\
                   (0 <= latency -> ApiUtils.responseTime d = latency)
               | ApiUtils.Fails _ =>
                   ApiUtils.detail_status d = 0 /\ ApiUtils.responseTime d = 0
               end) used details /\
    (exists entries,
       ApiUtils.requestHistory a' = ApiUtils.requestHistory a ++ entries /\
       ApiUtils.status <$> entries = omap answerOf used) /\
    ApiUtils.clock a <= ApiUtils.clock a'.
Proof.
  intros Hlen used. unfold ApiUtils.healthCheck.
  destruct (healthLoop_facts endpoints replies [] true a Hlen)
    as (new & a' & Hrun & Hnames & Hall & Hhist & Hc & _).
  exists new, a'. by split_and!.
Qed.

Lemma healthCheck_reports_every_endpoint_witness :
  (3 <= length health_replies)%nat /\
  exists details a',
    ApiUtils.healthCheck ["/health"; "/status"; "/ping"]%string health_replies
      (ApiUtils.new 1000)
    = Fulfilled (false, details, [], a') /\
    ApiUtils.endpoint <$> details = ["/health"; "/status"; "/ping"]%string.
Proof.
  apply conj_with; [simpl; lia|].
  intros Hlen.
  destruct (healthCheck_reports_every_endpoint
              ["/health"; "/status"; "/ping"]%string health_replies
              (ApiUtils.new 1000) Hlen)
    as (details & a' & Hrun & Hnames & _).
  by exists details, a'.
Defined.

(** ** validateResponseTime *)

(** Property X21.  [validateResponseTime] looks for an entry of the history
    stamped with the present millisecond.  One millisecond or more after the
    answer no entry is found, the duration is taken to be 0, and the check
    passes for every limit that is not negative, however long the request
    took.  Asked in the millisecond of the answer, with no other entry in the
    history, it compares the recorded duration with the limit. *)
Theorem validateResponseTime_needs_the_same_millisecond
    url status latency maxTime a :
  stamped a -> 0 <= latency -> 0 < ApiUtils.clock a ->
  let response := ApiUtils.mkResponse status url in
  let a' := snd (ApiUtils.client_get url (ApiUtils.Responds status latency) a) in
  fst (ApiUtils.client_get url (ApiUtils.Responds status latency) a) = Some response /\
  (forall d, 0 < d ->
     ApiUtils.validateResponseTime response maxTime (ApiUtils.tick d a')
     = (0 <=? maxTime)) /\
  (ApiUtils.requestHistory a = [] ->
   ApiUtils.validateResponseTime response maxTime a' = (latency <=? maxTime)).
Proof.
  intros Hst Hlat Hpos response a'.
  pose proof (client_get_facts url (ApiUtils.Responds status latency) a)
    as (Hc & Hst' & Hres & req & Hh & Hurl & Hstatus & Hstamp & Hdur & Hexact).
  fold a' in Hc, Hst', Hh, Hstamp, Hdur, Hexact.
  split_and!.
  - done.
  - intros d Hd. unfold ApiUtils.validateResponseTime.
    destruct (api_tick_clock d a') as (_ & Hh' & Hadd). rewrite Hh', Hadd by lia.
    rewrite find_none; [done|].
    eapply Forall_impl; [exact (Hst' Hst)|]. cbv beta. intros x (Hx & _).
    apply andb_false_iff. right. apply Z.eqb_neq. lia.
  - intros Hnil. unfold ApiUtils.validateResponseTime.
    rewrite Hh, Hnil. simpl. rewrite Hurl, String.eqb_refl, Hstamp, Z.eqb_refl.
    rewrite or_else_default. simpl.
    rewrite Hexact by lia.
    assert (Hclock : ApiUtils.clock a' = ApiUtils.clock a + latency).
    { unfold a'. simpl. by destruct (api_tick_clock latency a) as (_ & _ & ->). }
    f_equal. lia.
Qed.

Lemma validateResponseTime_needs_the_same_millisecond_witness :
  (stamped (ApiUtils.new 1000) /\ 0 <= 900 /\ 0 < ApiUtils.clock (ApiUtils.new 1000)) /\
  ApiUtils.validateResponseTime (ApiUtils.mkResponse 200 "/login") 100
    (ApiUtils.tick 1
       (snd (ApiUtils.client_get "/login" (ApiUtils.Responds 200 900)
               (ApiUtils.new 1000))))
  = true.
Proof.
  apply conj_with; [split_and!; [constructor|lia|simpl; lia]|].
  intros (Hst & Hlat & Hpos).
  exact (proj1 (proj2 (validateResponseTime_needs_the_same_millisecond
                         "/login" 200 900 100 (ApiUtils.new 1000) Hst Hlat Hpos))
           1 ltac:(lia)).
Defined.

(** ** waitForEndpoint *)

Lemma timeoutDelay_pos (ms : Z) : 1 <= ApiUtils.timeoutDelay ms.
Proof.
  unfold ApiUtils.timeoutDelay.
  destruct (Z.leb_spec 1 ms); simpl; [|lia]. destruct (ms <=? 2147483647); lia.
Qed.

Lemma sleep_facts interval elapsed a :
  ApiUtils.clock a + ApiUtils.timeoutDelay interval
    <= ApiUtils.clock (ApiUtils.sleep interval elapsed a) /\
  ApiUtils.requestHistory (ApiUtils.sleep interval elapsed a)
  = ApiUtils.requestHistory a /\
  (stamped a -> stamped (ApiUtils.sleep interval elapsed a)).
Proof.
  unfold ApiUtils.sleep. pose proof (timeoutDelay_pos interval) as Hpos.
  destruct (api_tick_clock (Z.max elapsed (ApiUtils.timeoutDelay interval)) a)
    as (_ & Hh & Hadd).
  rewrite Hadd by lia. split_and!; [lia|done|apply api_tick_stamped].
Qed.

(** What the loop of [waitForEndpoint] has done when it returns: the
    requests [used] were made, each but the last one rejected and followed
    by a timeout. *)
Lemma waitLoop_facts url timeout interval startTime (replies : list ApiUtils.reply) :
  forall sleeps a ok replies' sleeps' a',
    ApiUtils.waitLoop url timeout interval startTime replies sleeps a
    = Fulfilled (ok, replies', sleeps', a') ->
    exists used,
      replies = used ++ replies' /\
      ApiUtils.clock a <= ApiUtils.clock a' /\
      (stamped a -> stamped a') /\
      (used <> [] ->
       (ApiUtils.clock a - startTime)
       + (Z.of_nat (length used) - 1) * ApiUtils.timeoutDelay interval < timeout) /\
      (ok = false ->
       timeout <= ApiUtils.clock a' - startTime /\
       Forall (fun rp => answerOf rp = None) used /\
       ApiUtils.requestHistory a' = ApiUtils.requestHistory a) /\
      (ok = true ->
       exists pre status latency entry,
         used = pre ++ [ApiUtils.Responds status latency] /\
         Forall (fun rp => answerOf rp = None) pre /\
         ApiUtils.requestHistory a' = ApiUtils.requestHistory a ++ [entry] /\
         ApiUtils.url entry = url /\ ApiUtils.status entry = status).
Proof.
  induction replies as [|rp replies IH]; intros sleeps a ok replies' sleeps' a'; simpl.
  - destruct (Z.ltb_spec (ApiUtils.clock a - startTime) timeout) as [Hlt|Hge]; [done|].
    intros [= <- <- <- <-]. exists []. split_and!; try done; lia.
  - destruct (Z.ltb_spec (ApiUtils.clock a - startTime) timeout) as [Hlt|Hge].
    2:{ intros [= <- <- <- <-]. exists []. split_and!; try done; lia. }
    pose proof (client_get_facts url rp a) as (Hc & Hst & Hrp).
    destruct (ApiUtils.client_get url rp a) as [res a1] eqn:Hget.
    simpl in Hc, Hst, Hrp.
    destruct rp as [status latency|latency].
    + destruct Hrp as (-> & entry & Hh & Hurl & Hstatus & _).
      intros [= <- <- <- <-]. exists [ApiUtils.Responds status latency].
      split_and!; try done.
      * intros _. simpl. lia.
      * intros _. by exists [], status, latency, entry.
    + destruct Hrp as (-> & Hh).
      destruct sleeps as [|elapsed sleeps]; [done|].
      destruct (sleep_facts interval elapsed a1) as (Hc2 & Hh2 & Hst2).
      pose proof (timeoutDelay_pos interval) as Hpos.
      intros Hrun. apply IH in Hrun.
      destruct Hrun as (used & -> & Hc' & Hst' & Hbound & Hno & Hyes).
      exists (ApiUtils.Fails latency :: used).
      split_and!; try done.
      * lia.
      * auto.
      * intros _. simpl length. destruct used as [|rp used].
        -- simpl. lia.
        -- specialize (Hbound ltac:(done)). simpl length in *. nia.
      * intros Hok. destruct (Hno Hok) as (Htime & Hfails & Hhist).
        split_and!; [done|by constructor|congruence].
      * intros Hok.
        destruct (Hyes Hok) as (pre & status & lat & entry & -> & Hpre & Hhist & Hurl & Hs).
        exists (ApiUtils.Fails latency :: pre), status, lat, entry.
        split_and!; try done; [by constructor|congruence].
Qed.

(** Property X22.  When [waitForEndpoint] returns [true], the last request it
    made was answered, every request before it was rejected, and the answer
    is the one entry it added to the request history.  When it returns
    [false], every request it made was rejected, the history is as it was,
    and [timeout] milliseconds or more have passed since the call: it never
    gives up early.  A request is only started less than [timeout]
    milliseconds after the call, and after each rejected request the timer
    waits one delay at least, which bounds the number of requests; with a
    [timeout] that is not positive no request is made at all. *)
Theorem waitForEndpoint_gives_up_only_after_timeout
    url timeout interval replies sleeps a ok replies' sleeps' a' :
  ApiUtils.waitForEndpoint url timeout interval replies sleeps a
  = Fulfilled (ok, replies', sleeps', a') ->
  exists used,
    replies = used ++ replies' /\
    (used <> [] ->
     (Z.of_nat (length used) - 1) * ApiUtils.timeoutDelay interval < timeout) /\
    (timeout <= 0 -> ok = false /\ used = []) /\
    (ok = false ->
     timeout <= ApiUtils.clock a' - ApiUtils.clock a /\
     Forall (fun rp => answerOf rp = None) used /\
     ApiUtils.requestHistory a' = ApiUtils.requestHistory a) /\
    (ok = true ->
     exists pre status latency entry,
       used = pre ++ [ApiUtils.Responds status latency] /\
       Forall (fun rp => answerOf rp = None) pre /\
       ApiUtils.requestHistory a' = ApiUtils.requestHistory a ++ [entry] /\
       ApiUtils.url entry = url /\ ApiUtils.status entry = status).
Proof.
  unfold ApiUtils.waitForEndpoint. intros Hrun.
  destruct (waitLoop_facts _ _ _ _ _ _ _ _ _ _ _ Hrun)
    as (used & Hused & Hc & _ & Hbound & Hno & Hyes).
  exists used. split_and!; try done.
  - intros Hne. specialize (Hbound Hne). lia.
  - intros Hzero.
    assert (Hnil : used = []).
    { destruct used as [|rp used]; [done|].
      specialize (Hbound ltac:(done)). simpl length in Hbound.
      pose proof (timeoutDelay_pos interval). nia. }
    split; [|done]. destruct ok; [|done].
    destruct (Hyes eq_refl) as (pre & status & latency & entry & Hpre & _).
    rewrite Hnil in Hpre. by destruct pre.
Qed.

Lemma waitForEndpoint_gives_up_only_after_timeout_witness :
  exists replies' sleeps' a',
    ApiUtils.waitForEndpoint "/health" 30000 1000 wait_replies [1000; 1003]
      (ApiUtils.new 5000)
    = Fulfilled (true, replies', sleeps', a') /\
    exists used, wait_replies = used ++ replies' /\
      (used <> [] ->
       (Z.of_nat (length used) - 1) * ApiUtils.timeoutDelay 1000 < 30000).
Proof.
  do 3 eexists.
  apply conj_with; [vm_compute; reflexivity|].
  intros Hrun.
  destruct (waitForEndpoint_gives_up_only_after_timeout _ _ _ _ _ _ _ _ _ _ Hrun)
    as (used & Hused & Hbound & _).
  by exists used.
Defined.

Lemma waitLoop_completes url timeout interval startTime (replies : list ApiUtils.reply) :
  forall sleeps a,
    timeout - (ApiUtils.clock a - startTime) <= Z.of_nat (length replies) ->
    timeout - (ApiUtils.clock a - startTime) <= Z.of_nat (length sleeps) ->
    exists ok replies' sleeps' a',
      ApiUtils.waitLoop url timeout interval startTime replies sleeps a
      = Fulfilled (ok, replies', sleeps', a').
Proof.
  induction replies as [|rp replies IH]; intros sleeps a Hreplies Hsleeps; simpl.
  - destruct (Z.ltb_spec (ApiUtils.clock a - startTime) timeout) as [Hlt|Hge];
      [simpl in Hreplies; lia|]. by do 4 eexists.
  - destruct (Z.ltb_spec (ApiUtils.clock a - startTime) timeout) as [Hlt|Hge];
      [|by do 4 eexists].
    pose proof (client_get_facts url rp a) as (Hc & _ & Hrp).
    destruct (ApiUtils.client_get url rp a) as [res a1] eqn:Hget.
    simpl in Hc, Hrp.
    destruct rp as [status latency|latency].
    + destruct Hrp as (-> & _). by do 4 eexists.
    + destruct Hrp as (-> & _).
      destruct sleeps as [|elapsed sleeps]; [simpl in Hsleeps; lia|].
      destruct (sleep_facts interval elapsed a1) as (Hc2 & _).
      pose proof (timeoutDelay_pos interval) as Hpos.
      apply IH; simpl length in *; lia.
Qed.

(** Property X23.  [waitForEndpoint] terminates: every rejected request is
    followed by a timeout of one millisecond at least, so that with
    [timeout] replies and [timeout] timeouts at hand the call returns; it is
    never rejected. *)
Theorem waitForEndpoint_completes url timeout interval replies sleeps a :
  timeout <= Z.of_nat (length replies) ->
  timeout <= Z.of_nat (length sleeps) ->
  (exists ok replies' sleeps' a',
     ApiUtils.waitForEndpoint url timeout interval replies sleeps a
     = Fulfilled (ok, replies', sleeps', a')) /\
  forall reason,
    ApiUtils.waitForEndpoint url timeout interval replies sleeps a
    <> Rejected reason.
Proof.
  intros Hreplies Hsleeps. unfold ApiUtils.waitForEndpoint.
  destruct (waitLoop_completes url timeout interval (ApiUtils.clock a)
              replies sleeps a) as (ok & replies' & sleeps' & a' & Hrun); try lia.
  split; [by exists ok, replies', sleeps', a'|].
  intros reason. by rewrite Hrun.
Qed.

Lemma waitForEndpoint_completes_witness :
  (2 <= Z.of_nat (length wait_replies) /\ 2 <= Z.of_nat (length [1; 1])) /\
  exists ok replies' sleeps' a',
    ApiUtils.waitForEndpoint "/health" 2 1 wait_replies [1; 1] (ApiUtils.new 5000)
    = Fulfilled (ok, replies', sleeps', a').
Proof.
  apply conj_with; [simpl; lia|].
  intros (Hreplies & Hsleeps).
  exact (proj1 (waitForEndpoint_completes "/health" 2 1 wait_replies [1; 1]
                  (ApiUtils.new 5000) Hreplies Hsleeps)).
Defined.
